(** * Menu system of the CC2538/CC2592 LCD board support code

    A shallow embedding of
    - components/utils/util_menu_system.{h,c}   (navigation state machine)
    - components/devices/lcd_dogm128_6/util_menu_driver.c (screen derivation,
      item layout, decimal selection)
    together with the properties of the navigation and layout core.

    Conventions.
    - C integers are [Z] values; every store into a sized variable goes
      through the matching cast ([to_uint8], [to_int8], ...), so the
      wrap-around of the target is explicit.
    - Pointers are [option N]: [None] is the null pointer.  Menus and item
      arrays live in a store indexed by address, so two menus may share an
      item array and an item may name any menu (itself included) as its
      submenu.
    - Behaviour the C standard leaves undefined (null or dangling dereference,
      read past the end of an array, division by zero) is the outcome
      [Fault]; a loop that exhausts its iteration budget is [Timeout]. *)

From Stdlib Require Import ZArith Lia List String Bool.
From Stdlib Require Import Floats.SpecFloat.
From stdpp Require Import base option list gmap.

Local Open Scope Z_scope.

(** ** Machine integers *)

Definition to_uint8 (z : Z) : Z := z mod 256.
Definition to_int8 (z : Z) : Z := (z + 128) mod 256 - 128.
Definition to_uint16 (z : Z) : Z := z mod 65536.
Definition to_int16 (z : Z) : Z := (z + 32768) mod 65536 - 32768.
Definition to_int32 (z : Z) : Z := (z + 2147483648) mod 4294967296 - 2147483648.

Definition is_uint8 (z : Z) : Prop := 0 <= z < 256.
Definition is_int8 (z : Z) : Prop := -128 <= z < 128.

(** ** Outcomes of running a piece of C code *)

Inductive outcome (A : Type) : Type :=
| Done (a : A)
| Fault
| Timeout.

Arguments Done {A} a.
Arguments Fault {A}.
Arguments Timeout {A}.

Definition outcome_bind {A B : Type} (f : A -> outcome B) (x : outcome A) : outcome B :=
  match x with
  | Done a => f a
  | Fault => Fault
  | Timeout => Timeout
  end.

Definition outcome_map {A B : Type} (f : A -> B) (x : outcome A) : outcome B :=
  match x with
  | Done a => Done (f a)
  | Fault => Fault
  | Timeout => Timeout
  end.

#[global] Instance outcome_mbind : MBind outcome := @outcome_bind.
#[global] Instance outcome_fmap : FMap outcome := @outcome_map.
#[global] Instance outcome_mret : MRet outcome := @Done.

Definition from_option {A : Type} (o : option A) : outcome A :=
  match o with
  | Some a => Done a
  | None => Fault
  end.

(** ** Flag constants of util_menu_system.h *)

Definition M_DISABLED : Z := 0x8000.
Definition M_EXTEND : Z := 0x4000.
Definition M_SWAP : Z := 0x2000.
Definition M_PVALUE_2 : Z := 0x1000.
Definition M_PVALUE_1 : Z := 0x0800.
Definition M_PVALUE_0 : Z := 0x0400.
Definition M_ALIGN_1 : Z := 0x0200.
Definition M_ALIGN_0 : Z := 0x0100.
Definition M_DUMMY : Z := M_EXTEND + M_DISABLED.
Definition M_RIGHT : Z := M_ALIGN_0.
Definition M_CENTER : Z := M_ALIGN_1.
Definition M_SPLIT : Z := M_ALIGN_1 + M_ALIGN_0.
Definition M_FLOAT1 : Z := M_PVALUE_0.
Definition M_FLOAT2 : Z := M_PVALUE_1.
Definition M_FLOAT3 : Z := M_PVALUE_1 + M_PVALUE_0.
Definition M_FLOAT4 : Z := M_PVALUE_2.
Definition M_FLOAT5 : Z := M_PVALUE_2 + M_PVALUE_0.
Definition M_FLOATA : Z := M_PVALUE_2 + M_PVALUE_1.
Definition M_STRING : Z := M_PVALUE_2 + M_PVALUE_1 + M_PVALUE_0.

(** ** Data model: [menuItem_t] and [menu_t] *)

Record menuItem_t : Type := MenuItem {
  flags : Z;                          (* uint16 *)
  pTextNumber : option string;        (* char*  *)
  pTextDescription : option string;   (* char*  *)
  pValue : option N;                  (* void*  *)
  pSubMenu : option N;                (* struct menu*  *)
  pItemGraphics : option N;
  pApplication : option N;            (* pAppFunction  *)
  pAppArgs : option N                 (* void*  *)
}.

Record menu_t : Type := Menu {
  pItems : option N;                  (* struct menuItem*  *)
  pParentMenu : option N;             (* struct menu*  *)
  pMenuGraphics : option N;
  pTextHeader : option string;
  pTextMenuItems : option string;
  nMenuItems : Z;                     (* uint8 *)
  nCurrentItem : Z;                   (* uint8 *)
  nSelectedItem : Z;                  (* int8  *)
  nScreen : Z;                        (* uint8 *)
  reservedAreas : Z                   (* uint8 *)
}.

Definition set_nCurrentItem (v : Z) (m : menu_t) : menu_t :=
  Menu (pItems m) (pParentMenu m) (pMenuGraphics m) (pTextHeader m)
       (pTextMenuItems m) (nMenuItems m) v (nSelectedItem m) (nScreen m)
       (reservedAreas m).

Definition set_nSelectedItem (v : Z) (m : menu_t) : menu_t :=
  Menu (pItems m) (pParentMenu m) (pMenuGraphics m) (pTextHeader m)
       (pTextMenuItems m) (nMenuItems m) (nCurrentItem m) v (nScreen m)
       (reservedAreas m).

Definition set_nScreen (v : Z) (m : menu_t) : menu_t :=
  Menu (pItems m) (pParentMenu m) (pMenuGraphics m) (pTextHeader m)
       (pTextMenuItems m) (nMenuItems m) (nCurrentItem m) (nSelectedItem m) v
       (reservedAreas m).

Definition set_pParentMenu (v : option N) (m : menu_t) : menu_t :=
  Menu (pItems m) v (pMenuGraphics m) (pTextHeader m)
       (pTextMenuItems m) (nMenuItems m) (nCurrentItem m) (nSelectedItem m)
       (nScreen m) (reservedAreas m).

(** The memory the menu core works on: menu nodes and item arrays by address,
    the state of the application behind the item callbacks, and the list of
    callback invocations made so far (most recent first). *)

Record state (W : Type) : Type := State {
  menus : gmap N menu_t;
  itemArrays : gmap N (list menuItem_t);
  world : W;
  calls : list (N * option N)
}.

Arguments State {W} _ _ _ _.
Arguments menus {W} _.
Arguments itemArrays {W} _.
Arguments world {W} _.
Arguments calls {W} _.

Definition load_menu {W} (st : state W) (p : N) : outcome menu_t :=
  from_option (menus st !! p).

Definition store_menu {W} (st : state W) (p : N) (m : menu_t) : state W :=
  State (<[p := m]> (menus st)) (itemArrays st) (world st) (calls st).

(** [pMenu->pItems[i]]: faults on a null or dangling array pointer and on an
    index outside the array. *)
Definition read_item {W} (st : state W) (m : menu_t) (i : Z) : outcome menuItem_t :=
  match pItems m with
  | None => Fault
  | Some a =>
      match itemArrays st !! a with
      | None => Fault
      | Some arr =>
          if i <? 0 then Fault else from_option (arr !! Z.to_nat i)
      end
  end.

Definition disabled (it : menuItem_t) : bool :=
  negb (Z.land (flags it) M_DISABLED =? 0).

(** ** util_menu_driver.c: decimal selection

    [float] is IEEE 754 binary32 and [double] binary64, both given by the
    reference operations of the standard library's [SpecFloat]; every
    operation of the C function appears at the precision C evaluates it in. *)

Definition f32_of_Z (z : Z) : spec_float := binary_normalize 24 128 z 0 false.
Definition f64_of_Z (z : Z) : spec_float := binary_normalize 53 1024 z 0 false.

(** Widening a float to double: the value is kept, the mantissa is brought to
    53 bits. *)
Definition f64_of_f32 (x : spec_float) : spec_float :=
  match x with
  | S754_finite s m e => binary_round 53 1024 s m e
  | _ => x
  end.

(** [(int32)x]: truncation toward zero; undefined when the value does not fit
    (infinities and NaN included). *)
Definition int32_of_float (x : spec_float) : outcome Z :=
  match x with
  | S754_zero _ => Done 0
  | S754_finite s m e =>
      let t := if 0 <=? e then Z.pos m * 2 ^ e else Z.pos m / 2 ^ (- e) in
      let z := if s then - t else t in
      if (-2147483648 <=? z) && (z <=? 2147483647) then Done z else Fault
  | _ => Fault
  end.

(** Signed 32-bit arithmetic: overflow is undefined. *)
Definition int32_checked (z : Z) : outcome Z :=
  if (-2147483648 <=? z) && (z <=? 2147483647) then Done z else Fault.

(** One line of the truncation block followed by its line of the correction
    block: [decimal = (int32)(scale*number)*unit;] and
    [if(scale*number-(float)decimal>0.5) decimal++;]. *)
Definition decimal_at (scale unit : Z) (number : spec_float) : outcome Z :=
  let scaled := SFmul 53 1024 (f64_of_Z scale) (f64_of_f32 number) in
  t ← int32_of_float scaled;
  decimal ← int32_checked (t * unit);
  if SFltb (binary_normalize 53 1024 1 (-1) false)
           (SFsub 53 1024 scaled (f64_of_f32 (f32_of_Z decimal)))
  then int32_checked (decimal + 1)
  else Done decimal.

(** The first two lines of [determineDecimals]: the sign and the integer part
    are removed. *)
Definition fractional_part (number : spec_float) : outcome spec_float :=
  let number :=
    if SFltb number (f32_of_Z 0) then SFmul 24 128 number (f32_of_Z (-1))
    else number in
  i ← int32_of_float number;
  Done (SFsub 24 128 number (f32_of_Z i)).

Definition determineDecimals (number : spec_float) : outcome Z :=
  number ← fractional_part number;
  decimal_5 ← decimal_at 100000 1 number;
  decimal_4 ← decimal_at 10000 10 number;
  decimal_3 ← decimal_at 1000 100 number;
  decimal_2 ← decimal_at 100 1000 number;
  decimal_1 ← decimal_at 10 10000 number;
  decimal_0 ← decimal_at 1 100000 number;
  if negb (decimal_5 =? decimal_4) then Done 5
  else if negb (decimal_4 =? decimal_3) then Done 4
  else if negb (decimal_3 =? decimal_2) then Done 3
  else if negb (decimal_2 =? decimal_1) then Done 2
  else if decimal_1 =? decimal_0 then Done 0
  else Done 1.

(** A decimal literal [num/den] of the C source, given as a double and passed
    to a [float] parameter. *)
Definition f32_of_f64 (x : spec_float) : spec_float :=
  match x with
  | S754_finite s m e => binary_round 24 128 s m e
  | _ => x
  end.

Definition float_literal (num den : Z) : spec_float :=
  f32_of_f64 (SFdiv 53 1024 (f64_of_Z num) (f64_of_Z den)).



(** *** Notions used in the proofs about [determineDecimals] *)

(** The canonical float of value [Q * 2^g], for [Q] of at most [prec] bits:
    the mantissa is brought to exactly [prec] bits. *)
Definition norm (prec : Z) (s : bool) (Q : positive) (g : Z) : spec_float :=
  let d := prec - Zdigits2 (Zpos Q) in
  S754_finite s (Z.to_pos (Zpos Q * 2 ^ d)) (g - d).

(** A fraction is a positive binary32 number below 1: mantissa [m] of at most
    24 bits and exponent [e = -E], with [m < 2^E]. *)
Definition fraction (m : positive) (e : Z) : Prop :=
  -149 <= e < 0 /\ Zpos m < 2 ^ 24 /\ Zpos m < 2 ^ (- e).







Section MenuCore.

Set Default Proof Using "Type".

(** Constants of util_menu_driver.h and lcd_dogm128_6.h, which are not part of
    the sources at hand; they are parameters of the development. *)
Variable MENU_ITEMS_PER_SCREEN : Z.

(** The application behind the callbacks: [app f args mns its w] runs callback
    [f] on argument pointer [args]; it may read the menu store, changes the
    application state, and returns the callback's uint8 result. *)
Variable W : Type.
Variable app : N -> option N -> gmap N menu_t -> gmap N (list menuItem_t) -> W -> W * Z.

(** *** util_menu_driver.c: screens *)

Definition reserved (reservedAreas bit : Z) : bool :=
  negb (Z.land reservedAreas (Z.shiftl 1 bit) =? 0).

(** [determineItemsPerScreen]: the loop [for(bit=1;bit<=7;bit++)]. *)
Definition determineItemsPerScreen (pMenu : menu_t) : Z :=
  let reservedAreas := to_uint8 (reservedAreas pMenu) in
  fold_left
    (fun itemsPerScreen bit =>
       if reserved reservedAreas bit
       then to_uint8 (itemsPerScreen - 1)
       else itemsPerScreen)
    [1; 2; 3; 4; 5; 6; 7]
    (to_uint8 MENU_ITEMS_PER_SCREEN).

(** [menuGetScreen]: [nItem] is converted to uint8 at the call. *)
Definition menuGetScreen (pMenu : menu_t) (nItem : Z) : outcome Z :=
  let itemsPerScreen := determineItemsPerScreen pMenu in
  if itemsPerScreen =? 0 then Fault
  else Done (to_uint8 nItem / itemsPerScreen).

(** *** util_menu_system.c: navigation *)

(** The scan of [menuUp]: [while(attemptedItem>=0 && !itemFound)].  Returns
    the final [(attemptedItem, itemFound)]. *)
Fixpoint menuUp_scan (fuel : nat) (st : state W) (pMenu : menu_t)
    (attemptedItem : Z) : outcome (Z * bool) :=
  if attemptedItem >=? 0 then
    match fuel with
    | O => Timeout
    | S fuel' =>
        it ← read_item st pMenu attemptedItem;
        if disabled it
        then menuUp_scan fuel' st pMenu (to_int8 (attemptedItem - 1))
        else Done (attemptedItem, true)
    end
  else Done (attemptedItem, false).

Definition menuUp (st : state W) (p : N) : outcome (state W * Z) :=
  pMenu ← load_menu st p;
  let attemptedItem := to_int8 (nCurrentItem pMenu - 1) in
  '(attemptedItem, itemFound) ← menuUp_scan 128 st pMenu attemptedItem;
  attemptedItemScreen ← to_int8 <$> menuGetScreen pMenu attemptedItem;
  currentItemScreen ← to_int8 <$> menuGetScreen pMenu (nCurrentItem pMenu);
  let currentScreen := to_int8 (nScreen pMenu) in
  if itemFound && (attemptedItemScreen =? currentScreen)
               && (currentItemScreen =? currentScreen)
  then
    Done (store_menu st p (set_nCurrentItem (to_uint8 attemptedItem) pMenu), 1)
  else if itemFound && (attemptedItemScreen =? currentScreen - 1)
                    && (currentItemScreen >=? currentScreen)
  then
    Done (store_menu st p
            (set_nScreen (to_uint8 (nScreen pMenu - 1))
               (set_nCurrentItem (to_uint8 attemptedItem) pMenu)), 1)
  else if nScreen pMenu >? 0
  then Done (store_menu st p (set_nScreen (to_uint8 (nScreen pMenu - 1)) pMenu), 1)
  else Done (st, 0).

(** The scan of [menuDown]:
    [while(attemptedItem<pMenu->nMenuItems && !itemFound)]. *)
Fixpoint menuDown_scan (fuel : nat) (st : state W) (pMenu : menu_t)
    (attemptedItem : Z) : outcome (Z * bool) :=
  if attemptedItem <? nMenuItems pMenu then
    match fuel with
    | O => Timeout
    | S fuel' =>
        it ← read_item st pMenu attemptedItem;
        if disabled it
        then menuDown_scan fuel' st pMenu (to_uint8 (attemptedItem + 1))
        else Done (attemptedItem, true)
    end
  else Done (attemptedItem, false).

Definition menuDown (st : state W) (p : N) : outcome (state W * Z) :=
  pMenu ← load_menu st p;
  let attemptedItem := to_uint8 (nCurrentItem pMenu + 1) in
  '(attemptedItem, itemFound) ← menuDown_scan 256 st pMenu attemptedItem;
  attemptedItemScreen ← menuGetScreen pMenu attemptedItem;
  currentItemScreen ← menuGetScreen pMenu (nCurrentItem pMenu);
  let currentScreen := nScreen pMenu in
  lastScreen ← (if nMenuItems pMenu >? 0
                then menuGetScreen pMenu (nMenuItems pMenu - 1)
                else Done 0);
  if itemFound && (attemptedItemScreen =? currentScreen)
               && (currentItemScreen =? currentScreen)
  then
    Done (store_menu st p (set_nCurrentItem attemptedItem pMenu), 1)
  else if itemFound && (attemptedItemScreen =? currentScreen + 1)
                    && (currentItemScreen <=? currentScreen)
  then
    Done (store_menu st p
            (set_nScreen (to_uint8 (nScreen pMenu + 1))
               (set_nCurrentItem attemptedItem pMenu)), 1)
  else if nScreen pMenu <? lastScreen
  then Done (store_menu st p (set_nScreen (to_uint8 (nScreen pMenu + 1)) pMenu), 1)
  else Done (st, 0).

(** [menuPositionTop]: [while(menuUp(pMenu));]. *)
Fixpoint menuPositionTop_loop (fuel : nat) (st : state W) (p : N) : outcome (state W) :=
  match fuel with
  | O => Timeout
  | S fuel' =>
      '(st', changed) ← menuUp st p;
      if changed =? 0 then Done st' else menuPositionTop_loop fuel' st' p
  end.

(** On a well-formed menu every successful [menuUp] lowers
    [nCurrentItem + nScreen], which is at most 510, so 511 calls suffice (see
    [menuPositionTop_top]). *)
Definition menuPositionTop (st : state W) (p : N) : outcome (state W) :=
  menuPositionTop_loop 511 st p.

Definition menuEnter (st : state W) (p : N) : outcome (state W * N) :=
  pMenu ← load_menu st p;
  let nCurrentItem := to_int8 (nCurrentItem pMenu) in
  nCurrentItemScreen ← to_int8 <$> menuGetScreen pMenu nCurrentItem;
  if nCurrentItemScreen =? nScreen pMenu then
    it ← read_item st pMenu nCurrentItem;
    let pApp := pApplication it in
    let pAppArgs := pAppArgs it in
    let pSub := pSubMenu it in
    let st1 :=
      if nSelectedItem pMenu >? -1
      then store_menu st p (set_nSelectedItem nCurrentItem pMenu)
      else st in
    let '(st2, handled) :=
      match pApp with
      | Some f =>
          let '(w', r) := app f pAppArgs (menus st1) (itemArrays st1) (world st1) in
          (State (menus st1) (itemArrays st1) w' ((f, pAppArgs) :: calls st1),
           negb (to_uint8 r =? 0))
      | None => (st1, false)
      end in
    if handled then Done (st2, p)
    else
      match pSub with
      | Some q =>
          sub ← load_menu st2 q;
          Done (store_menu st2 q (set_pParentMenu (Some p) sub), q)
      | None => Done (st2, p)
      end
  else Done (st, p).

Definition menuBack (st : state W) (p : N) : outcome (state W * N) :=
  pMenu ← load_menu st p;
  match pParentMenu pMenu with
  | Some parent =>
      st' ← (if nSelectedItem pMenu =? -1 then
               menuPositionTop st p
             else if nSelectedItem pMenu =? -2 then
               Done st
             else
               screen ← menuGetScreen pMenu (nSelectedItem pMenu);
               Done (store_menu st p
                       (set_nScreen screen
                          (set_nCurrentItem (to_uint8 (nSelectedItem pMenu)) pMenu))));
      Done (st', parent)
  | None => Done (st, p)
  end.

(** [menuTop]: [while(pTopMenu->pParentMenu)]; a read-only walk that does not
    end on a cyclic parent chain. *)
Fixpoint menuTop (fuel : nat) (st : state W) (p : N) : outcome N :=
  match fuel with
  | O => Timeout
  | S fuel' =>
      pTopMenu ← load_menu st p;
      match pParentMenu pTopMenu with
      | Some parent => menuTop fuel' st parent
      | None => Done p
      end
  end.

(** *** util_menu_driver.c: item layout *)

Section Layout.

(** The display geometry and the text measurement routines of the LCD driver
    (lcd_dogm128_6.h): lengths are in characters. *)
Variable MENU_MARGIN LCD_COLS LCD_CHAR_WIDTH : Z.
Variable lcdGetStringLength : string -> Z.
Variable lcdGetFloatLength : spec_float -> Z -> Z.
Variable lcdGetIntLength : Z -> Z.

(** What [pValue] points to.  The memory behind the value pointers holds
    typed cells; reading a cell at another type is undefined. *)
Inductive cell : Type :=
| CInt (z : Z)
| CFloat (f : spec_float)
| CString (s : string).

(** [printItem]'s local [pValue]: the item's pointer, or the address of the
    local [dummyString], a single NUL character. *)
Inductive vptr : Type :=
| DummyString
| Ext (a : N).

Inductive ctype : Type := TFloat | TInt | TString.

(** What [printItem] does to the outside: typed reads through [pValue] and
    calls of the driver's print routines, in program order. *)
Inductive lcd_event : Type :=
| Load (t : ctype) (p : vptr)
| PrintString (s : string) (x page : Z)
| PrintFloat (f : spec_float) (decimals x page : Z)
| PrintInt (v x page : Z).

Definition load_float (vmem : gmap N cell) (p : vptr) : outcome spec_float :=
  match p with
  | Ext a => match vmem !! a with Some (CFloat f) => Done f | _ => Fault end
  | DummyString => Fault
  end.

Definition load_int (vmem : gmap N cell) (p : vptr) : outcome Z :=
  match p with
  | Ext a => match vmem !! a with Some (CInt z) => Done z | _ => Fault end
  | DummyString => Fault
  end.

Definition load_string (vmem : gmap N cell) (p : vptr) : outcome string :=
  match p with
  | Ext a => match vmem !! a with Some (CString s) => Done s | _ => Fault end
  | DummyString => Done EmptyString
  end.

(** The fixed decimal count of [M_FLOAT1 .. M_FLOAT5]. *)
Definition fixed_decimals (pValueFlags : Z) : option Z :=
  if pValueFlags =? M_FLOAT1 then Some 1
  else if pValueFlags =? M_FLOAT2 then Some 2
  else if pValueFlags =? M_FLOAT3 then Some 3
  else if pValueFlags =? M_FLOAT4 then Some 4
  else if pValueFlags =? M_FLOAT5 then Some 5
  else None.

(** The first [switch(pValueFlags)]: [valSize] and, for [M_FLOATA],
    [valDecimals] (left at 0 where the C code leaves it unset), with the
    reads it makes. *)
Definition value_size (vmem : gmap N cell) (pValue : vptr) (pValueFlags : Z)
  : outcome (Z * Z * list lcd_event) :=
  match fixed_decimals pValueFlags with
  | Some d =>
      f ← load_float vmem pValue;
      Done (to_uint8 (lcdGetFloatLength f d * LCD_CHAR_WIDTH), 0,
            [Load TFloat pValue])
  | None =>
      if pValueFlags =? M_FLOATA then
        f ← load_float vmem pValue;
        d ← determineDecimals f;
        Done (to_uint8 (lcdGetFloatLength f (to_uint8 d) * LCD_CHAR_WIDTH),
              to_uint8 d, [Load TFloat pValue; Load TFloat pValue])
      else if pValueFlags =? M_STRING then
        s ← load_string vmem pValue;
        Done (to_uint8 (lcdGetStringLength s * LCD_CHAR_WIDTH), 0,
              [Load TString pValue])
      else
        i ← load_int vmem pValue;
        Done (to_uint8 (lcdGetIntLength i * LCD_CHAR_WIDTH), 0,
              [Load TInt pValue])
  end.

(** The second [switch(pValueFlags)]: the value is printed. *)
Definition print_value (vmem : gmap N cell) (pValue : vptr)
    (pValueFlags valDecimals valPos page : Z) : outcome (list lcd_event) :=
  if pValueFlags =? M_STRING then
    s ← load_string vmem pValue;
    Done [Load TString pValue; PrintString s valPos page]
  else
    match fixed_decimals pValueFlags with
    | Some d =>
        f ← load_float vmem pValue;
        Done [Load TFloat pValue; PrintFloat f d valPos page]
    | None =>
        if pValueFlags =? M_FLOATA then
          f ← load_float vmem pValue;
          Done [Load TFloat pValue; PrintFloat f valDecimals valPos page]
        else
          i ← load_int vmem pValue;
          Done [Load TInt pValue; PrintInt i valPos page]
    end.

(** The sizes and positions [printItem] computes before it draws. *)
Record layout : Type := Layout {
  l_pValueFlags : Z;
  l_nrSize : Z;
  l_descSize : Z;
  l_selSize : Z;
  l_valSize : Z;
  l_totalSize : Z;
  l_nrPos : Z;
  l_selPos : Z;
  l_descPos : Z;
  l_valPos : Z
}.

(** The part of [printItem] between the first [switch] and the print calls:
    margins, total size and the positions of the four fields. *)
Definition item_layout (pMenu : menu_t) (pItem : menuItem_t)
    (pTextNumber pTextDescription : string)
    (pValueFlags nrSize valSize : Z) : layout :=
  let alignFlags := Z.land (flags pItem) (Z.lor M_ALIGN_0 M_ALIGN_1) in
  let nrSize :=
    if nrSize =? 0
    then to_uint8 (lcdGetStringLength pTextNumber * LCD_CHAR_WIDTH)
    else nrSize in
  let descSize := to_uint8 (lcdGetStringLength pTextDescription * LCD_CHAR_WIDTH) in
  let selSize :=
    to_uint8 ((if nSelectedItem pMenu =? -1 then 0 else 1) * LCD_CHAR_WIDTH) in
  let numOfMargins :=
    -1 + (if nrSize =? 0 then 0 else 1) + (if descSize =? 0 then 0 else 1)
       + (if valSize =? 0 then 0 else 1) in
  let totalSize :=
    to_int16 (nrSize + descSize + valSize + numOfMargins * LCD_CHAR_WIDTH) in
  let nrPos :=
    if alignFlags =? M_RIGHT then to_int16 (LCD_COLS - MENU_MARGIN - totalSize)
    else if alignFlags =? M_CENTER
    then to_int16 (Z.quot (LCD_COLS - MENU_MARGIN - totalSize) 2)
    else to_int16 MENU_MARGIN in
  let selPos := to_int16 (nrPos + nrSize) in
  let gap (size : Z) := if size =? 0 then 0 else LCD_CHAR_WIDTH in
  let lead := if (nrSize =? 0) && (selSize =? 0) then 0 else LCD_CHAR_WIDTH in
  let swap := negb (Z.land (flags pItem) M_SWAP =? 0) in
  let after_nr := to_int16 (to_int16 (nrPos + nrSize) + lead) in
  let descPos :=
    if swap then
      if alignFlags =? M_SPLIT
      then to_int16 (LCD_COLS - MENU_MARGIN - descSize)
      else to_int16 (to_int16 (after_nr + valSize) + gap valSize)
    else after_nr in
  let valPos :=
    if swap then after_nr
    else if alignFlags =? M_SPLIT
    then to_int16 (LCD_COLS - MENU_MARGIN - valSize)
    else to_int16 (to_int16 (after_nr + descSize) + gap descSize) in
  Layout pValueFlags nrSize descSize selSize valSize totalSize nrPos selPos
         descPos valPos.

Definition printItem (st : state W) (vmem : gmap N cell) (p : N)
    (nItem page nrSize : Z) : outcome (layout * list lcd_event) :=
  pMenu ← load_menu st p;
  pItem ← read_item st pMenu nItem;
  let selected := nItem =? nSelectedItem pMenu in
  let pTextNumber := default EmptyString (pTextNumber pItem) in
  let pTextDescription := default EmptyString (pTextDescription pItem) in
  let pValue := match pValue pItem with Some a => Ext a | None => DummyString end in
  let pValueFlags :=
    match pValue with
    | DummyString => M_STRING
    | Ext _ => Z.land (flags pItem) (Z.lor (Z.lor M_PVALUE_0 M_PVALUE_1) M_PVALUE_2)
    end in
  '(valSize, valDecimals, reads) ← value_size vmem pValue pValueFlags;
  let lay :=
    item_layout pMenu pItem pTextNumber pTextDescription pValueFlags nrSize
                valSize in
  drawn ← print_value vmem pValue pValueFlags valDecimals (l_valPos lay) page;
  Done (lay,
        reads
        ++ [PrintString pTextNumber (l_nrPos lay) page;
            PrintString pTextDescription (l_descPos lay) page]
        ++ (if selected then [PrintString "~" (l_selPos lay) page] else [])
        ++ drawn).

End Layout.

(** *** util_menu_driver.c: pages, header and screen buffer

    The display is written through the LCD driver, which is not part of the
    sources at hand: a call of one of its buffer routines is an event (the
    buffer argument, always the default buffer 0, is left out), and its
    arguments are recorded as the C expressions give them, in [int]
    arithmetic.  [int] has 32 bits (the CC2538 is a 32-bit ARM core): a
    shift [1<<n] is defined for [n] from 0 to 30.  [eLcdPage0], the page
    the header is written to, is page 0. *)

Inductive draw_event : Type :=
| LcdClearPage (page : Z)
| LcdClearHLine (xFrom xTo y : Z)
| LcdSetHLine (xFrom xTo y : Z)
| LcdInvertPage (xFrom xTo page : Z)
| LcdInvert (x0 y0 x1 y1 : Z)
| LcdPrintString (s : option string) (x page : Z)
| LcdPrintStringCentered (s : string) (page : Z)
| PrintItemCall (nItem page : Z) (drawn : list lcd_event).

(** [reservedAreas & (1<<bit)] as a condition. *)
Definition reserved_bit (reservedAreas bit : Z) : outcome bool :=
  if (0 <=? bit) && (bit <? 31) then Done (reserved reservedAreas bit) else Fault.

(** [getNextPage]: the [do ... while] loop on the uint8 [page]. *)
Fixpoint getNextPage_loop (fuel : nat) (reservedAreas page : Z) : outcome Z :=
  match fuel with
  | O => Timeout
  | S fuel' =>
      let page := to_uint8 (page + 1) in
      if page >? MENU_ITEMS_PER_SCREEN then Done 0
      else
        again ← reserved_bit reservedAreas page;
        if again : bool then getNextPage_loop fuel' reservedAreas page
        else Done page
  end.

Definition getNextPage (pMenu : menu_t) (page : Z) : outcome Z :=
  getNextPage_loop 256 (to_uint8 (reservedAreas pMenu)) (to_uint8 page).

Section Drawing.

Variable MENU_MARGIN LCD_COLS LCD_CHAR_WIDTH LCD_FONT_WIDTH LCD_PAGE_ROWS : Z.

(** The text measurement routines of the LCD driver.  [lcdGetStringLength]
    gets a [char*], which the header code may hand over null. *)
Variable lcdGetStringLength : option string -> Z.
Variable lcdGetFloatLength : spec_float -> Z -> Z.
Variable lcdGetIntLength : Z -> Z.

(** [menuClearReservedArea]: the body of the loop for one [bit], and the loop
    [for(bit=1;bit<=7;bit++)]. *)
Definition clear_reserved_page (reservedAreas bit : Z) : list draw_event :=
  if reserved reservedAreas bit then
    if reserved reservedAreas (bit + 1) || (bit >? 7)
    then [LcdClearPage bit]
    else [LcdClearHLine 0 (LCD_COLS - 1) (bit * 8 + 0);
          LcdClearHLine 0 (LCD_COLS - 1) (bit * 8 + 1);
          LcdClearHLine 0 (LCD_COLS - 1) (bit * 8 + 2);
          LcdClearHLine 0 (LCD_COLS - 1) (bit * 8 + 3);
          LcdClearHLine 0 (LCD_COLS - 1) (bit * 8 + 4);
          LcdClearHLine 0 (LCD_COLS - 1) (bit * 8 + 5);
          LcdClearHLine 0 (LCD_COLS - 1) (bit * 8 + 6)]
  else [].

Definition menuClearReservedArea (pMenu : menu_t) : list draw_event :=
  let reservedAreas := to_uint8 (reservedAreas pMenu) in
  concat (map (clear_reserved_page reservedAreas) [1; 2; 3; 4; 5; 6; 7]).

(** [printNavNumbers]: returns the pixels occupied at the right end of the
    header line. *)
Definition printNavNumbers (st : state W) (pMenu : menu_t)
  : outcome (Z * list draw_event) :=
  match pTextMenuItems pMenu with
  | Some totalNr =>
      let nCurrentItem := to_uint8 (nCurrentItem pMenu) in
      it ← read_item st pMenu nCurrentItem;
      let currentNr := pTextNumber it in
      let margin := to_uint8 (MENU_MARGIN - (LCD_CHAR_WIDTH - LCD_FONT_WIDTH)) in
      let totalNrLen := to_uint8 (lcdGetStringLength (Some totalNr)) in
      let currentNrLen := to_uint8 (lcdGetStringLength currentNr) in
      let totalNrPos := to_uint8 (LCD_COLS - margin - totalNrLen * LCD_CHAR_WIDTH) in
      let slashPos := to_uint8 (totalNrPos - LCD_CHAR_WIDTH) in
      let currentNrPos := to_uint8 (slashPos - currentNrLen * LCD_CHAR_WIDTH) in
      Done (to_uint8 (margin + 2 * totalNrLen * LCD_CHAR_WIDTH + LCD_CHAR_WIDTH + 1),
            [LcdPrintString (Some totalNr) totalNrPos 0;
             LcdPrintString (Some "/"%string) slashPos 0;
             LcdPrintString currentNr currentNrPos 0])
  | None => Done (0, [])
  end.

(** The title [printHeader] prefers: the menu's own header text, else for a
    submenu the description of the current item of the top menu, else
    "Main Menu". *)
Definition preferred_title (fuel : nat) (st : state W) (p : N) (pMenu : menu_t)
  : outcome (option string) :=
  match pTextHeader pMenu with
  | Some s => Done (Some s)
  | None =>
      match pParentMenu pMenu with
      | Some _ =>
          top ← menuTop fuel st p;
          pTopMenu ← load_menu st top;
          let nCurrentItem := to_int8 (nCurrentItem pTopMenu) in
          it ← read_item st pTopMenu nCurrentItem;
          Done (pTextDescription it)
      | None => Done (Some "Main Menu"%string)
      end
  end.

(** The copy into the local [char title[22]]:
    [for(i=0;i<width;i++) title[i]=prefTitle[i]; title[width]='\0';].  A
    string holds the characters before its terminating NUL; reading it is
    defined up to that NUL. *)
Definition copy_title (prefTitle : option string) (width : Z) : outcome string :=
  if 22 <=? width then Fault
  else if width =? 0 then Done EmptyString
  else
    match prefTitle with
    | None => Fault
    | Some s =>
        if width <=? Z.of_nat (String.length s) + 1
        then Done (substring 0 (Z.to_nat width) s)
        else Fault
    end.

Definition printHeader (fuel : nat) (st : state W) (p : N)
  : outcome (list draw_event) :=
  pMenu ← load_menu st p;
  '(occupied, nav) ← printNavNumbers st pMenu;
  prefTitle ← preferred_title fuel st p pMenu;
  if LCD_CHAR_WIDTH =? 0 then Fault
  else
    let maxWidth := to_uint8 (Z.quot (LCD_COLS - occupied) LCD_CHAR_WIDTH - 1) in
    let skewThreshold :=
      to_uint8 (Z.quot (LCD_COLS - 2 * occupied) LCD_CHAR_WIDTH - 2) in
    let prefTitleLen := to_uint8 (lcdGetStringLength prefTitle) in
    let width := if prefTitleLen <? maxWidth then prefTitleLen else maxWidth in
    title ← copy_title prefTitle width;
    let written :=
      if width <=? skewThreshold then [LcdPrintStringCentered title 0]
      else
        let pos :=
          to_int8 (LCD_COLS - occupied - LCD_CHAR_WIDTH - width * LCD_CHAR_WIDTH) in
        [LcdPrintString (Some title) pos 0] in
    Done (nav ++ written ++ [LcdSetHLine 0 (LCD_COLS - 1) 7]).

(** The walk back from a dummy item to its master:
    [while(pMenu->pItems[masterNumber].flags & M_EXTEND) masterNumber--;]. *)
Fixpoint extend_master (fuel : nat) (st : state W) (pMenu : menu_t)
    (masterNumber : Z) : outcome Z :=
  match fuel with
  | O => Timeout
  | S fuel' =>
      it ← read_item st pMenu masterNumber;
      if negb (Z.land (flags it) M_EXTEND =? 0)
      then extend_master fuel' st pMenu (to_int8 (masterNumber - 1))
      else Done masterNumber
  end.

(** One round of the first loop of [menuWriteBuffer], up to the step to the
    next page.  [pItem] is [&pMenu->pItems[nItem]] throughout, so the test
    [pItem==&(pMenu->pItems[nCurrentItem])] compares the two indices. *)
Definition write_item (st : state W) (vmem : gmap N cell) (p : N)
    (pMenu : menu_t) (nCurrentItem nItem page : Z) : outcome (list draw_event) :=
  '(_, drawn) ← printItem MENU_MARGIN LCD_COLS LCD_CHAR_WIDTH
                   (fun s => lcdGetStringLength (Some s))
                   lcdGetFloatLength lcdGetIntLength st vmem p nItem page 0;
  mark ← (if nItem =? nCurrentItem then
            Done [LcdSetHLine 0 (LCD_COLS - 1) (page * LCD_PAGE_ROWS - 1);
                  LcdInvertPage 0 (LCD_COLS - 1) page]
          else
            above ← reserved_bit (to_uint8 (reservedAreas pMenu)) (page - 1);
            Done (if above : bool
                  then [LcdClearHLine 0 (LCD_COLS - 1) (page * LCD_PAGE_ROWS - 1)]
                  else []));
  pItem ← read_item st pMenu nItem;
  extend ← (if negb (Z.land (flags pItem) M_EXTEND =? 0) then
              masterNumber ← extend_master 256 st pMenu (to_int8 (nItem - 1));
              Done (if masterNumber =? nCurrentItem
                    then [LcdInvert 0 (page * LCD_PAGE_ROWS) (LCD_COLS - 1)
                                    ((page + 1) * LCD_PAGE_ROWS - 1)]
                    else [])
            else Done []);
  Done ([LcdClearPage page; PrintItemCall nItem page drawn] ++ mark ++ extend).

(** The first loop, [while(nItem<pMenu->nMenuItems && page)]: returns the
    page it stops at. *)
Fixpoint menuWriteBuffer_items (fuel : nat) (st : state W) (vmem : gmap N cell)
    (p : N) (pMenu : menu_t) (nCurrentItem nItem page : Z)
  : outcome (list draw_event * Z) :=
  if (nItem <? nMenuItems pMenu) && negb (page =? 0) then
    match fuel with
    | O => Timeout
    | S fuel' =>
        row ← write_item st vmem p pMenu nCurrentItem nItem page;
        page' ← getNextPage pMenu page;
        '(rows, last) ← menuWriteBuffer_items fuel' st vmem p pMenu nCurrentItem
                           (to_uint8 (nItem + 1)) page';
        Done (row ++ rows, last)
    end
  else Done ([], page).

(** The second loop, [while(page)]: the pages left over are cleared. *)
Fixpoint menuWriteBuffer_unused (fuel : nat) (pMenu : menu_t) (page : Z)
  : outcome (list draw_event) :=
  if page =? 0 then Done []
  else
    match fuel with
    | O => Timeout
    | S fuel' =>
        above ← reserved_bit (to_uint8 (reservedAreas pMenu)) (page - 1);
        page' ← getNextPage pMenu page;
        rest ← menuWriteBuffer_unused fuel' pMenu page';
        Done (LcdClearPage page
              :: (if above : bool
                  then [LcdClearHLine 0 (LCD_COLS - 1) (page * LCD_PAGE_ROWS - 1)]
                  else [])
              ++ rest)
    end.

(** [menuWriteBuffer].  [fuel] bounds the parent links [menuTop] may follow
    for the header. *)
Definition menuWriteBuffer (fuel : nat) (st : state W) (vmem : gmap N cell) (p : N)
  : outcome (list draw_event) :=
  pMenu ← load_menu st p;
  header ← (if Z.land (to_uint8 (reservedAreas pMenu)) 1 =? 0 then
              drawn ← printHeader fuel st p;
              Done (LcdClearPage 0 :: drawn)
            else Done []);
  let nCurrentItem := to_int8 (nCurrentItem pMenu) in
  let screen := to_int8 (nScreen pMenu) in
  let itemsPerScreen := determineItemsPerScreen pMenu in
  let nItem := to_uint8 (screen * itemsPerScreen) in
  page ← getNextPage pMenu 0;
  '(rows, page) ← menuWriteBuffer_items 256 st vmem p pMenu nCurrentItem nItem page;
  unused ← menuWriteBuffer_unused 256 pMenu page;
  Done (header ++ rows ++ unused).

End Drawing.

(** ** Notions used in the statements *)

(** Item [j] of the array exists and its disabled flag is clear. *)
Definition enabled (arr : list menuItem_t) (j : Z) : bool :=
  (0 <=? j) &&
  match arr !! Z.to_nat j with
  | Some it => negb (disabled it)
  | None => false
  end.

Definition indices (arr : list menuItem_t) : list Z :=
  seqZ 0 (Z.of_nat (length arr)).

Definition no_enabled (arr : list menuItem_t) : bool :=
  forallb (fun j => negb (enabled arr j)) (indices arr).

(** The screen shown is the screen of the current item, or it lies past it
    with no enabled item from the current item up to and including the screen
    shown (on either side). *)
Definition screen_ok (ips : Z) (arr : list menuItem_t) (c s : Z) : bool :=
  (s =? c / ips)
  || ((c / ips <? s)
      && forallb (fun j => implb (enabled arr j && (c <? j)) (s <? j / ips))
                 (indices arr))
  || ((s <? c / ips)
      && forallb (fun j => implb (enabled arr j && (j <? c)) (j / ips <? s))
                 (indices arr)).

(** The array holds exactly [nMenuItems] items, at most 128; the current item
    is one of them; the screen shown is at most the screen of the last item;
    at least one row is left for items. *)
Definition geometry_ok (pMenu : menu_t) (arr : list menuItem_t) : bool :=
  let ips := determineItemsPerScreen pMenu in
  (0 <? ips)
  && (Z.of_nat (length arr) =? nMenuItems pMenu)
  && (nMenuItems pMenu <=? 128)
  && (0 <=? nCurrentItem pMenu) && (nCurrentItem pMenu <? nMenuItems pMenu)
  && (0 <=? nScreen pMenu)
  && (nScreen pMenu <=? (nMenuItems pMenu - 1) / ips).

Definition cursor_ok (pMenu : menu_t) (arr : list menuItem_t) : bool :=
  no_enabled arr
  || (enabled arr (nCurrentItem pMenu)
      && screen_ok (determineItemsPerScreen pMenu) arr
                   (nCurrentItem pMenu) (nScreen pMenu)).

(** The cursor in its plain form: the current item is enabled and the screen
    shown is its screen. *)
Definition cursor_home (pMenu : menu_t) (arr : list menuItem_t) : bool :=
  enabled arr (nCurrentItem pMenu)
  && (nScreen pMenu =? nCurrentItem pMenu / determineItemsPerScreen pMenu).

Definition selected_ok (pMenu : menu_t) (arr : list menuItem_t) : bool :=
  (-2 <=? nSelectedItem pMenu) && (nSelectedItem pMenu <? nMenuItems pMenu)
  && (no_enabled arr || (nSelectedItem pMenu <? 0)
      || enabled arr (nSelectedItem pMenu)).

Definition links_ok (mns : gmap N menu_t) (arr : list menuItem_t) : bool :=
  forallb
    (fun it =>
       match pSubMenu it with
       | Some q => match mns !! q with Some _ => true | None => false end
       | None => true
       end)
    arr.

Definition with_menu {A : Type} (st : state W) (p : N) (d : A)
    (f : menu_t -> list menuItem_t -> A) : A :=
  match menus st !! p with
  | Some m =>
      match pItems m with
      | Some a =>
          match itemArrays st !! a with
          | Some arr => f m arr
          | None => d
          end
      | None => d
      end
  | None => d
  end.

(** The invariant of the navigation state of menu [p]. *)
Definition menu_inv (st : state W) (p : N) : bool :=
  with_menu st p false
    (fun m arr =>
       geometry_ok m arr && cursor_ok m arr && selected_ok m arr
       && links_ok (menus st) arr).

(** The invariant as the data model words it: the current item is enabled or
    no item is, and the screen shown is the screen of the current item. *)
Definition stated_inv (st : state W) (p : N) : bool :=
  with_menu st p false
    (fun m arr =>
       (enabled arr (nCurrentItem m) || no_enabled arr)
       && (nScreen m =? nCurrentItem m / determineItemsPerScreen m)).

(** The cursor of menu [p]. *)
Definition cursor (st : state W) (p : N) : option (Z * Z) :=
  (fun m => (nCurrentItem m, nScreen m)) <$> menus st !! p.

(** The number of reserved rows other than the header row. *)
Definition reserved_rows (reservedAreas : Z) : Z :=
  fold_right (fun bit acc => Z.b2z (Z.testbit reservedAreas bit) + acc) 0
             [1; 2; 3; 4; 5; 6; 7].

(** The navigation operations, to quantify over them.  [menuTop] gets the
    number of parent links it may follow. *)
Inductive nav_op : Type :=
| OpUp | OpDown | OpPositionTop | OpEnter | OpBack | OpTop (fuel : nat).

(** Runs an operation on menu [p]; the second component is what the C function
    returns ([p] itself for [menuPositionTop], which returns nothing). *)
Definition run (op : nav_op) (st : state W) (p : N) : outcome (state W * N) :=
  match op with
  | OpUp => '(st', _) ← menuUp st p; Done (st', p)
  | OpDown => '(st', _) ← menuDown st p; Done (st', p)
  | OpPositionTop => st' ← menuPositionTop st p; Done (st', p)
  | OpEnter => menuEnter st p
  | OpBack => menuBack st p
  | OpTop fuel => top ← menuTop fuel st p; Done (st, top)
  end.

(** Fields of a menu node no navigation operation is expected to touch. *)
Definition same_content (m m' : menu_t) : Prop :=
  pItems m' = pItems m /\ pMenuGraphics m' = pMenuGraphics m
  /\ pTextHeader m' = pTextHeader m /\ pTextMenuItems m' = pTextMenuItems m
  /\ nMenuItems m' = nMenuItems m /\ reservedAreas m' = reservedAreas m.

Definition same_cursor (m m' : menu_t) : Prop :=
  nCurrentItem m' = nCurrentItem m /\ nScreen m' = nScreen m
  /\ nSelectedItem m' = nSelectedItem m.

(** ** Notions used in the proofs *)

Definition none_between (arr : list menuItem_t) (lo hi : Z) : Prop :=
  forall j, lo < j < hi -> enabled arr j = false.

Definition up_result (st : state W) (p : N) (m : menu_t) (b : Z) (found : bool)
  : state W * Z :=
  let ips := determineItemsPerScreen m in
  let c := nCurrentItem m in
  let s := nScreen m in
  if found && (b / ips =? s) && (c / ips =? s)
  then (store_menu st p (set_nCurrentItem b m), 1)
  else if found && (b / ips =? s - 1) && (c / ips >=? s)
  then (store_menu st p (set_nScreen (s - 1) (set_nCurrentItem b m)), 1)
  else if s >? 0
  then (store_menu st p (set_nScreen (s - 1) m), 1)
  else (st, 0).

Definition down_result (st : state W) (p : N) (m : menu_t) (b : Z) (found : bool)
  : state W * Z :=
  let ips := determineItemsPerScreen m in
  let c := nCurrentItem m in
  let s := nScreen m in
  if found && (b / ips =? s) && (c / ips =? s)
  then (store_menu st p (set_nCurrentItem b m), 1)
  else if found && (b / ips =? s + 1) && (c / ips <=? s)
  then (store_menu st p (set_nScreen (s + 1) (set_nCurrentItem b m)), 1)
  else if s <? (nMenuItems m - 1) / ips
  then (store_menu st p (set_nScreen (s + 1) m), 1)
  else (st, 0).

(** [st'] differs from [st] at most in the current item and the screen of
    menu [p]. *)
Definition moves_cursor_only (st st' : state W) (p : N) : Prop :=
  itemArrays st' = itemArrays st /\ world st' = world st /\ calls st' = calls st
  /\ exists m c s,
       menus st !! p = Some m
       /\ menus st' = <[p := set_nScreen s (set_nCurrentItem c m)]> (menus st).

(** Node by node, what [menuEnter] may change: the selected item of [p] and
    the parent link of the menu it returns. *)
Definition enter_node (p r q : N) (m m' : menu_t) : Prop :=
  same_content m m'
  /\ nCurrentItem m' = nCurrentItem m /\ nScreen m' = nScreen m
  /\ (q <> p -> nSelectedItem m' = nSelectedItem m)
  /\ (pParentMenu m' = pParentMenu m \/ (q = r /\ pParentMenu m' = Some p)).

(** A relation between the menu stores before and after, node by node; no
    node appears or disappears. *)
Definition nodewise (P : N -> menu_t -> menu_t -> Prop)
    (mns mns' : gmap N menu_t) : Prop :=
  (forall q, mns !! q = None -> mns' !! q = None)
  /\ (forall q m, mns !! q = Some m ->
        exists m', mns' !! q = Some m' /\ P q m m').

(** The new [(nCurrentItem, nScreen)] and the value returned, from the result
    [(b, found)] of the scan. *)
Definition up_cursor (ips c s b : Z) (found : bool) : Z * Z * Z :=
  if found && (b / ips =? s) && (c / ips =? s) then (b, s, 1)
  else if found && (b / ips =? s - 1) && (c / ips >=? s) then (b, s - 1, 1)
  else if s >? 0 then (c, s - 1, 1)
  else (c, s, 0).

Definition down_cursor (ips n c s b : Z) (found : bool) : Z * Z * Z :=
  if found && (b / ips =? s) && (c / ips =? s) then (b, s, 1)
  else if found && (b / ips =? s + 1) && (c / ips <=? s) then (b, s + 1, 1)
  else if s <? (n - 1) / ips then (c, s + 1, 1)
  else (c, s, 0).

Definition moved (st : state W) (p : N) (m : menu_t) (x : Z * Z * Z)
  : state W * Z :=
  let '(c, s, r) := x in
  (if r =? 0 then st
   else store_menu st p (set_nScreen s (set_nCurrentItem c m)), r).

Definition scan_up (arr : list menuItem_t) (c b : Z) (found : bool) : Prop :=
  -1 <= b < c /\ none_between arr b c
  /\ (if found then enabled arr b = true else b = -1).

Definition scan_down (arr : list menuItem_t) (n c b : Z) (found : bool) : Prop :=
  c < b <= n /\ none_between arr c b
  /\ (if found then enabled arr b = true else b = n).

Definition screen_okP (ips : Z) (arr : list menuItem_t) (c s : Z) : Prop :=
  s = c / ips
  \/ (c / ips < s /\ forall j, enabled arr j = true -> c < j -> s < j / ips)
  \/ (s < c / ips /\ forall j, enabled arr j = true -> j < c -> j / ips < s).

(** The cursor [(c, s)] is a legal one for the array. *)
Definition placed (ips : Z) (arr : list menuItem_t) (n c s : Z) : Prop :=
  0 <= c < n /\ 0 <= s <= (n - 1) / ips
  /\ ((forall j, enabled arr j = false)
      \/ (enabled arr c = true /\ screen_okP ips arr c s)).

Definition is_move (op : nav_op) : bool :=
  match op with
  | OpUp | OpDown | OpEnter | OpBack => true
  | OpPositionTop | OpTop _ => false
  end.

(** Node by node, what an operation on [p] that returned [r] may change: the
    cursor fields of [p], and for [menuEnter] the parent link of the menu it
    returns. *)
Definition frame_node (op : nav_op) (p r q : N) (m m' : menu_t) : Prop :=
  same_content m m'
  /\ (q <> p -> same_cursor m m')
  /\ (pParentMenu m' = pParentMenu m
      \/ (op = OpEnter /\ q = r /\ pParentMenu m' = Some p)).

(** ** Sample menus

    Concrete stores on which the statements below are run: one menu at
    address 1 over an item array at address 10, with no reserved row, and an
    application whose callbacks do nothing and return 0. *)

Definition mkItem (f : Z) (sub : option N) : menuItem_t :=
  MenuItem f None None None sub None None None.

Definition item_on : menuItem_t := mkItem 0 None.
Definition item_off : menuItem_t := mkItem M_DISABLED None.

Definition mkMenu (items : N) (parent : option N) (n c sel s : Z) : menu_t :=
  Menu (Some items) parent None None None n c sel s 0.

Definition mkState (m : menu_t) (arr : list menuItem_t) : state unit :=
  State {[ 1%N := m ]} {[ 10%N := arr ]} tt [].

Definition noapp (f : N) (args : option N) (mns : gmap N menu_t)
    (its : gmap N (list menuItem_t)) (w : unit) : unit * Z := (w, 0).

(** Fifteen enabled items, the cursor on item 7, the first item of screen 1. *)
Definition arr_full : list menuItem_t := repeat item_on 15.
Definition menu_home : menu_t := mkMenu 10 None 15 7 (-1) 1.
Definition ex_home : state unit := mkState menu_home arr_full.
Definition ex_home_down : state unit :=
  mkState (mkMenu 10 None 15 8 (-1) 1) arr_full.
Definition ex_home_up : state unit :=
  mkState (mkMenu 10 None 15 6 (-1) 0) arr_full.
Definition ex_home_top : state unit :=
  mkState (mkMenu 10 None 15 0 (-1) 0) arr_full.

(** Items 0 and 14 enabled, items 1 to 13 disabled: screen 1 shows no enabled
    item. *)
Definition arr_skip : list menuItem_t :=
  item_on :: repeat item_off 13 ++ [item_on].
Definition menu_skip : menu_t := mkMenu 10 None 15 0 (-1) 0.
Definition menu_gap : menu_t := mkMenu 10 None 15 0 (-1) 1.
Definition ex_skip : state unit := mkState menu_skip arr_skip.
Definition ex_gap : state unit := mkState menu_gap arr_skip.
Definition ex_far : state unit := mkState (mkMenu 10 None 15 14 (-1) 2) arr_skip.
Definition ex_far_up : state unit :=
  mkState (mkMenu 10 None 15 14 (-1) 1) arr_skip.

(** A disabled item followed by an enabled one, the cursor on the disabled
    one. *)
Definition arr_low : list menuItem_t := [item_off; item_on].
Definition menu_low : menu_t := mkMenu 10 None 2 0 (-1) 0.
Definition ex_low : state unit := mkState menu_low arr_low.

(** An option menu: three enabled items, item 0 selected, the cursor on
    item 1; and the same menu with the selection frozen. *)
Definition arr_option : list menuItem_t := [item_on; item_on; item_on].
Definition menu_option : menu_t := mkMenu 10 None 3 1 0 0.
Definition menu_frozen : menu_t := mkMenu 10 None 3 1 (-2) 0.
Definition ex_option : state unit := mkState menu_option arr_option.
Definition ex_option_entered : state unit :=
  mkState (mkMenu 10 None 3 1 1 0) arr_option.
Definition ex_frozen : state unit := mkState menu_frozen arr_option.

(** A root menu at address 1 whose only item leads to the menu at address 2,
    before and after the submenu has been entered. *)
Definition menu_root : menu_t := mkMenu 10 None 1 0 (-1) 0.
Definition menu_leaf : menu_t := mkMenu 20 None 1 0 (-1) 0.
Definition menu_leaf_linked : menu_t := mkMenu 20 (Some 1%N) 1 0 (-1) 0.
Definition ex_tree : state unit :=
  State {[ 1%N := menu_root; 2%N := menu_leaf ]}
        {[ 10%N := [mkItem 0 (Some 2%N)]; 20%N := [item_on] ]} tt [].
Definition ex_tree_entered : state unit :=
  State {[ 1%N := menu_root; 2%N := menu_leaf_linked ]}
        {[ 10%N := [mkItem 0 (Some 2%N)]; 20%N := [item_on] ]} tt [].

(** The full menu as a submenu of the menu at address 2, with the cursor on
    item 7 of screen 1. *)
Definition menu_home_child : menu_t := mkMenu 10 (Some 2%N) 15 7 (-1) 1.
Definition ex_child : state unit :=
  State {[ 1%N := menu_home_child; 2%N := menu_leaf ]}
        {[ 10%N := arr_full; 20%N := [item_on] ]} tt [].

(** Two submenus of the menu at address 2 whose cursor is not a legal one:
    the current item is disabled and below the only enabled one; the current
    item is on screen 2 while screen 0 is shown. *)
Definition menu_low_child : menu_t := mkMenu 10 (Some 2%N) 2 0 (-1) 0.
Definition ex_low_child : state unit :=
  State {[ 1%N := menu_low_child; 2%N := menu_leaf ]}
        {[ 10%N := arr_low; 20%N := [item_on] ]} tt [].
Definition menu_stray_child : menu_t := mkMenu 10 (Some 2%N) 15 14 (-1) 0.
Definition ex_stray_child : state unit :=
  State {[ 1%N := menu_stray_child; 2%N := menu_leaf ]}
        {[ 10%N := arr_full; 20%N := [item_on] ]} tt [].

(** A menu with rows 1, 2 and 4 reserved. *)
Definition menu_reserved : menu_t :=
  Menu (Some 10%N) None None None None 3 0 (-1) 0 22.

(** A driver that measures a string by its length and every number as one
    character. *)
Definition string_chars (s : string) : Z := Z.of_nat (String.length s).
Definition float_chars (f : spec_float) (decimals : Z) : Z := 1.
Definition int_chars (v : Z) : Z := 1.

(** ** Notions used in further statements *)

(** The menu [n] parent links above [p], if the chain is that long. *)
Fixpoint climb (st : state W) (n : nat) (p : N) : option N :=
  match n with
  | O => Some p
  | S n' =>
      match menus st !! p with
      | Some m =>
          match pParentMenu m with
          | Some q => climb st n' q
          | None => None
          end
      | None => None
      end
  end.

(** [r] is a menu without parent. *)
Definition is_root (st : state W) (r : N) : bool :=
  match menus st !! r with
  | Some m => match pParentMenu m with None => true | Some _ => false end
  | None => false
  end.


(** Page [j] is reserved by the menu. *)
Definition page_reserved (pMenu : menu_t) (j : Z) : bool :=
  reserved (to_uint8 (reservedAreas pMenu)) j.

(** The pages after [page] that the menu may write items on, in ascending
    order: those up to [MENU_ITEMS_PER_SCREEN] that are not reserved. *)
Definition pages_after (pMenu : menu_t) (page : Z) : list Z :=
  List.filter (fun j => negb (page_reserved pMenu j))
              (seqZ (page + 1) (MENU_ITEMS_PER_SCREEN - page)).

(** [getNextPage] iterated from [page] until it returns 0. *)
Fixpoint page_walk (fuel : nat) (pMenu : menu_t) (page : Z) : outcome (list Z) :=
  match fuel with
  | O => Timeout
  | S fuel' =>
      q ← getNextPage pMenu page;
      if q =? 0 then Done []
      else rest ← page_walk fuel' pMenu q; Done (q :: rest)
  end.

(** The pixel rows an event clears: a page is the eight rows from
    [8 * page] on. *)
Definition clears_row (y : Z) (e : draw_event) : bool :=
  match e with
  | LcdClearPage page => (8 * page <=? y) && (y <? 8 * page + 8)
  | LcdClearHLine _ _ y' => y' =? y
  | _ => false
  end.

(** What a list of events says about pages: the calls of [printItem] with
    item and page, the pages cleared with [lcdBufferClearPage], the pages
    given the selection mark with [lcdBufferInvertPage], and the blocks
    inverted with [lcdBufferInvert], each with its two corners. *)
Definition item_calls (evs : list draw_event) : list (Z * Z) :=
  omap (fun e => match e with PrintItemCall i pg _ => Some (i, pg) | _ => None end)
       evs.

Definition cleared_pages (evs : list draw_event) : list Z :=
  omap (fun e => match e with LcdClearPage pg => Some pg | _ => None end) evs.

Definition marked_pages (evs : list draw_event) : list Z :=
  omap (fun e => match e with LcdInvertPage _ _ pg => Some pg | _ => None end) evs.

Definition inverted_blocks (evs : list draw_event) : list (Z * Z * Z * Z) :=
  omap (fun e => match e with
                 | LcdInvert x0 y0 x1 y1 => Some (x0, y0, x1, y1)
                 | _ => None
                 end) evs.

(** The block [lcdBufferInvert] is called with for a page of [rows] pixel
    rows on a display of [cols] columns. *)
Definition page_block (cols rows page : Z) : Z * Z * Z * Z :=
  (0, page * rows, cols - 1, (page + 1) * rows - 1).

(** Item [i] of the menu is there and carries the flag [M_EXTEND]. *)
Definition extends (st : state W) (pMenu : menu_t) (i : Z) : bool :=
  match read_item st pMenu i with
  | Done it => negb (Z.land (flags it) M_EXTEND =? 0)
  | _ => false
  end.

(** Row [i] is a dummy row of item [c]: [c] is an index below [i] whose item
    does not carry [M_EXTEND], and every item from [c + 1] to [i] does. *)
Definition dummy_of (st : state W) (pMenu : menu_t) (c i : Z) : bool :=
  (0 <=? c) && (c <? i) && negb (extends st pMenu c)
  && forallb (extends st pMenu) (seqZ (c + 1) (i - c)).

(** [q] is what [getNextPage] is to return after [page], for the reserved
    pages [r]: the next page that is not reserved, or 0. *)
Definition next_free (r page q : Z) : Prop :=
  (q = 0 /\ forall j, page < j <= MENU_ITEMS_PER_SCREEN -> reserved r j = true)
  \/ (page < q <= MENU_ITEMS_PER_SCREEN /\ reserved r q = false
      /\ forall j, page < j < q -> reserved r j = true).

(** The rows a screen shows: the items from [nItem] on, one on each of
    [pages], as long as there are items among the [n] of the menu. *)
Fixpoint rows_shown (n nItem : Z) (pages : list Z) : list (Z * Z) :=
  match pages with
  | [] => []
  | pg :: rest =>
      if nItem <? n then (nItem, pg) :: rows_shown n (nItem + 1) rest else []
  end.

(** The pages from [page] on, [page] included unless it is 0, the value
    [getNextPage] returns for no page. *)
Definition pages_from (pMenu : menu_t) (page : Z) : list Z :=
  if page =? 0 then [] else page :: pages_after pMenu page.

(** The header is written: row 0 is not reserved. *)
Definition header_shown (pMenu : menu_t) : bool :=
  Z.land (to_uint8 (reservedAreas pMenu)) 1 =? 0.

(** The code has returned. *)
Definition is_done {A : Type} (x : outcome A) : bool :=
  match x with Done _ => true | _ => false end.

(** The value cell of an item has the type its flags say: a float for
    [M_FLOAT1] to [M_FLOAT5] and [M_FLOATA], a string for [M_STRING], an
    integer otherwise; an item without value pointer needs no cell. *)
Definition cell_typed (vmem : gmap N cell) (it : menuItem_t) : bool :=
  match pValue it with
  | None => true
  | Some a =>
      let pValueFlags :=
        Z.land (flags it) (Z.lor (Z.lor M_PVALUE_0 M_PVALUE_1) M_PVALUE_2) in
      match vmem !! a with
      | Some (CFloat _) =>
          match fixed_decimals pValueFlags with
          | Some _ => true
          | None => pValueFlags =? M_FLOATA
          end
      | Some (CString _) => pValueFlags =? M_STRING
      | Some (CInt _) =>
          match fixed_decimals pValueFlags with
          | Some _ => false
          | None => negb (pValueFlags =? M_FLOATA) && negb (pValueFlags =? M_STRING)
          end
      | None => false
      end
  end.

(** The value cell of an item has the type its flags say, and for a float
    with automatic decimals a magnitude [determineDecimals] is defined on; an
    item without value pointer needs no cell. *)
Definition value_typed (vmem : gmap N cell) (it : menuItem_t) : bool :=
  match pValue it with
  | None => true
  | Some a =>
      let pValueFlags :=
        Z.land (flags it) (Z.lor (Z.lor M_PVALUE_0 M_PVALUE_1) M_PVALUE_2) in
      match vmem !! a with
      | Some (CFloat f) =>
          match fixed_decimals pValueFlags with
          | Some _ => true
          | None =>
              (pValueFlags =? M_FLOATA)
              && match determineDecimals f with Done _ => true | _ => false end
          end
      | Some (CString _) => pValueFlags =? M_STRING
      | Some (CInt _) =>
          match fixed_decimals pValueFlags with
          | Some _ => false
          | None => negb (pValueFlags =? M_FLOATA) && negb (pValueFlags =? M_STRING)
          end
      | None => false
      end
  end.

(** *** Further sample menus *)

(** The tree of [ex_tree_entered] with an item in the leaf that leads back to
    the root, before and after that item has been entered. *)
Definition ex_back_item : state unit :=
  State {[ 1%N := menu_root; 2%N := menu_leaf_linked ]}
        {[ 10%N := [mkItem 0 (Some 2%N)]; 20%N := [mkItem 0 (Some 1%N)] ]} tt [].

Definition ex_back_item_entered : state unit :=
  State {[ 1%N := mkMenu 10 (Some 2%N) 1 0 (-1) 0; 2%N := menu_leaf_linked ]}
        {[ 10%N := [mkItem 0 (Some 2%N)]; 20%N := [mkItem 0 (Some 1%N)] ]} tt [].

(** A menu without items, over no item array. *)
Definition menu_empty : menu_t := Menu None None None None None 0 0 (-1) 0 0.
Definition ex_empty : state unit := State {[ 1%N := menu_empty ]} ∅ tt [].

(** A menu whose seven item rows are all reserved. *)
Definition menu_blocked : menu_t :=
  Menu (Some 10%N) None None None None 3 0 (-1) 0 254.
Definition ex_blocked : state unit := mkState menu_blocked arr_option.


(** A driver that measures a string by its length and the null string
    as 0. *)
Definition text_chars (s : option string) : Z :=
  match s with Some s => Z.of_nat (String.length s) | None => 0 end.

(** A menu with a header text of its own. *)
Definition menu_titled : menu_t :=
  Menu (Some 10%N) None None (Some "Settings"%string) None 3 1 (-1) 0 0.
Definition ex_titled : state unit := mkState menu_titled arr_option.

(** A menu whose first item is a dummy item. *)
Definition arr_dummy : list menuItem_t := [mkItem M_DUMMY None; item_on].
Definition menu_dummy : menu_t := mkMenu 10 None 2 1 (-1) 0.
Definition ex_dummy : state unit := mkState menu_dummy arr_dummy.

(** A right-aligned item that shows the integer at address 5, alone in an
    option menu, and the memory of its value. *)
Definition item_value : menuItem_t :=
  MenuItem M_RIGHT None (Some "Gain"%string) (Some 5%N) None None None None.
Definition menu_value : menu_t := mkMenu 10 None 1 0 0 0.
Definition ex_value : state unit := mkState menu_value [item_value].
Definition vmem_value : gmap N cell := {[ 5%N := CInt 42 ]}.

(** A menu of ten items that shows screen 37: the first item of the screen,
    [37 * 7 = 259], does not fit the uint8 [nItem]. *)
Definition arr_ten : list menuItem_t := repeat item_on 10.
Definition menu_wrap : menu_t := mkMenu 10 None 10 0 (-1) 37.
Definition ex_wrap : state unit := mkState menu_wrap arr_ten.

(** A menu whose current item 0 has two dummy rows, followed by an item of
    its own. *)
Definition arr_extended : list menuItem_t :=
  [item_on; mkItem M_DUMMY None; mkItem M_DUMMY None; item_on].
Definition menu_extended : menu_t := mkMenu 10 None 4 0 (-1) 0.
Definition ex_extended : state unit := mkState menu_extended arr_extended.

(** An item that shows, with as many decimals as needed, the float at
    address 5, and a memory that holds [3000000000] there, which is above
    [2^31]. *)
Definition item_auto : menuItem_t :=
  MenuItem M_FLOATA None (Some "Rate"%string) (Some 5%N) None None None None.
Definition ex_auto : state unit := mkState menu_value [item_auto].
Definition vmem_large : gmap N cell := {[ 5%N := CFloat (f32_of_Z 3000000000) ]}.
(** ** Properties *)

(** *** Casts *)

Lemma to_uint8_id z : 0 <= z < 256 -> to_uint8 z = z.
Proof. intros H. unfold to_uint8. apply Z.mod_small. lia. Qed.

Lemma to_int8_id z : -128 <= z < 128 -> to_int8 z = z.
Proof. intros H. unfold to_int8. rewrite Z.mod_small; lia. Qed.

Lemma to_uint8_range z : 0 <= to_uint8 z < 256.
Proof. unfold to_uint8. apply Z.mod_pos_bound. lia. Qed.

Lemma to_int8_range z : -128 <= to_int8 z < 128.
Proof. unfold to_int8. pose proof (Z.mod_pos_bound (z + 128) 256). lia. Qed.

Lemma to_int8_upper z : 0 <= z < 256 -> to_int8 z <= z.
Proof.
  intros H. unfold to_int8.
  destruct (Z_lt_le_dec z 128).
  - rewrite Z.mod_small; lia.
  - replace (z + 128) with ((z - 128) + 1 * 256) by lia.
    rewrite Z.mod_add by lia. rewrite Z.mod_small; lia.
Qed.

Lemma to_uint8_sub z k : to_uint8 (to_uint8 z - k) = to_uint8 (z - k).
Proof. unfold to_uint8. apply Zminus_mod_idemp_l. Qed.

Lemma div_bounds x d : 0 <= x -> 0 < d -> 0 <= x / d <= x.
Proof.
  intros Hx Hd. split.
  - apply Z.div_pos; lia.
  - apply Z.div_le_upper_bound; nia.
Qed.

Lemma div_mono x y d : 0 < d -> x <= y -> x / d <= y / d.
Proof. intros Hd Hxy. apply Z.div_le_mono; lia. Qed.

(** *** Items per screen *)

Lemma reserved_testbit r bit : 0 <= bit -> reserved r bit = Z.testbit r bit.
Proof.
  intros Hbit. unfold reserved. rewrite Z.shiftl_1_l.
  assert (Hland : Z.land r (2 ^ bit) = if Z.testbit r bit then 2 ^ bit else 0).
  { apply Z.bits_inj'. intros i Hi. rewrite Z.land_spec, Z.pow2_bits_eqb by lia.
    destruct (Z.eqb_spec bit i) as [->|Hne].
    - destruct (Z.testbit r i) eqn:E; simpl.
      + rewrite Z.pow2_bits_true; auto.
      + rewrite Z.bits_0. reflexivity.
    - rewrite andb_false_r.
      destruct (Z.testbit r bit); [rewrite Z.pow2_bits_false by lia|rewrite Z.bits_0];
        reflexivity. }
  rewrite Hland. pose proof (Z.pow_pos_nonneg 2 bit).
  destruct (Z.testbit r bit); simpl.
  - destruct (Z.eqb_spec (2 ^ bit) 0); [lia|reflexivity].
  - reflexivity.
Qed.

Lemma testbit_to_uint8 r bit : 0 <= bit < 8 -> Z.testbit (to_uint8 r) bit = Z.testbit r bit.
Proof.
  intros H. unfold to_uint8. change 256 with (2 ^ 8).
  apply Z.mod_pow2_bits_low. lia.
Qed.

Lemma determineItemsPerScreen_formula m :
  determineItemsPerScreen m
  = to_uint8 (MENU_ITEMS_PER_SCREEN - reserved_rows (reservedAreas m)).
Proof.
  unfold determineItemsPerScreen, reserved_rows. cbn [fold_left fold_right].
  rewrite !reserved_testbit by lia. rewrite !testbit_to_uint8 by lia.
  destruct (Z.testbit (reservedAreas m) 1), (Z.testbit (reservedAreas m) 2),
    (Z.testbit (reservedAreas m) 3), (Z.testbit (reservedAreas m) 4),
    (Z.testbit (reservedAreas m) 5), (Z.testbit (reservedAreas m) 6),
    (Z.testbit (reservedAreas m) 7);
    cbn [Z.b2z];
    repeat first [rewrite to_uint8_sub | rewrite <- Z.sub_add_distr];
    f_equal; lia.
Qed.

Lemma reserved_rows_range r : 0 <= reserved_rows r <= 7.
Proof.
  unfold reserved_rows. cbn [fold_right].
  destruct (Z.testbit r 1), (Z.testbit r 2), (Z.testbit r 3), (Z.testbit r 4),
    (Z.testbit r 5), (Z.testbit r 6), (Z.testbit r 7); cbn [Z.b2z]; lia.
Qed.

Lemma reserved_rows_ext r r' :
  (forall bit, 1 <= bit <= 7 -> Z.testbit r' bit = Z.testbit r bit) ->
  reserved_rows r' = reserved_rows r.
Proof.
  intros H. unfold reserved_rows. cbn [fold_right].
  rewrite !H by lia. reflexivity.
Qed.

Lemma determineItemsPerScreen_range m : 0 <= determineItemsPerScreen m < 256.
Proof. rewrite determineItemsPerScreen_formula. apply to_uint8_range. Qed.

(** C8: [determineItemsPerScreen] is the fixed capacity minus the number of
    reserved rows among rows 1 to 7; the header row (bit 0) does not count,
    so setting or clearing it changes nothing, and reserving one more
    non-header row lowers the result by exactly one.  The capacity is a
    constant of the absent header: it is taken to cover the seven item rows
    and to fit the uint8 it is stored in. *)
Theorem determineItemsPerScreen_counts_reserved_rows :
  7 <= MENU_ITEMS_PER_SCREEN < 256 ->
  forall m : menu_t,
    determineItemsPerScreen m
    = MENU_ITEMS_PER_SCREEN - reserved_rows (reservedAreas m)
    /\ (forall m' : menu_t,
          reservedAreas m' = Z.lor (reservedAreas m) 1
          \/ reservedAreas m' = Z.ldiff (reservedAreas m) 1 ->
          determineItemsPerScreen m' = determineItemsPerScreen m)
    /\ (forall (m' : menu_t) (bit : Z),
          1 <= bit <= 7 ->
          Z.testbit (reservedAreas m) bit = false ->
          reservedAreas m' = Z.lor (reservedAreas m) (Z.shiftl 1 bit) ->
          determineItemsPerScreen m' = determineItemsPerScreen m - 1).
Proof.
  intros Hcap m.
  assert (Hexact : forall x : menu_t,
             determineItemsPerScreen x
             = MENU_ITEMS_PER_SCREEN - reserved_rows (reservedAreas x)).
  { intros x. rewrite determineItemsPerScreen_formula.
    pose proof (reserved_rows_range (reservedAreas x)).
    apply to_uint8_id. lia. }
  split; [apply Hexact|]. split.
  - intros m' Hm'. rewrite !Hexact. f_equal.
    apply reserved_rows_ext. intros bit Hbit.
    destruct Hm' as [-> | ->].
    + rewrite Z.lor_spec.
      replace (Z.testbit 1 bit) with false; [apply orb_false_r|].
      symmetry. apply (Z.pow2_bits_false 0). lia.
    + rewrite Z.ldiff_spec.
      replace (Z.testbit 1 bit) with false; [apply andb_true_r|].
      symmetry. apply (Z.pow2_bits_false 0). lia.
  - intros m' bit Hbit Hclear Hm'. rewrite !Hexact, Hm'.
    assert (Hcases : bit = 1 \/ bit = 2 \/ bit = 3 \/ bit = 4 \/ bit = 5
                     \/ bit = 6 \/ bit = 7) by lia.
    unfold reserved_rows. cbn [fold_right].
    rewrite !Z.lor_spec.
    destruct Hcases as [->|[->|[->|[->|[->|[->| ->]]]]]];
      rewrite Hclear;
      repeat match goal with
        | |- context [Z.testbit (Z.shiftl 1 ?k) ?i] =>
            let b := eval vm_compute in (Z.testbit (Z.shiftl 1 k) i) in
            change (Z.testbit (Z.shiftl 1 k) i) with b
        end;
      rewrite ?orb_false_r; cbn [orb Z.b2z]; lia.
Qed.

(** *** Reading the predicates *)

Ltac osimpl :=
  cbn [mbind outcome_mbind outcome_bind fmap outcome_fmap outcome_map
       from_option mret outcome_mret] in *.

Ltac bool_hyps :=
  repeat match goal with
    | H : _ && _ = true |- _ => apply andb_true_iff in H; destruct H
    | H : (_ <? _) = true |- _ => apply Z.ltb_lt in H
    | H : (_ <=? _) = true |- _ => apply Z.leb_le in H
    | H : (_ =? _) = true |- _ => apply Z.eqb_eq in H
    end.

Lemma forallb_indices (P : Z -> bool) (arr : list menuItem_t) :
  forallb P (indices arr) = true
  <-> (forall j, 0 <= j < Z.of_nat (length arr) -> P j = true).
Proof.
  unfold indices. rewrite forallb_forall. split.
  - intros H j Hj. apply H. apply list_elem_of_In, elem_of_seqZ. lia.
  - intros H j Hj. apply list_elem_of_In, elem_of_seqZ in Hj. apply H. lia.
Qed.

Lemma enabled_range arr j :
  enabled arr j = true -> 0 <= j < Z.of_nat (length arr).
Proof.
  unfold enabled. intros H. apply andb_true_iff in H as [H1 H2].
  apply Z.leb_le in H1. split; [assumption|].
  destruct (arr !! Z.to_nat j) eqn:E; [|discriminate].
  apply lookup_lt_Some in E. lia.
Qed.

Lemma enabled_lookup arr j :
  enabled arr j = true ->
  exists it, arr !! Z.to_nat j = Some it /\ disabled it = false.
Proof.
  unfold enabled. intros H. apply andb_true_iff in H as [_ H].
  destruct (arr !! Z.to_nat j) as [it|]; [|discriminate].
  exists it. split; [reflexivity|]. destruct (disabled it); [discriminate|reflexivity].
Qed.

Lemma no_enabled_spec arr :
  no_enabled arr = true <-> (forall j, enabled arr j = false).
Proof.
  unfold no_enabled. rewrite forallb_indices. split.
  - intros H j. destruct (enabled arr j) eqn:E; [|reflexivity].
    pose proof (enabled_range _ _ E) as Hr. specialize (H j Hr).
    rewrite E in H. discriminate.
  - intros H j _. rewrite H. reflexivity.
Qed.

Lemma screen_ok_spec ips arr c s :
  screen_ok ips arr c s = true
  <-> (s = c / ips
       \/ (c / ips < s /\ forall j, enabled arr j = true -> c < j -> s < j / ips)
       \/ (s < c / ips /\ forall j, enabled arr j = true -> j < c -> j / ips < s)).
Proof.
  unfold screen_ok. rewrite !orb_true_iff, !andb_true_iff, !forallb_indices.
  rewrite Z.eqb_eq, !Z.ltb_lt.
  split.
  - intros [[H|[H1 H2]]|[H1 H2]]; [left; assumption|right; left|right; right];
      (split; [assumption|]); intros j Hen Hj;
      specialize (H2 j (enabled_range _ _ Hen)); rewrite Hen in H2;
      cbn in H2.
    + destruct (Z.ltb_spec c j); [|lia]. cbn in H2. apply Z.ltb_lt in H2. assumption.
    + destruct (Z.ltb_spec j c); [|lia]. cbn in H2. apply Z.ltb_lt in H2. assumption.
  - intros [H|[[H1 H2]|[H1 H2]]]; [left; left; assumption|left; right|right];
      (split; [assumption|]); intros j Hj;
      destruct (enabled arr j) eqn:Hen; cbn; try reflexivity.
    + destruct (Z.ltb_spec c j); cbn; [|reflexivity]. apply Z.ltb_lt. auto.
    + destruct (Z.ltb_spec j c); cbn; [|reflexivity]. apply Z.ltb_lt. auto.
Qed.

Lemma geometry_ok_spec m arr :
  geometry_ok m arr = true ->
  0 < determineItemsPerScreen m
  /\ Z.of_nat (length arr) = nMenuItems m
  /\ nMenuItems m <= 128
  /\ 0 <= nCurrentItem m < nMenuItems m
  /\ 0 <= nScreen m <= (nMenuItems m - 1) / determineItemsPerScreen m
  /\ (nMenuItems m - 1) / determineItemsPerScreen m <= 127.
Proof.
  unfold geometry_ok. intros H. bool_hyps.
  repeat split; try assumption.
  pose proof (div_bounds (nMenuItems m - 1) (determineItemsPerScreen m)). lia.
Qed.

Lemma read_item_at (st : state W) m a arr i it :
  pItems m = Some a -> itemArrays st !! a = Some arr ->
  0 <= i -> arr !! Z.to_nat i = Some it ->
  read_item st m i = Done it.
Proof.
  intros Ha Harr Hi Hit. unfold read_item. rewrite Ha, Harr.
  destruct (Z.ltb_spec i 0); [lia|]. rewrite Hit. reflexivity.
Qed.

(** *** The two scans *)

Lemma menuUp_scan_spec (st : state W) m a arr :
  pItems m = Some a -> itemArrays st !! a = Some arr ->
  forall fuel x,
    -1 <= x < 128 -> x < Z.of_nat fuel -> x < Z.of_nat (length arr) ->
    exists b found,
      menuUp_scan fuel st m x = Done (b, found)
      /\ -1 <= b <= x
      /\ none_between arr b (x + 1)
      /\ (if found then enabled arr b = true else b = -1).
Proof.
  intros Ha Harr. induction fuel as [|fuel IH]; intros x Hx Hfuel Hlen.
  - assert (x = -1) as -> by lia. exists (-1), false. cbn.
    repeat split; try lia. intros j Hj. lia.
  - cbn [menuUp_scan]. destruct (Z.geb_spec x 0) as [Hge|Hlt].
    + destruct (lookup_lt_is_Some_2 arr (Z.to_nat x)) as [it Hit]; [lia|].
      rewrite (read_item_at st m a arr x it) by (assumption || lia). osimpl.
      destruct (disabled it) eqn:Hdis.
      * rewrite to_int8_id by lia.
        destruct (IH (x - 1)) as (b & found & Hrun & Hb & Hnone & Hfound); try lia.
        exists b, found. rewrite Hrun. repeat split; try lia; [|assumption].
        intros j Hj. destruct (Z.eq_dec j x) as [->|Hne].
        -- unfold enabled. rewrite Hit, Hdis. apply andb_false_r.
        -- apply Hnone. lia.
      * exists x, true. repeat split; try lia.
        -- intros j Hj. lia.
        -- unfold enabled. rewrite Hit, Hdis.
           destruct (Z.leb_spec 0 x); [reflexivity|lia].
    + assert (x = -1) as -> by lia. exists (-1), false.
      repeat split; try lia. intros j Hj. lia.
Qed.

Lemma menuDown_scan_spec (st : state W) m a arr :
  pItems m = Some a -> itemArrays st !! a = Some arr ->
  Z.of_nat (length arr) = nMenuItems m -> nMenuItems m <= 128 ->
  forall fuel x,
    0 <= x <= nMenuItems m -> nMenuItems m - x < Z.of_nat fuel ->
    exists b found,
      menuDown_scan fuel st m x = Done (b, found)
      /\ x <= b <= nMenuItems m
      /\ none_between arr (x - 1) b
      /\ (if found then enabled arr b = true else b = nMenuItems m).
Proof.
  intros Ha Harr Hlen Hn. induction fuel as [|fuel IH]; intros x Hx Hfuel.
  - lia.
  - cbn [menuDown_scan]. destruct (Z.ltb_spec x (nMenuItems m)) as [Hlt|Hge].
    + destruct (lookup_lt_is_Some_2 arr (Z.to_nat x)) as [it Hit]; [lia|].
      rewrite (read_item_at st m a arr x it) by (assumption || lia). osimpl.
      destruct (disabled it) eqn:Hdis.
      * rewrite to_uint8_id by lia.
        destruct (IH (x + 1)) as (b & found & Hrun & Hb & Hnone & Hfound); try lia.
        exists b, found. rewrite Hrun. repeat split; try lia; [|assumption].
        intros j Hj. destruct (Z.eq_dec j x) as [->|Hne].
        -- unfold enabled. rewrite Hit, Hdis. apply andb_false_r.
        -- apply Hnone. lia.
      * exists x, true. repeat split; try lia.
        -- intros j Hj. lia.
        -- unfold enabled. rewrite Hit, Hdis.
           destruct (Z.leb_spec 0 x); [reflexivity|lia].
    + assert (x = nMenuItems m) as -> by lia. exists (nMenuItems m), false.
      repeat split; try lia. intros j Hj. lia.
Qed.

(** *** One step of [menuUp] and [menuDown] on a well-formed menu *)

Lemma menuGetScreen_ok m i :
  0 < determineItemsPerScreen m -> 0 <= i < 256 ->
  menuGetScreen m i = Done (i / determineItemsPerScreen m).
Proof.
  intros Hips Hi. unfold menuGetScreen.
  destruct (Z.eqb_spec (determineItemsPerScreen m) 0); [lia|].
  rewrite to_uint8_id by lia. reflexivity.
Qed.

Lemma menuUp_run (st : state W) p m a arr :
  menus st !! p = Some m -> pItems m = Some a -> itemArrays st !! a = Some arr ->
  geometry_ok m arr = true ->
  exists (b : Z) (found : bool),
    -1 <= b < nCurrentItem m
    /\ none_between arr b (nCurrentItem m)
    /\ (if found then enabled arr b = true else b = -1)
    /\ menuUp st p = Done (up_result st p m b found).
Proof.
  intros Hm Ha Harr Hgeo.
  destruct (geometry_ok_spec _ _ Hgeo) as (Hips & Hlen & Hn & Hc & Hs & Hlast).
  destruct (menuUp_scan_spec st m a arr Ha Harr 128 (nCurrentItem m - 1))
    as (b & found & Hrun & Hb & Hnone & Hfound); try lia.
  exists b, found. replace (nCurrentItem m - 1 + 1) with (nCurrentItem m) in Hnone by lia.
  repeat split; try lia; try assumption.
  unfold menuUp, load_menu. rewrite Hm. osimpl.
  rewrite (to_int8_id (nCurrentItem m - 1)) by lia. rewrite Hrun. osimpl.
  pose proof (div_bounds (nCurrentItem m) _ ltac:(lia) Hips) as Hcdiv.
  rewrite (menuGetScreen_ok m (nCurrentItem m)) by lia.
  rewrite (to_int8_id (nScreen m)) by lia.
  unfold up_result.
  destruct found.
  - pose proof (enabled_range _ _ Hfound) as Hbr.
    pose proof (div_bounds b _ ltac:(lia) Hips) as Hbdiv.
    rewrite (menuGetScreen_ok m b) by lia. osimpl.
    rewrite !to_int8_id by lia. rewrite (to_uint8_id b) by lia.
    destruct (Z.eqb_spec (b / determineItemsPerScreen m) (nScreen m));
      destruct (Z.eqb_spec (nCurrentItem m / determineItemsPerScreen m) (nScreen m));
      cbn [andb]; try reflexivity;
      destruct (Z.eqb_spec (b / determineItemsPerScreen m) (nScreen m - 1));
      destruct (Z.geb_spec (nCurrentItem m / determineItemsPerScreen m) (nScreen m));
      cbn [andb]; try (rewrite to_uint8_id by lia; reflexivity);
      destruct (Z.gtb_spec (nScreen m) 0);
      try (rewrite to_uint8_id by lia); reflexivity.
  - subst b. unfold menuGetScreen.
    destruct (Z.eqb_spec (determineItemsPerScreen m) 0); [lia|]. osimpl.
    cbn [andb].
    destruct (Z.gtb_spec (nScreen m) 0);
      try (rewrite to_uint8_id by lia); reflexivity.
Qed.

Lemma menuDown_run (st : state W) p m a arr :
  menus st !! p = Some m -> pItems m = Some a -> itemArrays st !! a = Some arr ->
  geometry_ok m arr = true ->
  exists (b : Z) (found : bool),
    nCurrentItem m < b <= nMenuItems m
    /\ none_between arr (nCurrentItem m) b
    /\ (if found then enabled arr b = true else b = nMenuItems m)
    /\ menuDown st p = Done (down_result st p m b found).
Proof.
  intros Hm Ha Harr Hgeo.
  destruct (geometry_ok_spec _ _ Hgeo) as (Hips & Hlen & Hn & Hc & Hs & Hlast).
  destruct (menuDown_scan_spec st m a arr Ha Harr Hlen Hn 256 (nCurrentItem m + 1))
    as (b & found & Hrun & Hb & Hnone & Hfound); try lia.
  exists b, found. replace (nCurrentItem m + 1 - 1) with (nCurrentItem m) in Hnone by lia.
  repeat split; try lia; try assumption.
  unfold menuDown, load_menu. rewrite Hm. osimpl.
  rewrite (to_uint8_id (nCurrentItem m + 1)) by lia. rewrite Hrun. osimpl.
  pose proof (div_bounds (nCurrentItem m) _ ltac:(lia) Hips) as Hcdiv.
  pose proof (div_bounds b _ ltac:(lia) Hips) as Hbdiv.
  rewrite (menuGetScreen_ok m b) by lia. osimpl.
  rewrite (menuGetScreen_ok m (nCurrentItem m)) by lia. osimpl.
  destruct (Z.gtb_spec (nMenuItems m) 0); [|lia].
  rewrite (menuGetScreen_ok m (nMenuItems m - 1)) by lia. osimpl.
  unfold down_result.
  destruct (found && (b / determineItemsPerScreen m =? nScreen m)
            && (nCurrentItem m / determineItemsPerScreen m =? nScreen m));
    [reflexivity|].
  destruct (found && (b / determineItemsPerScreen m =? nScreen m + 1)
            && (nCurrentItem m / determineItemsPerScreen m <=? nScreen m)) eqn:E.
  - rewrite to_uint8_id; [reflexivity|].
    apply andb_true_iff in E as [E _]. apply andb_true_iff in E as [_ E].
    apply Z.eqb_eq in E. lia.
  - destruct (Z.ltb_spec (nScreen m) ((nMenuItems m - 1) / determineItemsPerScreen m));
      try (rewrite to_uint8_id by lia); reflexivity.
Qed.

(** *** What the operations write *)

Lemma menu_eta m : set_nScreen (nScreen m) (set_nCurrentItem (nCurrentItem m) m) = m.
Proof. destruct m. reflexivity. Qed.

Lemma moves_cursor_only_refl (st : state W) p m :
  menus st !! p = Some m -> moves_cursor_only st st p.
Proof.
  intros Hm. repeat split. exists m, (nCurrentItem m), (nScreen m).
  split; [assumption|]. rewrite menu_eta. symmetry. apply insert_id. assumption.
Qed.

Lemma moves_cursor_only_store (st : state W) p m c s :
  menus st !! p = Some m ->
  moves_cursor_only st (store_menu st p (set_nScreen s (set_nCurrentItem c m))) p.
Proof. intros Hm. repeat split. exists m, c, s. split; [assumption|reflexivity]. Qed.

Lemma moves_cursor_only_trans (st st1 st2 : state W) p :
  moves_cursor_only st st1 p -> moves_cursor_only st1 st2 p ->
  moves_cursor_only st st2 p.
Proof.
  intros (Hi1 & Hw1 & Hc1 & m & c1 & s1 & Hm & Hs1)
         (Hi2 & Hw2 & Hc2 & m1 & c2 & s2 & Hm1 & Hs2).
  repeat split; try congruence.
  exists m, c2, s2. split; [assumption|].
  rewrite Hs1 in Hm1. rewrite lookup_insert_eq in Hm1. injection Hm1 as <-.
  rewrite Hs2, Hs1. rewrite insert_insert_eq. reflexivity.
Qed.

Lemma menuUp_frame (st st' : state W) p r :
  menuUp st p = Done (st', r) -> moves_cursor_only st st' p.
Proof.
  unfold menuUp, load_menu.
  destruct (menus st !! p) as [m|] eqn:Hm; [|discriminate]. osimpl.
  destruct (menuUp_scan _ _ _ _) as [[b found]| |]; try discriminate. osimpl.
  destruct (menuGetScreen m b); try discriminate. osimpl.
  destruct (menuGetScreen m (nCurrentItem m)); try discriminate. osimpl.
  repeat case_match; intros [= <- <-].
  - apply (moves_cursor_only_store st p m _ (nScreen m) Hm).
  - apply (moves_cursor_only_store st p m _ _ Hm).
  - apply (moves_cursor_only_store st p m (nCurrentItem m) _ Hm).
  - apply (moves_cursor_only_refl st p m Hm).
Qed.

Lemma menuDown_frame (st st' : state W) p r :
  menuDown st p = Done (st', r) -> moves_cursor_only st st' p.
Proof.
  unfold menuDown, load_menu.
  destruct (menus st !! p) as [m|] eqn:Hm; [|discriminate]. osimpl.
  destruct (menuDown_scan _ _ _ _) as [[b found]| |]; try discriminate. osimpl.
  destruct (menuGetScreen m b); try discriminate. osimpl.
  destruct (menuGetScreen m (nCurrentItem m)); try discriminate. osimpl.
  destruct (if nMenuItems m >? 0 then _ else _); try discriminate. osimpl.
  repeat case_match; intros [= <- <-].
  - apply (moves_cursor_only_store st p m _ (nScreen m) Hm).
  - apply (moves_cursor_only_store st p m _ _ Hm).
  - apply (moves_cursor_only_store st p m (nCurrentItem m) _ Hm).
  - apply (moves_cursor_only_refl st p m Hm).
Qed.

Lemma menuPositionTop_loop_frame fuel :
  forall (st st' : state W) p,
    menuPositionTop_loop fuel st p = Done st' -> moves_cursor_only st st' p.
Proof.
  induction fuel as [|fuel IH]; intros st st' p; cbn [menuPositionTop_loop];
    [discriminate|].
  destruct (menuUp st p) as [[st1 r]| |] eqn:Hup; try discriminate. osimpl.
  apply menuUp_frame in Hup.
  destruct (r =? 0).
  - intros [= <-]. assumption.
  - intros Hloop. apply IH in Hloop.
    apply (moves_cursor_only_trans _ _ _ _ Hup Hloop).
Qed.

Lemma menuPositionTop_frame (st st' : state W) p :
  menuPositionTop st p = Done st' -> moves_cursor_only st st' p.
Proof. apply menuPositionTop_loop_frame. Qed.

Lemma menuBack_frame (st st' : state W) p r :
  menuBack st p = Done (st', r) -> moves_cursor_only st st' p.
Proof.
  unfold menuBack, load_menu.
  destruct (menus st !! p) as [m|] eqn:Hm; [|discriminate]. osimpl.
  destruct (pParentMenu m) as [parent|].
  - destruct (nSelectedItem m =? -1).
    + destruct (menuPositionTop st p) as [st1| |] eqn:Htop; try discriminate.
      osimpl. intros [= <- <-]. apply menuPositionTop_frame. assumption.
    + destruct (nSelectedItem m =? -2); osimpl.
      * intros [= <- <-]. apply (moves_cursor_only_refl st p m Hm).
      * destruct (menuGetScreen m (nSelectedItem m)); try discriminate. osimpl.
        intros [= <- <-]. apply (moves_cursor_only_store st p m _ _ Hm).
  - intros [= <- <-]. apply (moves_cursor_only_refl st p m Hm).
Qed.

(** The frame of an operation that only moves the cursor of [p], node by
    node. *)
Lemma moves_cursor_only_nodes (st st' : state W) p :
  moves_cursor_only st st' p ->
  itemArrays st' = itemArrays st
  /\ (forall q, menus st !! q = None -> menus st' !! q = None)
  /\ (forall q m, menus st !! q = Some m ->
        exists m', menus st' !! q = Some m'
                   /\ same_content m m'
                   /\ (q <> p -> same_cursor m m')
                   /\ nSelectedItem m' = nSelectedItem m
                   /\ pParentMenu m' = pParentMenu m).
Proof.
  intros (Hi & _ & _ & m0 & c & s & Hm0 & Hs). split; [assumption|]. split.
  - intros q Hq. rewrite Hs. rewrite lookup_insert_ne; [assumption|congruence].
  - intros q m Hm. destruct (decide (p = q)) as [<-|Hne].
    + rewrite Hm0 in Hm. injection Hm as <-.
      exists (set_nScreen s (set_nCurrentItem c m0)).
      rewrite Hs, lookup_insert_eq.
      split; [reflexivity|]. split; [repeat split|].
      split; [intros Hq; congruence|]. split; reflexivity.
    + exists m. rewrite Hs, lookup_insert_ne by assumption.
      split; [assumption|]. split; [repeat split|].
      split; [intros _; repeat split|]. split; reflexivity.
Qed.

Lemma enter_node_refl p r q m : enter_node p r q m m.
Proof. repeat split. left. reflexivity. Qed.

Lemma nodewise_refl (P : N -> menu_t -> menu_t -> Prop) mns :
  (forall q m, P q m m) -> nodewise P mns mns.
Proof. intros HP. split; [auto|]. intros q m Hm. exists m. auto. Qed.

Lemma nodewise_insert (P : N -> menu_t -> menu_t -> Prop) mns p m m' :
  mns !! p = Some m -> P p m m' -> (forall q x, q <> p -> P q x x) ->
  nodewise P mns (<[p := m']> mns).
Proof.
  intros Hm HP Hrefl. split.
  - intros q Hq. rewrite lookup_insert_ne; [assumption|congruence].
  - intros q x Hx. destruct (decide (p = q)) as [<-|Hne].
    + rewrite Hm in Hx. injection Hx as <-. exists m'.
      rewrite lookup_insert_eq. auto.
    + exists x. rewrite lookup_insert_ne by assumption. auto.
Qed.

Lemma nodewise_trans (P Q R : N -> menu_t -> menu_t -> Prop) a b c :
  (forall q x y z, P q x y -> Q q y z -> R q x z) ->
  nodewise P a b -> nodewise Q b c -> nodewise R a c.
Proof.
  intros HR [Hn1 Hs1] [Hn2 Hs2]. split; [auto|].
  intros q x Hx. destruct (Hs1 q x Hx) as (y & Hy & Hxy).
  destruct (Hs2 q y Hy) as (z & Hz & Hyz). exists z. eauto.
Qed.

Lemma menuEnter_frame (st st' : state W) p r :
  menuEnter st p = Done (st', r) ->
  itemArrays st' = itemArrays st
  /\ nodewise (enter_node p r) (menus st) (menus st').
Proof.
  unfold menuEnter, load_menu.
  destruct (menus st !! p) as [m|] eqn:Hm; [|discriminate]. osimpl.
  destruct (menuGetScreen m _) as [scr| |]; try discriminate. osimpl.
  destruct (to_int8 scr =? nScreen m).
  2:{ intros [= <- <-]. split; [reflexivity|].
      apply nodewise_refl. intros. apply enter_node_refl. }
  destruct (read_item st m _) as [it| |]; try discriminate. osimpl.
  set (st1 := if nSelectedItem m >? -1 then _ else st).
  set (selected_only := fun (q : N) (x y : menu_t) =>
         same_content x y /\ nCurrentItem y = nCurrentItem x
         /\ nScreen y = nScreen x /\ pParentMenu y = pParentMenu x
         /\ (q <> p -> nSelectedItem y = nSelectedItem x)).
  assert (H1 : itemArrays st1 = itemArrays st
               /\ nodewise selected_only (menus st) (menus st1)).
  { subst st1. destruct (nSelectedItem m >? -1).
    - split; [reflexivity|]. cbn. apply (nodewise_insert _ _ _ m); [assumption| |].
      + repeat split. intros Hq. congruence.
      + intros q x _. repeat split.
    - split; [reflexivity|]. apply nodewise_refl. intros q x. repeat split. }
  clearbody st1. destruct H1 as [Hi1 Hn1].
  set (linked := fun (q : N) (x y : menu_t) =>
         same_content x y /\ same_cursor x y
         /\ (pParentMenu y = pParentMenu x \/ (q = r /\ pParentMenu y = Some p))).
  assert (Hcompose : forall st2 : state W,
             itemArrays st2 = itemArrays st1 -> nodewise linked (menus st1) (menus st2) ->
             itemArrays st2 = itemArrays st
             /\ nodewise (enter_node p r) (menus st) (menus st2)).
  { intros st2 Hi2 Hn2. split; [congruence|].
    refine (nodewise_trans selected_only linked _ _ _ _ _ Hn1 Hn2).
    intros q x y z (C1 & c1 & s1 & par1 & sel1) (C2 & (c2 & s2 & sel2) & par2).
    unfold enter_node.
    split; [unfold same_content in *; intuition congruence|].
    split; [congruence|]. split; [congruence|].
    split; [intros Hq; specialize (sel1 Hq); congruence|].
    destruct par2 as [par2|[Hq par2]]; [left; congruence|right; auto]. }
  assert (Hlinked_refl : forall q x, linked q x x).
  { intros q x. repeat split. left. reflexivity. }
  destruct (pApplication it) as [f|].
  - destruct (app f _ _ _ _) as [w' res].
    set (st2 := State (menus st1) (itemArrays st1) w' _).
    destruct (negb (to_uint8 res =? 0)).
    + intros [= <- <-]. apply Hcompose; [reflexivity|].
      apply nodewise_refl. assumption.
    + destruct (pSubMenu it) as [q|].
      * unfold load_menu. cbn [menus st2].
        destruct (menus st1 !! q) as [sub|] eqn:Hsub; [|discriminate]. osimpl.
        intros [= <- <-]. apply Hcompose; [reflexivity|]. cbn.
        apply (nodewise_insert _ _ _ sub); [assumption| |].
        -- split; [repeat split|]. split; [repeat split|]. right. auto.
        -- intros. apply Hlinked_refl.
      * intros [= <- <-]. apply Hcompose; [reflexivity|].
        apply nodewise_refl. assumption.
  - destruct (pSubMenu it) as [q|].
    + unfold load_menu.
      destruct (menus st1 !! q) as [sub|] eqn:Hsub; [|discriminate]. osimpl.
      intros [= <- <-]. apply Hcompose; [reflexivity|]. cbn.
      apply (nodewise_insert _ _ _ sub); [assumption| |].
      * split; [repeat split|]. split; [repeat split|]. right. auto.
      * intros. apply Hlinked_refl.
    + intros [= <- <-]. apply Hcompose; [reflexivity|].
      apply nodewise_refl. assumption.
Qed.

(** *** [menuEnter] *)

Lemma to_uint8_to_int8 z : to_uint8 (to_int8 z) = to_uint8 z.
Proof.
  unfold to_uint8, to_int8. rewrite Zminus_mod_idemp_l.
  f_equal. lia.
Qed.

Lemma to_int8_eq_nonneg x y : 0 <= x < 256 -> 0 <= y -> to_int8 x = y -> x = y.
Proof.
  intros Hx Hy H. destruct (Z_lt_le_dec x 128).
  - rewrite to_int8_id in H by lia. assumption.
  - exfalso. unfold to_int8 in H.
    replace (x + 128) with ((x - 128) + 1 * 256) in H by lia.
    rewrite Z.mod_add in H by lia. rewrite Z.mod_small in H; lia.
Qed.

Lemma menuGetScreen_to_int8 m i :
  menuGetScreen m (to_int8 i) = menuGetScreen m i.
Proof. unfold menuGetScreen. rewrite to_uint8_to_int8. reflexivity. Qed.

(** What [menuEnter] does when the current item is on the screen shown. *)
Lemma menuEnter_on_screen (st : state W) p m it :
  menus st !! p = Some m ->
  0 <= nCurrentItem m < 128 ->
  0 < determineItemsPerScreen m ->
  nCurrentItem m / determineItemsPerScreen m = nScreen m ->
  read_item st m (nCurrentItem m) = Done it ->
  (forall q, pSubMenu it = Some q -> is_Some (menus st !! q)) ->
  exists st' r m',
    menuEnter st p = Done (st', r)
    /\ menus st' !! p = Some m'
    /\ nSelectedItem m'
        = (if nSelectedItem m >? -1 then nCurrentItem m else nSelectedItem m).
Proof.
  intros Hm Hc Hips Hscr Hit Hsub.
  unfold menuEnter, load_menu. rewrite Hm. osimpl.
  rewrite menuGetScreen_to_int8, (menuGetScreen_ok m (nCurrentItem m)) by lia.
  osimpl. pose proof (div_bounds (nCurrentItem m) _ ltac:(lia) Hips).
  rewrite (to_int8_id (_ / _)) by lia. rewrite Hscr, Z.eqb_refl.
  rewrite (to_int8_id (nCurrentItem m)) by lia. rewrite Hit. osimpl.
  set (st1 := if nSelectedItem m >? -1 then _ else st).
  assert (H1 : exists m1, menus st1 !! p = Some m1
                 /\ nSelectedItem m1
                     = (if nSelectedItem m >? -1 then nCurrentItem m
                        else nSelectedItem m)
                 /\ forall q, is_Some (menus st !! q) -> is_Some (menus st1 !! q)).
  { subst st1. destruct (nSelectedItem m >? -1).
    - eexists. cbn. rewrite lookup_insert_eq. split; [reflexivity|].
      split; [reflexivity|]. intros q Hq. rewrite lookup_insert. case_decide; eauto.
    - exists m. auto. }
  clearbody st1. destruct H1 as (m1 & Hm1 & Hsel & Hdom).
  assert (Hlink : forall (st2 : state W) (o : option N),
             menus st2 = menus st1 -> o = pSubMenu it ->
             exists st' r m',
               match o with
               | Some q =>
                   sub ← load_menu st2 q;
                   Done (store_menu st2 q (set_pParentMenu (Some p) sub), q)
               | None => Done (st2, p)
               end = Done (st', r)
               /\ menus st' !! p = Some m'
               /\ nSelectedItem m' = nSelectedItem m1).
  { intros st2 o Hst2 ->. destruct (pSubMenu it) as [q|] eqn:Hq.
    - destruct (Hdom q (Hsub q eq_refl)) as [sub Hsubq].
      unfold load_menu. rewrite Hst2, Hsubq. osimpl.
      destruct (decide (q = p)) as [->|Hne].
      + eexists _, _, _. split; [reflexivity|]. cbn.
        rewrite lookup_insert_eq. split; [reflexivity|].
        rewrite Hm1 in Hsubq. injection Hsubq as <-. reflexivity.
      + eexists _, _, m1. split; [reflexivity|]. cbn.
        rewrite lookup_insert_ne by assumption. rewrite Hst2. auto.
    - exists st2, p, m1. rewrite Hst2. auto. }
  rewrite <- Hsel.
  destruct (pApplication it) as [f|].
  - destruct (app f _ _ _ _) as [w' res].
    destruct (negb (to_uint8 res =? 0)).
    + eexists _, _, m1. split; [reflexivity|]. cbn. auto.
    + apply Hlink; reflexivity.
  - apply Hlink; reflexivity.
Qed.

(** C1, as the code has it: when the current item is on the screen shown,
    [menuEnter] returns, and it sets the selected-item index to the current
    item index exactly when that index was not negative; a negative index
    (-1: no selection, -2: selection frozen) stays as it was. *)
Theorem menuEnter_selects_current_item (st : state W) p m it :
  menus st !! p = Some m ->
  0 <= nCurrentItem m < 128 ->
  determineItemsPerScreen m <> 0 ->
  nCurrentItem m / determineItemsPerScreen m = nScreen m ->
  read_item st m (nCurrentItem m) = Done it ->
  (forall q, pSubMenu it = Some q -> is_Some (menus st !! q)) ->
  exists st' r m',
    menuEnter st p = Done (st', r)
    /\ menus st' !! p = Some m'
    /\ (0 <= nSelectedItem m -> nSelectedItem m' = nCurrentItem m)
    /\ (nSelectedItem m < 0 -> nSelectedItem m' = nSelectedItem m).
Proof.
  intros Hm Hc Hips Hscr Hit Hsub.
  pose proof (determineItemsPerScreen_range m) as Hr.
  destruct (menuEnter_on_screen st p m it Hm Hc ltac:(lia) Hscr Hit Hsub)
    as (st' & r & m' & Hrun & Hm' & Hsel).
  exists st', r, m'. split; [assumption|]. split; [assumption|].
  destruct (Z.gtb_spec (nSelectedItem m) (-1)); split; intros; lia.
Qed.

(** The guard of [menuEnter] compares the screen of the current item, as an
    int8, with the screen shown. *)
Lemma menuEnter_guard_off_screen m :
  0 <= nCurrentItem m < 256 -> 0 <= nScreen m < 256 ->
  determineItemsPerScreen m <> 0 ->
  nCurrentItem m / determineItemsPerScreen m <> nScreen m ->
  (to_int8 <$> menuGetScreen m (to_int8 (nCurrentItem m)))
  = Done (to_int8 (nCurrentItem m / determineItemsPerScreen m))
  /\ (to_int8 (nCurrentItem m / determineItemsPerScreen m) =? nScreen m) = false.
Proof.
  intros Hc Hs Hips Hscr.
  pose proof (determineItemsPerScreen_range m) as Hr.
  rewrite menuGetScreen_to_int8, (menuGetScreen_ok m (nCurrentItem m)) by lia.
  split; [reflexivity|].
  pose proof (div_bounds (nCurrentItem m) (determineItemsPerScreen m)
                ltac:(lia) ltac:(lia)).
  destruct (Z.eqb_spec (to_int8 (nCurrentItem m / determineItemsPerScreen m))
                       (nScreen m)) as [Heq|Hne]; [|reflexivity].
  apply to_int8_eq_nonneg in Heq; lia.
Qed.

Lemma menuEnter_off_screen (st : state W) p m :
  menus st !! p = Some m ->
  0 <= nCurrentItem m < 256 -> 0 <= nScreen m < 256 ->
  determineItemsPerScreen m <> 0 ->
  nCurrentItem m / determineItemsPerScreen m <> nScreen m ->
  menuEnter st p = Done (st, p).
Proof.
  intros Hm Hc Hs Hips Hscr.
  destruct (menuEnter_guard_off_screen m Hc Hs Hips Hscr) as [Hget Hguard].
  unfold menuEnter, load_menu. rewrite Hm. osimpl.
  rewrite Hget. osimpl. rewrite Hguard. reflexivity.
Qed.

(** C7: when the screen of the current item is not the screen shown,
    [menuEnter] returns the same menu and leaves the whole state as it was:
    the three cursor fields of the menu and every other field of every menu,
    the item arrays, the state of the application and the list of callback
    invocations; so no callback has run and no submenu has been linked. *)
Theorem menuEnter_off_screen_is_noop (st : state W) p m :
  menus st !! p = Some m ->
  0 <= nCurrentItem m < 256 ->
  0 <= nScreen m < 256 ->
  determineItemsPerScreen m <> 0 ->
  nCurrentItem m / determineItemsPerScreen m <> nScreen m ->
  exists st',
    menuEnter st p = Done (st', p)
    /\ menus st' = menus st
    /\ itemArrays st' = itemArrays st
    /\ world st' = world st
    /\ calls st' = calls st.
Proof.
  intros Hm Hc Hs Hips Hscr. exists st.
  destruct (menuEnter_guard_off_screen m Hc Hs Hips Hscr) as [Hget Hguard].
  split; [|repeat split].
  unfold menuEnter, load_menu. rewrite Hm. osimpl.
  rewrite Hget. osimpl. rewrite Hguard. reflexivity.
Qed.

(** *** The cursor moves of [menuUp] and [menuDown] *)

Lemma up_result_cursor (st : state W) p m b found :
  up_result st p m b found
  = moved st p m (up_cursor (determineItemsPerScreen m) (nCurrentItem m)
                            (nScreen m) b found).
Proof.
  unfold up_result, up_cursor, moved.
  repeat case_match; try reflexivity; try discriminate.
Qed.

Lemma down_result_cursor (st : state W) p m b found :
  down_result st p m b found
  = moved st p m (down_cursor (determineItemsPerScreen m) (nMenuItems m)
                              (nCurrentItem m) (nScreen m) b found).
Proof.
  unfold down_result, down_cursor, moved.
  repeat case_match; try reflexivity; try discriminate.
Qed.

Ltac mono ips Hips x y :=
  pose proof (div_mono x y ips Hips); pose proof (div_mono y x ips Hips).

Lemma up_cursor_cases ips c s b (found : bool) c' s' r :
  up_cursor ips c s b found = (c', s', r) ->
  (found = true /\ b / ips = s /\ c / ips = s /\ c' = b /\ s' = s /\ r = 1)
  \/ (found = true /\ b / ips = s - 1 /\ s <= c / ips
      /\ c' = b /\ s' = s - 1 /\ r = 1)
  \/ ((found = true -> b / ips = s -> c / ips <> s)
      /\ (found = true -> b / ips = s - 1 -> c / ips < s)
      /\ ((0 < s /\ c' = c /\ s' = s - 1 /\ r = 1)
          \/ (s <= 0 /\ c' = c /\ s' = s /\ r = 0))).
Proof.
  unfold up_cursor. intros H.
  destruct found; cbn [andb] in H.
  - destruct (Z.eqb_spec (b / ips) s); destruct (Z.eqb_spec (c / ips) s);
      cbn [andb] in H;
      try (injection H as <- <- <-; left; repeat split; assumption);
      destruct (Z.eqb_spec (b / ips) (s - 1));
      destruct (Z.geb_spec (c / ips) s); cbn [andb] in H;
      try (injection H as <- <- <-; right; left; repeat split; (assumption || lia));
      right; right; (split; [intros; lia|]); (split; [intros; lia|]);
      destruct (Z.gtb_spec s 0); injection H as <- <- <-;
      ((left; repeat split; lia) || (right; repeat split; lia)).
  - right. right. split; [discriminate|]. split; [discriminate|].
    destruct (Z.gtb_spec s 0); injection H as <- <- <-;
      ((left; repeat split; lia) || (right; repeat split; lia)).
Qed.

Lemma up_cursor_placed ips arr n c s b found :
  0 < ips -> Z.of_nat (length arr) = n ->
  placed ips arr n c s -> scan_up arr c b found ->
  forall c' s' r, up_cursor ips c s b found = (c', s', r) ->
    placed ips arr n c' s'
    /\ (r = 0 \/ r = 1)
    /\ (r = 0 -> c' = c /\ s' = s /\ s = 0
                  /\ ((forall j, enabled arr j = false)
                      \/ none_between arr (-1) c))
    /\ (r = 1 -> c' <= c /\ c' + s' < c + s)
    /\ ((forall j, enabled arr j = false) -> c' = c).
Proof.
  intros Hips Hlen (Hc & Hs & Hcur) (Hb & Hnone & Hfound) c' s' r Hup.
  apply up_cursor_cases in Hup.
  pose proof (div_bounds c ips ltac:(lia) Hips) as Hcd.
  mono ips Hips c (n - 1). mono ips Hips b c.
  assert (Hbd : found = true -> enabled arr b = true /\ 0 <= b < n /\ 0 <= b / ips).
  { intros ->. pose proof (enabled_range _ _ Hfound).
    pose proof (div_bounds b ips ltac:(lia) Hips). split; [assumption|lia]. }
  assert (Hnf : found = false -> b = -1) by (intros ->; assumption).
  assert (Hbelow : forall j, enabled arr j = true -> j < c ->
                     found = true /\ j <= b /\ j / ips <= b / ips).
  { intros j Hj Hjc. pose proof (enabled_range _ _ Hj) as Hjr.
    assert (j <= b) as Hjb.
    { destruct (Z_le_gt_dec j b); [assumption|].
      rewrite (Hnone j) in Hj by lia. discriminate. }
    split; [destruct found; [reflexivity|lia]|].
    split; [assumption|]. apply div_mono; assumption. }
  clear Hfound.
  destruct Hup as [(Hf & Hq1 & Hq2 & -> & -> & ->)
                  |[(Hf & Hq1 & Hq2 & -> & -> & ->)
                   |(Hn1 & Hn2 & [(Hs0 & -> & -> & ->)|(Hs0 & -> & -> & ->)])]].
  - destruct (Hbd Hf) as (Hen & Hbr & Hbdiv).
    split; [|split; [lia|split; [lia|split; [lia|]]]].
    + split; [lia|split; [lia|right]]. split; [assumption|left; lia].
    + intros Hall. rewrite Hall in Hen. discriminate.
  - destruct (Hbd Hf) as (Hen & Hbr & Hbdiv).
    split; [|split; [lia|split; [lia|split; [lia|]]]].
    + split; [lia|split; [lia|right]]. split; [assumption|left; lia].
    + intros Hall. rewrite Hall in Hen. discriminate.
  - split; [|split; [lia|split; [lia|split; [lia|reflexivity]]]].
    split; [lia|split; [lia|]].
    destruct Hcur as [Hall|[Hen Hscr]]; [left; assumption|right].
    split; [assumption|].
    destruct Hscr as [Hscr|[[Hlt Hscr]|[Hlt Hscr]]].
    + right. right. split; [lia|]. intros j Hj Hjc.
      destruct (Hbelow j Hj Hjc) as (Hf & Hjb & Hjd).
      specialize (Hn1 Hf). specialize (Hn2 Hf). specialize (Hbd Hf). lia.
    + destruct (Z.eq_dec (s - 1) (c / ips)); [left; assumption|].
      right. left. split; [lia|]. intros j Hj Hcj.
      specialize (Hscr j Hj Hcj). lia.
    + right. right. split; [lia|]. intros j Hj Hjc.
      destruct (Hbelow j Hj Hjc) as (Hf & Hjb & Hjd).
      specialize (Hn2 Hf). destruct (Hbd Hf) as (Hbe & Hbr & Hbdiv).
      specialize (Hscr b Hbe ltac:(lia)). lia.
  - split; [|split; [lia|split; [|split; [lia|reflexivity]]]].
    { split; [lia|split; [lia|assumption]]. }
    intros _. split; [reflexivity|]. split; [reflexivity|]. split; [lia|].
    destruct Hcur as [Hall|[Hen Hscr]]; [left; assumption|right].
    intros j Hjr. destruct (enabled arr j) eqn:Hj; [exfalso|reflexivity].
    destruct (Hbelow j Hj ltac:(lia)) as (Hf & Hjb & Hjd).
    specialize (Hn1 Hf). destruct (Hbd Hf) as (Hbe & Hbr & Hbdiv).
    destruct Hscr as [Hscr|[[Hlt Hscr]|[Hlt Hscr]]]; try lia.
    specialize (Hscr b Hbe ltac:(lia)). lia.
Qed.

Lemma down_cursor_cases ips n c s b (found : bool) c' s' r :
  down_cursor ips n c s b found = (c', s', r) ->
  (found = true /\ b / ips = s /\ c / ips = s /\ c' = b /\ s' = s /\ r = 1)
  \/ (found = true /\ b / ips = s + 1 /\ c / ips <= s
      /\ c' = b /\ s' = s + 1 /\ r = 1)
  \/ ((found = true -> b / ips = s -> c / ips <> s)
      /\ (found = true -> b / ips = s + 1 -> s < c / ips)
      /\ ((s < (n - 1) / ips /\ c' = c /\ s' = s + 1 /\ r = 1)
          \/ ((n - 1) / ips <= s /\ c' = c /\ s' = s /\ r = 0))).
Proof.
  unfold down_cursor. intros H.
  destruct found; cbn [andb] in H.
  - destruct (Z.eqb_spec (b / ips) s); destruct (Z.eqb_spec (c / ips) s);
      cbn [andb] in H;
      try (injection H as <- <- <-; left; repeat split; assumption);
      destruct (Z.eqb_spec (b / ips) (s + 1));
      destruct (Z.leb_spec (c / ips) s); cbn [andb] in H;
      try (injection H as <- <- <-; right; left; repeat split; (assumption || lia));
      right; right; (split; [intros; lia|]); (split; [intros; lia|]);
      destruct (Z.ltb_spec s ((n - 1) / ips)); injection H as <- <- <-;
      ((left; repeat split; lia) || (right; repeat split; lia)).
  - right. right. split; [discriminate|]. split; [discriminate|].
    destruct (Z.ltb_spec s ((n - 1) / ips)); injection H as <- <- <-;
      ((left; repeat split; lia) || (right; repeat split; lia)).
Qed.

Lemma down_cursor_placed ips arr n c s b found :
  0 < ips -> Z.of_nat (length arr) = n ->
  placed ips arr n c s -> scan_down arr n c b found ->
  forall c' s' r, down_cursor ips n c s b found = (c', s', r) ->
    placed ips arr n c' s' /\ (r = 0 \/ r = 1)
    /\ (r = 0 -> c' = c /\ s' = s).
Proof.
  intros Hips Hlen (Hc & Hs & Hcur) (Hb & Hnone & Hfound) c' s' r Hdown.
  apply down_cursor_cases in Hdown.
  pose proof (div_bounds c ips ltac:(lia) Hips) as Hcd.
  mono ips Hips c (n - 1). mono ips Hips b c. mono ips Hips b (n - 1).
  assert (Hbd : found = true -> enabled arr b = true /\ 0 <= b < n).
  { intros ->. pose proof (enabled_range _ _ Hfound). split; [assumption|lia]. }
  assert (Habove : forall j, enabled arr j = true -> c < j ->
                     found = true /\ b <= j /\ b / ips <= j / ips).
  { intros j Hj Hjc. pose proof (enabled_range _ _ Hj) as Hjr.
    assert (b <= j) as Hjb.
    { destruct (Z_le_gt_dec b j); [assumption|].
      rewrite (Hnone j) in Hj by lia. discriminate. }
    split; [destruct found; [reflexivity|lia]|].
    split; [assumption|]. apply div_mono; assumption. }
  clear Hfound.
  destruct Hdown as [(Hf & Hq1 & Hq2 & -> & -> & ->)
                    |[(Hf & Hq1 & Hq2 & -> & -> & ->)
                     |(Hn1 & Hn2 & [(Hs0 & -> & -> & ->)|(Hs0 & -> & -> & ->)])]].
  - destruct (Hbd Hf) as (Hen & Hbr).
    split; [|split; [lia|lia]].
    split; [lia|split; [lia|right]]. split; [assumption|left; lia].
  - destruct (Hbd Hf) as (Hen & Hbr).
    split; [|split; [lia|lia]].
    split; [lia|split; [lia|right]]. split; [assumption|left; lia].
  - split; [|split; [lia|lia]].
    split; [lia|split; [lia|]].
    destruct Hcur as [Hall|[Hen Hscr]]; [left; assumption|right].
    split; [assumption|].
    destruct Hscr as [Hscr|[[Hlt Hscr]|[Hlt Hscr]]].
    + right. left. split; [lia|]. intros j Hj Hjc.
      destruct (Habove j Hj Hjc) as (Hf & Hjb & Hjd).
      specialize (Hn1 Hf). specialize (Hn2 Hf). specialize (Hbd Hf). lia.
    + right. left. split; [lia|]. intros j Hj Hjc.
      destruct (Habove j Hj Hjc) as (Hf & Hjb & Hjd).
      specialize (Hn2 Hf). destruct (Hbd Hf) as (Hbe & Hbr).
      specialize (Hscr b Hbe ltac:(lia)). lia.
    + destruct (Z.eq_dec (s + 1) (c / ips)); [left; assumption|].
      right. right. split; [lia|]. intros j Hj Hcj.
      specialize (Hscr j Hj Hcj). lia.
  - split; [|split; [lia|intros _; split; reflexivity]].
    split; [lia|split; [lia|assumption]].
Qed.

(** From a cursor at home, a successful [menuDown] is undone by [menuUp]. *)
Lemma down_up_home ips arr n c s b found b' found' c1 s1 :
  0 < ips -> Z.of_nat (length arr) = n ->
  0 <= c < n -> enabled arr c = true -> s = c / ips ->
  scan_down arr n c b found ->
  down_cursor ips n c s b found = (c1, s1, 1) ->
  scan_up arr c1 b' found' ->
  up_cursor ips c1 s1 b' found' = (c, s, 1).
Proof.
  intros Hips Hlen Hc Hen Hs (Hb & Hnone & Hfound) Hdown (Hb' & Hnone' & Hfound').
  apply down_cursor_cases in Hdown.
  pose proof (div_bounds c ips ltac:(lia) Hips) as Hcd.
  assert (Hback : c1 = b -> b' = c /\ found' = true).
  { intros ->.
    assert (c <= b') as Hcb'.
    { destruct (Z_le_gt_dec c b'); [assumption|].
      rewrite (Hnone' c) in Hen by lia. discriminate. }
    destruct found'; [|lia]. split; [|reflexivity].
    destruct (Z_le_gt_dec b' c); [lia|].
    rewrite (Hnone b') in Hfound' by lia. discriminate. }
  unfold up_cursor.
  destruct Hdown as [(Hf & Hq1 & Hq2 & -> & -> & _)
                    |[(Hf & Hq1 & Hq2 & -> & -> & _)
                     |(Hn1 & Hn2 & [(Hs0 & -> & -> & _)|(Hs0 & _ & _ & Hr)])]].
  - destruct (Hback eq_refl) as [-> ->]. cbn [andb].
    rewrite Hq1, Z.eqb_refl.
    destruct (Z.eqb_spec (c / ips) s); [reflexivity|lia].
  - destruct (Hback eq_refl) as [-> ->]. cbn [andb].
    destruct (Z.eqb_spec (c / ips) (s + 1)); [lia|]. cbn [andb].
    replace (s + 1 - 1) with s by lia.
    destruct (Z.eqb_spec (c / ips) s); [|lia].
    destruct (Z.geb_spec (b / ips) (s + 1)); [|lia]. reflexivity.
  - destruct (Z.eqb_spec (c / ips) (s + 1)); [lia|].
    rewrite andb_false_r.
    destruct (Z.geb_spec (c / ips) (s + 1)); [lia|]. rewrite andb_false_r.
    destruct (Z.gtb_spec (s + 1) 0); [|lia].
    replace (s + 1 - 1) with s by lia. reflexivity.
  - discriminate.
Qed.

(** From a cursor at home, a successful [menuUp] is undone by [menuDown]. *)
Lemma up_down_home ips arr n c s b found b' found' c1 s1 :
  0 < ips -> Z.of_nat (length arr) = n ->
  0 <= c < n -> enabled arr c = true -> s = c / ips ->
  scan_up arr c b found ->
  up_cursor ips c s b found = (c1, s1, 1) ->
  scan_down arr n c1 b' found' ->
  down_cursor ips n c1 s1 b' found' = (c, s, 1).
Proof.
  intros Hips Hlen Hc Hen Hs (Hb & Hnone & Hfound) Hup (Hb' & Hnone' & Hfound').
  apply up_cursor_cases in Hup.
  pose proof (div_bounds c ips ltac:(lia) Hips) as Hcd.
  pose proof (div_mono c (n - 1) ips Hips ltac:(lia)) as Hlast.
  assert (Hback : c1 = b -> b' = c /\ found' = true).
  { intros ->.
    assert (b' <= c) as Hcb'.
    { destruct (Z_le_gt_dec b' c); [assumption|].
      rewrite (Hnone' c) in Hen by lia. discriminate. }
    destruct found'; [|lia]. split; [|reflexivity].
    destruct (Z_le_gt_dec c b'); [lia|].
    rewrite (Hnone b') in Hfound' by lia. discriminate. }
  unfold down_cursor.
  destruct Hup as [(Hf & Hq1 & Hq2 & -> & -> & _)
                  |[(Hf & Hq1 & Hq2 & -> & -> & _)
                   |(Hn1 & Hn2 & [(Hs0 & -> & -> & _)|(Hs0 & _ & _ & Hr)])]].
  - destruct (Hback eq_refl) as [-> ->]. cbn [andb].
    rewrite Hq1, Z.eqb_refl.
    destruct (Z.eqb_spec (c / ips) s); [reflexivity|lia].
  - destruct (Hback eq_refl) as [-> ->]. cbn [andb].
    destruct (Z.eqb_spec (c / ips) (s - 1)); [lia|]. cbn [andb].
    replace (s - 1 + 1) with s by lia.
    destruct (Z.eqb_spec (c / ips) s); [|lia].
    destruct (Z.leb_spec (b / ips) (s - 1)); [|lia]. reflexivity.
  - destruct (Z.eqb_spec (c / ips) (s - 1)); [lia|].
    rewrite andb_false_r.
    destruct (Z.leb_spec (c / ips) (s - 1)); [lia|]. rewrite andb_false_r.
    destruct (Z.ltb_spec (s - 1) ((n - 1) / ips)); [|lia].
    replace (s - 1 + 1) with s by lia. reflexivity.
  - discriminate.
Qed.

(** *** From cursors back to states *)

Lemma store_menu_same (st : state W) p m :
  menus st !! p = Some m -> store_menu st p m = st.
Proof.
  intros Hm. destruct st as [mns its w cs]. unfold store_menu. cbn in *.
  f_equal. apply insert_id. assumption.
Qed.

Lemma store_menu_twice (st : state W) p m1 m2 :
  store_menu (store_menu st p m1) p m2 = store_menu st p m2.
Proof. unfold store_menu. cbn. f_equal. apply insert_insert_eq. Qed.

Lemma moved_store (st : state W) p m c' s' r :
  menus st !! p = Some m ->
  (r = 0 -> c' = nCurrentItem m /\ s' = nScreen m) ->
  moved st p m (c', s', r)
  = (store_menu st p (set_nScreen s' (set_nCurrentItem c' m)), r).
Proof.
  intros Hm Hr. unfold moved. destruct (Z.eqb_spec r 0) as [->|_]; [|reflexivity].
  destruct (Hr eq_refl) as [-> ->]. rewrite menu_eta.
  rewrite store_menu_same by assumption. reflexivity.
Qed.

Lemma placed_of_ok m arr :
  geometry_ok m arr = true -> cursor_ok m arr = true ->
  placed (determineItemsPerScreen m) arr (nMenuItems m)
         (nCurrentItem m) (nScreen m).
Proof.
  intros Hgeo Hcur.
  destruct (geometry_ok_spec _ _ Hgeo) as (Hips & Hlen & Hn & Hc & Hs & Hlast).
  split; [assumption|]. split; [assumption|].
  unfold cursor_ok in Hcur. apply orb_true_iff in Hcur as [Hnone|Hcur].
  - left. apply no_enabled_spec. assumption.
  - apply andb_true_iff in Hcur as [Hen Hscr]. right.
    split; [assumption|]. apply screen_ok_spec. assumption.
Qed.

Lemma geometry_ok_set m arr c s :
  geometry_ok m arr = true ->
  0 <= c < nMenuItems m ->
  0 <= s <= (nMenuItems m - 1) / determineItemsPerScreen m ->
  geometry_ok (set_nScreen s (set_nCurrentItem c m)) arr = true.
Proof.
  intros Hgeo Hc Hs.
  destruct (geometry_ok_spec _ _ Hgeo) as (Hips & Hlen & Hn & _ & _ & _).
  unfold geometry_ok.
  change (determineItemsPerScreen (set_nScreen s (set_nCurrentItem c m)))
    with (determineItemsPerScreen m).
  cbn [nMenuItems nCurrentItem nScreen set_nScreen set_nCurrentItem].
  repeat (apply andb_true_iff; split);
    first [apply Z.ltb_lt | apply Z.leb_le | apply Z.eqb_eq]; lia.
Qed.

Lemma cursor_ok_set m arr c s :
  placed (determineItemsPerScreen m) arr (nMenuItems m) c s ->
  cursor_ok (set_nScreen s (set_nCurrentItem c m)) arr = true.
Proof.
  intros (_ & _ & Hcur). unfold cursor_ok.
  change (determineItemsPerScreen (set_nScreen s (set_nCurrentItem c m)))
    with (determineItemsPerScreen m).
  cbn [nCurrentItem nScreen set_nScreen set_nCurrentItem].
  apply orb_true_iff. destruct Hcur as [Hall|[Hen Hscr]].
  - left. apply no_enabled_spec. assumption.
  - right. apply andb_true_iff. split; [assumption|].
    apply screen_ok_spec. assumption.
Qed.

Lemma links_ok_mono (mns mns' : gmap N menu_t) arr :
  (forall q, is_Some (mns !! q) -> is_Some (mns' !! q)) ->
  links_ok mns arr = true -> links_ok mns' arr = true.
Proof.
  intros Hdom. unfold links_ok. rewrite !forallb_forall.
  intros H it Hit. specialize (H it Hit).
  destruct (pSubMenu it) as [q|]; [|reflexivity].
  destruct (mns !! q) eqn:Hq; [|discriminate].
  destruct (Hdom q) as [x Hx]; [eauto|]. rewrite Hx. reflexivity.
Qed.

Lemma with_menu_at {A : Type} (st : state W) p (d : A) f m a arr :
  menus st !! p = Some m -> pItems m = Some a -> itemArrays st !! a = Some arr ->
  with_menu st p d f = f m arr.
Proof. intros Hm Ha Harr. unfold with_menu. rewrite Hm, Ha, Harr. reflexivity. Qed.

Lemma with_menu_true (st : state W) p f :
  with_menu st p false f = true ->
  exists m a arr,
    menus st !! p = Some m /\ pItems m = Some a
    /\ itemArrays st !! a = Some arr /\ f m arr = true.
Proof.
  unfold with_menu. intros H.
  destruct (menus st !! p) as [m|]; [|discriminate].
  destruct (pItems m) as [a|] eqn:Ha; [|discriminate].
  destruct (itemArrays st !! a) as [arr|] eqn:Harr; [|discriminate].
  exists m, a, arr. auto.
Qed.

Lemma menu_inv_parts (st : state W) p :
  menu_inv st p = true ->
  exists m a arr,
    menus st !! p = Some m /\ pItems m = Some a
    /\ itemArrays st !! a = Some arr
    /\ geometry_ok m arr = true /\ cursor_ok m arr = true
    /\ selected_ok m arr = true /\ links_ok (menus st) arr = true.
Proof.
  intros H. apply with_menu_true in H as (m & a & arr & Hm & Ha & Harr & H).
  exists m, a, arr. bool_hyps. auto 10.
Qed.

Lemma menu_inv_intro (st : state W) p m a arr :
  menus st !! p = Some m -> pItems m = Some a -> itemArrays st !! a = Some arr ->
  geometry_ok m arr = true -> cursor_ok m arr = true ->
  selected_ok m arr = true -> links_ok (menus st) arr = true ->
  menu_inv st p = true.
Proof.
  intros Hm Ha Harr Hgeo Hcur Hsel Hlinks. unfold menu_inv.
  rewrite (with_menu_at st p false _ m a arr) by assumption.
  rewrite Hgeo, Hcur, Hsel, Hlinks. reflexivity.
Qed.

(** Moving the cursor of [p] to a legal place keeps the invariant. *)
Lemma menu_inv_store (st : state W) p m a arr c s :
  menus st !! p = Some m -> pItems m = Some a -> itemArrays st !! a = Some arr ->
  menu_inv st p = true ->
  placed (determineItemsPerScreen m) arr (nMenuItems m) c s ->
  menu_inv (store_menu st p (set_nScreen s (set_nCurrentItem c m))) p = true.
Proof.
  intros Hm Ha Harr Hinv Hplaced.
  apply menu_inv_parts in Hinv
    as (m0 & a0 & arr0 & Hm0 & Ha0 & Harr0 & Hgeo & Hcur & Hsel & Hlinks).
  rewrite Hm in Hm0. injection Hm0 as <-.
  rewrite Ha in Ha0. injection Ha0 as <-.
  rewrite Harr in Harr0. injection Harr0 as <-.
  pose proof Hplaced as (Hc & Hs & _).
  apply (menu_inv_intro _ p (set_nScreen s (set_nCurrentItem c m)) a arr).
  - cbn. apply lookup_insert_eq.
  - assumption.
  - assumption.
  - apply geometry_ok_set; assumption.
  - apply cursor_ok_set; assumption.
  - assumption.
  - cbn. revert Hlinks. apply links_ok_mono. intros q Hq.
    rewrite lookup_insert. case_decide; eauto.
Qed.

(** One [menuUp] on a menu with a legal cursor. *)
Lemma menuUp_step (st : state W) p m a arr :
  menus st !! p = Some m -> pItems m = Some a -> itemArrays st !! a = Some arr ->
  geometry_ok m arr = true -> cursor_ok m arr = true ->
  exists c' s' r,
    menuUp st p
    = Done (store_menu st p (set_nScreen s' (set_nCurrentItem c' m)), r)
    /\ placed (determineItemsPerScreen m) arr (nMenuItems m) c' s'
    /\ (r = 0 \/ r = 1)
    /\ (r = 0 -> c' = nCurrentItem m /\ s' = nScreen m /\ nScreen m = 0
                  /\ ((forall j, enabled arr j = false)
                      \/ none_between arr (-1) (nCurrentItem m)))
    /\ (r = 1 -> c' <= nCurrentItem m /\ c' + s' < nCurrentItem m + nScreen m)
    /\ ((forall j, enabled arr j = false) -> c' = nCurrentItem m).
Proof.
  intros Hm Ha Harr Hgeo Hcur.
  destruct (menuUp_run st p m a arr Hm Ha Harr Hgeo)
    as (b & found & Hb & Hnone & Hfound & Hrun).
  destruct (geometry_ok_spec _ _ Hgeo) as (Hips & Hlen & _).
  destruct (up_cursor (determineItemsPerScreen m) (nCurrentItem m) (nScreen m)
                      b found) as [[c' s'] r] eqn:Hup.
  destruct (up_cursor_placed _ arr _ _ _ _ _ Hips Hlen
              (placed_of_ok m arr Hgeo Hcur) (conj Hb (conj Hnone Hfound))
              c' s' r Hup) as (Hpl & Hr & Hr0 & Hr1 & Hall).
  exists c', s', r. rewrite Hrun, up_result_cursor, Hup.
  rewrite moved_store; [auto 10|assumption|].
  intros Hz. destruct (Hr0 Hz) as (-> & -> & _). auto.
Qed.

Lemma menuDown_step (st : state W) p m a arr :
  menus st !! p = Some m -> pItems m = Some a -> itemArrays st !! a = Some arr ->
  geometry_ok m arr = true -> cursor_ok m arr = true ->
  exists c' s' r,
    menuDown st p
    = Done (store_menu st p (set_nScreen s' (set_nCurrentItem c' m)), r)
    /\ placed (determineItemsPerScreen m) arr (nMenuItems m) c' s'.
Proof.
  intros Hm Ha Harr Hgeo Hcur.
  destruct (menuDown_run st p m a arr Hm Ha Harr Hgeo)
    as (b & found & Hb & Hnone & Hfound & Hrun).
  destruct (geometry_ok_spec _ _ Hgeo) as (Hips & Hlen & _).
  destruct (down_cursor (determineItemsPerScreen m) (nMenuItems m)
                        (nCurrentItem m) (nScreen m) b found)
    as [[c' s'] r] eqn:Hdown.
  destruct (down_cursor_placed _ arr _ _ _ _ _ Hips Hlen
              (placed_of_ok m arr Hgeo Hcur) (conj Hb (conj Hnone Hfound))
              c' s' r Hdown) as (Hpl & Hr & Hr0).
  exists c', s', r. rewrite Hrun, down_result_cursor, Hdown.
  rewrite moved_store; auto.
Qed.

(** *** [menuPositionTop] *)

Lemma menuPositionTop_loop_top p a arr :
  forall fuel (st : state W) m,
    menus st !! p = Some m -> pItems m = Some a -> itemArrays st !! a = Some arr ->
    geometry_ok m arr = true -> cursor_ok m arr = true ->
    nCurrentItem m + nScreen m < Z.of_nat fuel ->
    exists c',
      menuPositionTop_loop fuel st p
      = Done (store_menu st p (set_nScreen 0 (set_nCurrentItem c' m)))
      /\ placed (determineItemsPerScreen m) arr (nMenuItems m) c' 0
      /\ ((forall j, enabled arr j = false) -> c' = nCurrentItem m)
      /\ ((forall j, enabled arr j = false) \/ none_between arr (-1) c').
Proof.
  induction fuel as [|fuel IH]; intros st m Hm Ha Harr Hgeo Hcur Hfuel.
  - destruct (geometry_ok_spec _ _ Hgeo) as (_ & _ & _ & Hc & Hs & _). lia.
  - cbn [menuPositionTop_loop].
    destruct (menuUp_step st p m a arr Hm Ha Harr Hgeo Hcur)
      as (c1 & s1 & r & Hup & Hpl & Hr & Hr0 & Hr1 & Hall).
    rewrite Hup. osimpl. destruct Hr as [->| ->].
    + destruct (Hr0 eq_refl) as (-> & -> & Hs0 & Htop). cbn [Z.eqb].
      exists (nCurrentItem m). rewrite Hs0 in *. auto.
    + cbn [Z.eqb]. destruct (Hr1 eq_refl) as (Hle & Hlt).
      pose proof Hpl as (Hc1 & Hs1 & _).
      set (m1 := set_nScreen s1 (set_nCurrentItem c1 m)).
      destruct (IH (store_menu st p m1) m1) as (c' & Hloop & Hpl' & Hall' & Htop').
      * cbn. apply lookup_insert_eq.
      * assumption.
      * assumption.
      * apply geometry_ok_set; assumption.
      * apply cursor_ok_set; assumption.
      * cbn. lia.
      * exists c'. rewrite Hloop, store_menu_twice.
        split; [reflexivity|]. split; [assumption|]. split; [|assumption].
        intros Hnone. rewrite (Hall' Hnone). cbn. auto.
Qed.

Lemma menuPositionTop_top (st : state W) p m a arr :
  menus st !! p = Some m -> pItems m = Some a -> itemArrays st !! a = Some arr ->
  geometry_ok m arr = true -> cursor_ok m arr = true ->
  exists c',
    menuPositionTop st p
    = Done (store_menu st p (set_nScreen 0 (set_nCurrentItem c' m)))
    /\ placed (determineItemsPerScreen m) arr (nMenuItems m) c' 0
    /\ ((forall j, enabled arr j = false) -> c' = nCurrentItem m)
    /\ ((forall j, enabled arr j = false) \/ none_between arr (-1) c').
Proof.
  intros Hm Ha Harr Hgeo Hcur. apply (menuPositionTop_loop_top p a arr); try assumption.
  destruct (geometry_ok_spec _ _ Hgeo) as (_ & _ & Hn & Hc & Hs & Hlast). lia.
Qed.

(** C4, as the code has it: on a menu with a legal cursor (the current item
    is one of at most 128 items and is enabled, unless no item is; the screen
    shown is the screen of the current item, or one reached from it across
    screens that show no enabled item), [menuPositionTop] returns with the
    screen index 0 and the current item at the lowest enabled index; if no
    item is enabled, the current item index is what it was. *)
Theorem menuPositionTop_reaches_first_enabled (st : state W) p m a arr :
  menus st !! p = Some m -> pItems m = Some a -> itemArrays st !! a = Some arr ->
  geometry_ok m arr = true -> cursor_ok m arr = true ->
  exists st' m',
    menuPositionTop st p = Done st'
    /\ menus st' !! p = Some m'
    /\ nScreen m' = 0
    /\ (no_enabled arr = true -> nCurrentItem m' = nCurrentItem m)
    /\ (no_enabled arr = false ->
        enabled arr (nCurrentItem m') = true
        /\ forall j, enabled arr j = true -> nCurrentItem m' <= j).
Proof.
  intros Hm Ha Harr Hgeo Hcur.
  destruct (menuPositionTop_top st p m a arr Hm Ha Harr Hgeo Hcur)
    as (c' & Hrun & (Hc & Hs & Hpl) & Hall & Htop).
  eexists _, _. split; [exact Hrun|]. split; [cbn; apply lookup_insert_eq|].
  split; [reflexivity|]. cbn [nCurrentItem set_nScreen set_nCurrentItem]. split.
  - intros Hnone. apply Hall. apply no_enabled_spec. assumption.
  - intros Hsome.
    assert (Hnot : ~ (forall j, enabled arr j = false)).
    { intros Hnone. apply no_enabled_spec in Hnone. congruence. }
    destruct Hpl as [Hnone|[Hen _]]; [contradiction|].
    destruct Htop as [Hnone|Htop]; [contradiction|].
    split; [assumption|]. intros j Hj.
    pose proof (enabled_range _ _ Hj) as Hjr.
    destruct (Z_le_gt_dec c' j); [assumption|].
    rewrite (Htop j) in Hj by lia. discriminate.
Qed.

(** *** [menuBack] *)

Lemma menuBack_root (st : state W) p m :
  menus st !! p = Some m -> pParentMenu m = None ->
  menuBack st p = Done (st, p).
Proof.
  intros Hm Hroot. unfold menuBack, load_menu. rewrite Hm. osimpl.
  rewrite Hroot. reflexivity.
Qed.

Lemma menuBack_child (st : state W) p m parent :
  menus st !! p = Some m -> pParentMenu m = Some parent ->
  menuBack st p
  = (st' ← (if nSelectedItem m =? -1 then menuPositionTop st p
             else if nSelectedItem m =? -2 then Done st
             else
               screen ← menuGetScreen m (nSelectedItem m);
               Done (store_menu st p
                       (set_nScreen screen
                          (set_nCurrentItem (to_uint8 (nSelectedItem m)) m))));
     Done (st', parent)).
Proof.
  intros Hm Hparent. unfold menuBack, load_menu. rewrite Hm. osimpl.
  rewrite Hparent. reflexivity.
Qed.

Lemma menuBack_selected (st : state W) p m parent :
  menus st !! p = Some m -> pParentMenu m = Some parent ->
  0 <= nSelectedItem m < 128 -> determineItemsPerScreen m <> 0 ->
  menuBack st p
  = Done (store_menu st p
            (set_nScreen (nSelectedItem m / determineItemsPerScreen m)
               (set_nCurrentItem (nSelectedItem m) m)),
          parent).
Proof.
  intros Hm Hparent Hsel Hips. rewrite (menuBack_child st p m parent Hm Hparent).
  pose proof (determineItemsPerScreen_range m).
  destruct (Z.eqb_spec (nSelectedItem m) (-1)); [lia|].
  destruct (Z.eqb_spec (nSelectedItem m) (-2)); [lia|].
  rewrite menuGetScreen_ok by lia. osimpl.
  rewrite to_uint8_id by lia. reflexivity.
Qed.

(** C6, as the code has it: [menuBack] on a menu without parent returns the
    menu and leaves the state as it is.  With a parent it returns the parent,
    after: (a) for the selected-item index -1, on a legal cursor, the screen
    set to 0 and the current item set to the lowest enabled index (left as it
    is when no item is enabled); (b) for -2, nothing; (c) for an index from
    0 to 127, with a row left for items, the current item set to it and the
    screen set to its screen. *)
Theorem menuBack_cases (st : state W) p m :
  menus st !! p = Some m ->
  (pParentMenu m = None -> menuBack st p = Done (st, p))
  /\ (forall parent, pParentMenu m = Some parent ->
       (nSelectedItem m = -1 ->
          forall a arr,
            pItems m = Some a -> itemArrays st !! a = Some arr ->
            geometry_ok m arr = true -> cursor_ok m arr = true ->
            exists c',
              menuBack st p
              = Done (store_menu st p (set_nScreen 0 (set_nCurrentItem c' m)),
                      parent)
              /\ (no_enabled arr = true -> c' = nCurrentItem m)
              /\ (no_enabled arr = false ->
                  enabled arr c' = true
                  /\ forall j, enabled arr j = true -> c' <= j))
       /\ (nSelectedItem m = -2 -> menuBack st p = Done (st, parent))
       /\ (0 <= nSelectedItem m < 128 -> determineItemsPerScreen m <> 0 ->
           menuBack st p
           = Done (store_menu st p
                     (set_nScreen (nSelectedItem m / determineItemsPerScreen m)
                        (set_nCurrentItem (nSelectedItem m) m)),
                   parent))).
Proof.
  intros Hm. split; [apply menuBack_root; assumption|].
  intros parent Hparent. split; [|split].
  - intros Hsel a arr Ha Harr Hgeo Hcur.
    rewrite (menuBack_child st p m parent Hm Hparent), Hsel. cbn [Z.eqb].
    destruct (menuPositionTop_top st p m a arr Hm Ha Harr Hgeo Hcur)
      as (c' & Hrun & (Hc & Hs & Hpl) & Hall & Htop).
    exists c'. rewrite Hrun. osimpl. split; [reflexivity|]. split.
    + intros Hnone. apply Hall. apply no_enabled_spec. assumption.
    + intros Hsome.
      assert (Hnot : ~ (forall j, enabled arr j = false)).
      { intros Hnone. apply no_enabled_spec in Hnone. congruence. }
      destruct Hpl as [Hnone|[Hen _]]; [contradiction|].
      destruct Htop as [Hnone|Htop']; [contradiction|].
      split; [assumption|]. intros j Hj.
      pose proof (enabled_range _ _ Hj) as Hjr.
      destruct (Z_le_gt_dec c' j); [assumption|].
      rewrite (Htop' j) in Hj by lia. discriminate.
  - intros Hsel. rewrite (menuBack_child st p m parent Hm Hparent), Hsel.
    reflexivity.
  - intros Hsel Hips. apply menuBack_selected; assumption.
Qed.

(** *** The invariant *)

Lemma determineItemsPerScreen_ext m m' :
  reservedAreas m' = reservedAreas m ->
  determineItemsPerScreen m' = determineItemsPerScreen m.
Proof. intros H. unfold determineItemsPerScreen. rewrite H. reflexivity. Qed.

Lemma menuEnter_keeps_menu_inv (st : state W) p :
  menu_inv st p = true ->
  exists st' r, menuEnter st p = Done (st', r) /\ menu_inv st' p = true.
Proof.
  intros Hinv. pose proof Hinv as Hinv0.
  apply menu_inv_parts in Hinv
    as (m & a & arr & Hm & Ha & Harr & Hgeo & Hcur & Hsel & Hlinks).
  destruct (geometry_ok_spec _ _ Hgeo) as (Hips & Hlen & Hn & Hc & Hs & Hlast).
  destruct (Z.eq_dec (nCurrentItem m / determineItemsPerScreen m) (nScreen m))
    as [Hon|Hoff].
  2:{ exists st, p. split; [|assumption].
      apply (menuEnter_off_screen st p m); try assumption; lia. }
  destruct (lookup_lt_is_Some_2 arr (Z.to_nat (nCurrentItem m))) as [it Hit]; [lia|].
  assert (Hsub : forall q, pSubMenu it = Some q -> is_Some (menus st !! q)).
  { intros q Hq. unfold links_ok in Hlinks. rewrite forallb_forall in Hlinks.
    specialize (Hlinks it). rewrite Hq in Hlinks.
    destruct (menus st !! q); [eauto|].
    exfalso. apply Bool.diff_false_true. apply Hlinks.
    apply list_elem_of_In. apply list_elem_of_lookup. eauto. }
  destruct (menuEnter_on_screen st p m it Hm ltac:(lia) Hips Hon
              (read_item_at st m a arr (nCurrentItem m) it Ha Harr (proj1 Hc) Hit) Hsub)
    as (st' & r & m' & Hrun & Hm' & Hselected).
  exists st', r. split; [assumption|].
  destruct (menuEnter_frame st st' p r Hrun) as (Hitems & Hnone & Hnodes).
  destruct (Hnodes p m Hm) as (m'' & Hm'' & Hcontent & Hc' & Hs' & _ & _).
  rewrite Hm' in Hm''. injection Hm'' as <-.
  destruct Hcontent as (HpItems & _ & _ & _ & HnItems & Hres).
  pose proof (determineItemsPerScreen_ext m m' Hres) as Hdips.
  apply (menu_inv_intro st' p m' a arr).
  - assumption.
  - congruence.
  - congruence.
  - unfold geometry_ok in *. rewrite Hdips, HnItems, Hc', Hs'. assumption.
  - unfold cursor_ok in *. rewrite Hdips, Hc', Hs'. assumption.
  - unfold selected_ok in *. rewrite HnItems, Hselected.
    destruct (Z.gtb_spec (nSelectedItem m) (-1)); [|assumption].
    apply andb_true_iff in Hsel as [Hrange Hsel].
    apply andb_true_iff. split.
    + apply andb_true_iff. split; [apply Z.leb_le|apply Z.ltb_lt]; lia.
    + unfold cursor_ok in Hcur. apply orb_true_iff in Hcur as [Hcur|Hcur].
      * rewrite Hcur. reflexivity.
      * apply andb_true_iff in Hcur as [Hcur _]. rewrite Hcur.
        apply orb_true_r.
  - revert Hlinks. apply links_ok_mono. intros q [x Hx].
    destruct (Hnodes q x Hx) as (x' & Hx' & _). eauto.
Qed.

Lemma menuBack_keeps_menu_inv (st : state W) p :
  menu_inv st p = true ->
  exists st' r, menuBack st p = Done (st', r) /\ menu_inv st' p = true.
Proof.
  intros Hinv. pose proof Hinv as Hinv0.
  apply menu_inv_parts in Hinv
    as (m & a & arr & Hm & Ha & Harr & Hgeo & Hcur & Hsel & Hlinks).
  destruct (geometry_ok_spec _ _ Hgeo) as (Hips & Hlen & Hn & Hc & Hs & Hlast).
  destruct (pParentMenu m) as [parent|] eqn:Hparent.
  2:{ exists st, p. split; [apply (menuBack_root st p m); assumption|assumption]. }
  destruct (Z.eq_dec (nSelectedItem m) (-1)) as [Hs1|Hs1].
  { destruct (menuPositionTop_top st p m a arr Hm Ha Harr Hgeo Hcur)
      as (c' & Hrun & Hpl & _).
    rewrite (menuBack_child st p m parent Hm Hparent), Hs1. cbn [Z.eqb].
    rewrite Hrun. osimpl.
    eexists _, _. split; [reflexivity|].
    apply (menu_inv_store st p m a arr); assumption. }
  destruct (Z.eq_dec (nSelectedItem m) (-2)) as [Hs2|Hs2].
  { exists st, parent. split; [|assumption].
    rewrite (menuBack_child st p m parent Hm Hparent), Hs2. reflexivity. }
  unfold selected_ok in Hsel.
  apply andb_true_iff in Hsel as [Hrange Hsel].
  apply andb_true_iff in Hrange as [Hlo Hhi].
  apply Z.leb_le in Hlo. apply Z.ltb_lt in Hhi.
  rewrite (menuBack_selected st p m parent Hm Hparent) by lia.
  eexists _, _. split; [reflexivity|].
  apply (menu_inv_store st p m a arr); try assumption.
  pose proof (div_bounds (nSelectedItem m) _ ltac:(lia) Hips).
  pose proof (div_mono (nSelectedItem m) (nMenuItems m - 1) _ Hips ltac:(lia)).
  split; [lia|]. split; [lia|].
  apply orb_true_iff in Hsel as [Hsel|Hsel];
    [apply orb_true_iff in Hsel as [Hsel|Hsel]|].
  - left. apply no_enabled_spec. assumption.
  - apply Z.ltb_lt in Hsel. lia.
  - right. split; [assumption|]. left. reflexivity.
Qed.

(** C3, as the code has it.  The invariant the operations keep is
    [menu_inv]: the menu has at most 128 items, all present, and at least one
    row for items; the current item is one of them and is enabled, unless no
    item is; the screen shown is the screen of the current item, or one
    reached from it across screens that show no enabled item; the selected
    item is -2, -1 or an enabled item (unless no item is enabled); submenu
    links point to menus.  From a state with this invariant [menuUp],
    [menuDown], [menuEnter] and [menuBack] return, in a state with it. *)
Theorem navigation_keeps_menu_inv (st : state W) p op :
  is_move op = true ->
  menu_inv st p = true ->
  exists st' r, run op st p = Done (st', r) /\ menu_inv st' p = true.
Proof.
  intros Hop Hinv. destruct op; try discriminate; cbn [run].
  - pose proof Hinv as Hinv0.
    apply menu_inv_parts in Hinv
      as (m & a & arr & Hm & Ha & Harr & Hgeo & Hcur & Hsel & Hlinks).
    destruct (menuUp_step st p m a arr Hm Ha Harr Hgeo Hcur)
      as (c' & s' & r & Hrun & Hpl & _).
    rewrite Hrun. osimpl. eexists _, _. split; [reflexivity|].
    apply (menu_inv_store st p m a arr); assumption.
  - pose proof Hinv as Hinv0.
    apply menu_inv_parts in Hinv
      as (m & a & arr & Hm & Ha & Harr & Hgeo & Hcur & Hsel & Hlinks).
    destruct (menuDown_step st p m a arr Hm Ha Harr Hgeo Hcur)
      as (c' & s' & r & Hrun & Hpl).
    rewrite Hrun. osimpl. eexists _, _. split; [reflexivity|].
    apply (menu_inv_store st p m a arr); assumption.
  - apply menuEnter_keeps_menu_inv. assumption.
  - apply menuBack_keeps_menu_inv. assumption.
Qed.

(** *** Reversibility *)

Lemma placed_home m arr :
  geometry_ok m arr = true -> cursor_home m arr = true ->
  enabled arr (nCurrentItem m) = true
  /\ nScreen m = nCurrentItem m / determineItemsPerScreen m.
Proof.
  intros _ H. unfold cursor_home in H. apply andb_true_iff in H as [Hen Hs].
  apply Z.eqb_eq in Hs. auto.
Qed.

Lemma moved_changed (st st1 : state W) p m c s r :
  moved st p m (c, s, r) = (st1, 1) ->
  r = 1 /\ st1 = store_menu st p (set_nScreen s (set_nCurrentItem c m)).
Proof.
  unfold moved. intros H. injection H as H1 ->. cbn in H1. auto.
Qed.

(** C5, as the code has it: from a state in which the current item is enabled
    and the screen shown is its screen (on a menu of at most 128 items with a
    row left for items), and from which both [menuDown] and [menuUp] return 1,
    [menuUp] after [menuDown] and [menuDown] after [menuUp] return 1 and give
    back the state they started from, the pair (nCurrentItem, nScreen)
    included. *)
Theorem menuDown_menuUp_inverse_at_home (st st1 st2 : state W) p m a arr :
  menus st !! p = Some m -> pItems m = Some a -> itemArrays st !! a = Some arr ->
  geometry_ok m arr = true -> cursor_home m arr = true ->
  menuDown st p = Done (st1, 1) ->
  menuUp st p = Done (st2, 1) ->
  menuUp st1 p = Done (st, 1)
  /\ menuDown st2 p = Done (st, 1)
  /\ cursor st p = Some (nCurrentItem m, nScreen m).
Proof.
  intros Hm Ha Harr Hgeo Hhome Hdown Hup.
  destruct (placed_home m arr Hgeo Hhome) as [Hen Hs].
  destruct (geometry_ok_spec _ _ Hgeo) as (Hips & Hlen & Hn & Hc & Hsr & Hlast).
  assert (Hcur : cursor_ok m arr = true).
  { unfold cursor_ok. rewrite Hen. apply orb_true_iff. right.
    apply screen_ok_spec. left. assumption. }
  pose proof (placed_of_ok m arr Hgeo Hcur) as Hpl.
  split; [|split].
  - destruct (menuDown_run st p m a arr Hm Ha Harr Hgeo)
      as (b & found & Hb & Hnone & Hfound & Hrun).
    rewrite Hrun, down_result_cursor in Hdown. injection Hdown as Hdown.
    destruct (down_cursor _ _ _ _ b found) as [[c1 s1] r] eqn:Hdc.
    apply moved_changed in Hdown as [-> ->].
    destruct (down_cursor_placed _ arr _ _ _ _ _ Hips Hlen Hpl
                (conj Hb (conj Hnone Hfound)) c1 s1 1 Hdc) as ((Hc1 & Hs1 & _) & _).
    set (m1 := set_nScreen s1 (set_nCurrentItem c1 m)).
    assert (Hm1 : menus (store_menu st p m1) !! p = Some m1)
      by (cbn; apply lookup_insert_eq).
    destruct (menuUp_run (store_menu st p m1) p m1 a arr Hm1 Ha Harr
                (geometry_ok_set m arr c1 s1 Hgeo Hc1 Hs1))
      as (b' & found' & Hb' & Hnone' & Hfound' & Hrun').
    rewrite Hrun', up_result_cursor.
    change (determineItemsPerScreen m1) with (determineItemsPerScreen m).
    cbn [nCurrentItem nScreen m1 set_nScreen set_nCurrentItem] in *.
    rewrite (down_up_home _ arr (nMenuItems m) (nCurrentItem m) (nScreen m)
               b found b' found' c1 s1 Hips Hlen Hc Hen Hs
               (conj Hb (conj Hnone Hfound)) Hdc (conj Hb' (conj Hnone' Hfound'))).
    unfold moved. cbn [Z.eqb]. rewrite store_menu_twice.
    replace (set_nScreen (nScreen m) (set_nCurrentItem (nCurrentItem m) m1))
      with m by (subst m1; destruct m; reflexivity).
    rewrite store_menu_same by assumption. reflexivity.
  - destruct (menuUp_run st p m a arr Hm Ha Harr Hgeo)
      as (b & found & Hb & Hnone & Hfound & Hrun).
    rewrite Hrun, up_result_cursor in Hup. injection Hup as Hup.
    destruct (up_cursor _ _ _ b found) as [[c1 s1] r] eqn:Huc.
    apply moved_changed in Hup as [-> ->].
    destruct (up_cursor_placed _ arr _ _ _ _ _ Hips Hlen Hpl
                (conj Hb (conj Hnone Hfound)) c1 s1 1 Huc) as ((Hc1 & Hs1 & _) & _).
    set (m1 := set_nScreen s1 (set_nCurrentItem c1 m)).
    assert (Hm1 : menus (store_menu st p m1) !! p = Some m1)
      by (cbn; apply lookup_insert_eq).
    destruct (menuDown_run (store_menu st p m1) p m1 a arr Hm1 Ha Harr
                (geometry_ok_set m arr c1 s1 Hgeo Hc1 Hs1))
      as (b' & found' & Hb' & Hnone' & Hfound' & Hrun').
    rewrite Hrun', down_result_cursor.
    change (determineItemsPerScreen m1) with (determineItemsPerScreen m).
    cbn [nCurrentItem nScreen nMenuItems m1 set_nScreen set_nCurrentItem] in *.
    rewrite (up_down_home _ arr (nMenuItems m) (nCurrentItem m) (nScreen m)
               b found b' found' c1 s1 Hips Hlen Hc Hen Hs
               (conj Hb (conj Hnone Hfound)) Huc (conj Hb' (conj Hnone' Hfound'))).
    unfold moved. cbn [Z.eqb]. rewrite store_menu_twice.
    replace (set_nScreen (nScreen m) (set_nCurrentItem (nCurrentItem m) m1))
      with m by (subst m1; destruct m; reflexivity).
    rewrite store_menu_same by assumption. reflexivity.
  - unfold cursor. rewrite Hm. reflexivity.
Qed.

(** *** The frame of navigation *)

Lemma frame_of_cursor_move op (st st' : state W) p r :
  moves_cursor_only st st' p ->
  itemArrays st' = itemArrays st
  /\ nodewise (frame_node op p r) (menus st) (menus st').
Proof.
  intros H. apply moves_cursor_only_nodes in H as (Hi & Hnone & Hsome).
  split; [assumption|]. split; [assumption|].
  intros q m Hm. destruct (Hsome q m Hm) as (m' & Hm' & Hcont & Hcur & _ & Hpar).
  exists m'. split; [assumption|]. split; [assumption|]. split; [assumption|].
  left. assumption.
Qed.

(** C2, as the code has it: an operation on menu [p] leaves every item array
    as it is, creates and removes no menu node, and changes in the menu nodes
    only the cursor fields (nCurrentItem, nScreen, nSelectedItem) of [p] --
    and, for [menuEnter] alone, the parent link of the submenu it returns,
    which it sets to [p]. *)
Theorem navigation_frame (op : nav_op) (st st' : state W) p r :
  run op st p = Done (st', r) ->
  itemArrays st' = itemArrays st
  /\ nodewise (frame_node op p r) (menus st) (menus st').
Proof.
  destruct op; cbn [run].
  - destruct (menuUp st p) as [[st1 x]| |] eqn:Hrun; try discriminate. osimpl.
    intros [= <- <-]. apply frame_of_cursor_move.
    apply (menuUp_frame _ _ _ _ Hrun).
  - destruct (menuDown st p) as [[st1 x]| |] eqn:Hrun; try discriminate. osimpl.
    intros [= <- <-]. apply frame_of_cursor_move.
    apply (menuDown_frame _ _ _ _ Hrun).
  - destruct (menuPositionTop st p) as [st1| |] eqn:Hrun; try discriminate. osimpl.
    intros [= <- <-]. apply frame_of_cursor_move.
    apply (menuPositionTop_frame _ _ _ Hrun).
  - intros Hrun. destruct (menuEnter_frame st st' p r Hrun) as (Hi & Hnone & Hsome).
    split; [assumption|]. split; [assumption|].
    intros q m Hm.
    destruct (Hsome q m Hm) as (m' & Hm' & Hcont & Hc & Hs & Hsel & Hpar).
    exists m'. split; [assumption|]. split; [assumption|].
    split; [intros Hq; repeat split; auto|].
    destruct Hpar as [Hpar|[Hq Hpar]]; [left; assumption|right; auto].
  - intros Hrun. apply frame_of_cursor_move.
    apply (menuBack_frame _ _ _ _ Hrun).
  - destruct (menuTop fuel st p) as [top| |]; try discriminate. osimpl.
    intros [= <- <-]. split; [reflexivity|].
    apply nodewise_refl. intros q m. repeat split. left. reflexivity.
Qed.

(** *** [printItem] on an item without value *)

Section LayoutProperties.

Variable MENU_MARGIN LCD_COLS LCD_CHAR_WIDTH : Z.
Variable lcdGetStringLength : string -> Z.
Variable lcdGetFloatLength : spec_float -> Z -> Z.
Variable lcdGetIntLength : Z -> Z.

Local Abbreviation value_size :=
  (value_size LCD_CHAR_WIDTH lcdGetStringLength lcdGetFloatLength lcdGetIntLength).
Local Abbreviation printItem :=
  (printItem MENU_MARGIN LCD_COLS LCD_CHAR_WIDTH lcdGetStringLength
             lcdGetFloatLength lcdGetIntLength).

Lemma value_size_dummy vmem :
  value_size vmem DummyString M_STRING
  = Done (to_uint8 (lcdGetStringLength EmptyString * LCD_CHAR_WIDTH), 0,
          [Load TString DummyString]).
Proof. reflexivity. Qed.

Lemma print_value_dummy vmem valDecimals valPos page :
  print_value vmem DummyString M_STRING valDecimals valPos page
  = Done [Load TString DummyString; PrintString EmptyString valPos page].
Proof. reflexivity. Qed.

(** C10: for an item whose [pValue] is null, whatever its flags, [printItem]
    returns; it treats the value as a string ([M_STRING]) held by its local
    empty string; it reads through the value pointer only as a string and
    only from that local, and calls neither the float nor the integer print
    routine; the value it draws is the empty string, of zero width as soon as
    the driver measures the empty string as 0 characters. *)
Theorem printItem_null_value_is_empty_string
    (st : state W) (vmem : gmap N cell) p m it nItem page nrSize :
  lcdGetStringLength EmptyString = 0 ->
  menus st !! p = Some m ->
  read_item st m nItem = Done it ->
  pValue it = None ->
  exists lay evs pre,
    printItem st vmem p nItem page nrSize = Done (lay, evs)
    /\ l_pValueFlags lay = M_STRING
    /\ l_valSize lay = 0
    /\ evs = pre ++ [Load TString DummyString;
                      PrintString EmptyString (l_valPos lay) page]
    /\ (forall t ptr, In (Load t ptr) evs -> t = TString /\ ptr = DummyString)
    /\ (forall f d x pg, ~ In (PrintFloat f d x pg) evs)
    /\ (forall v x pg, ~ In (PrintInt v x pg) evs).
Proof.
  intros Hlen Hm Hit Hnull.
  unfold printItem, load_menu. rewrite Hm. osimpl. rewrite Hit. osimpl.
  rewrite Hnull. rewrite value_size_dummy. osimpl.
  rewrite Hlen. change (to_uint8 (0 * LCD_CHAR_WIDTH)) with 0.
  rewrite print_value_dummy. osimpl.
  match goal with
  | |- context [Done (?l, ?r ++ ?a ++ ?b ++ ?d)] =>
      exists l, (r ++ a ++ b ++ d), (r ++ a ++ b)
  end.
  split; [reflexivity|]. split; [reflexivity|]. split; [reflexivity|].
  split; [rewrite <- !app_assoc; reflexivity|].
  destruct (nItem =? nSelectedItem m); cbn [Datatypes.app In].
  all: split; [intros t ptr Hin|split; [intros f d x pg Hin|intros v x pg Hin]].
  all: repeat (destruct Hin as [Hin|Hin];
               [try discriminate Hin;
                try (injection Hin as <- <-; split; reflexivity)|]).
  all: contradiction.
Qed.

End LayoutProperties.


(** * Further properties of the navigation *)

(** *** [menuTop] *)

Lemma climb_add (st : state W) a b p :
  climb st (a + b) p = climb st a p ≫= climb st b.
Proof.
  revert p. induction a as [|a IH]; intros p; [reflexivity|].
  cbn [Nat.add climb]. destruct (menus st !! p) as [m|]; [|reflexivity].
  destruct (pParentMenu m) as [q|]; [apply IH|reflexivity].
Qed.

Lemma menuTop_climb (st : state W) k fuel p q :
  climb st k p = Some q -> menuTop (k + fuel) st p = menuTop fuel st q.
Proof.
  revert p. induction k as [|k IH]; intros p; cbn [climb Nat.add].
  - intros [= ->]. reflexivity.
  - cbn [menuTop]. unfold load_menu.
    destruct (menus st !! p) as [m|]; [|discriminate]. osimpl.
    destruct (pParentMenu m) as [q'|]; [|discriminate]. apply IH.
Qed.

Lemma menuTop_root (st : state W) fuel r :
  is_root st r = true -> menuTop (S fuel) st r = Done r.
Proof.
  unfold is_root. cbn [menuTop]. unfold load_menu.
  destruct (menus st !! r) as [m|]; [|discriminate]. osimpl.
  destruct (pParentMenu m); [discriminate|reflexivity].
Qed.

Lemma menuTop_timeout (st : state W) fuel :
  forall p, is_Some (climb st fuel p) -> menuTop fuel st p = Timeout.
Proof.
  induction fuel as [|fuel IH]; intros p; [reflexivity|].
  cbn [climb menuTop]. unfold load_menu.
  destruct (menus st !! p) as [m|]; [|intros [x Hx]; discriminate]. osimpl.
  destruct (pParentMenu m) as [q|]; [apply IH|intros [x Hx]; discriminate].
Qed.

Lemma climb_prefix (st : state W) a b p :
  is_Some (climb st (a + b) p) -> is_Some (climb st a p).
Proof.
  rewrite climb_add. destruct (climb st a p); [eauto|].
  intros [x Hx]. discriminate.
Qed.

Lemma climb_cycle (st : state W) k q :
  climb st (S k) q = Some q -> forall n, is_Some (climb st n q).
Proof.
  intros Hcyc n. induction n as [n IH] using lt_wf_ind.
  destruct (le_lt_dec n (S k)) as [Hle|Hgt].
  - apply (climb_prefix st n (S k - n)).
    replace (n + (S k - n))%nat with (S k) by lia. rewrite Hcyc. eauto.
  - replace n with (S k + (n - S k))%nat by lia.
    rewrite climb_add, Hcyc. cbn [mbind option_bind]. apply IH. lia.
Qed.

Lemma climb_into_cycle (st : state W) j k p q :
  climb st j p = Some q -> climb st (S k) q = Some q ->
  forall n, is_Some (climb st n p).
Proof.
  intros Hp Hcyc n. destruct (le_lt_dec n j) as [Hle|Hgt].
  - apply (climb_prefix st n (j - n)).
    replace (n + (j - n))%nat with j by lia. rewrite Hp. eauto.
  - replace n with (j + (n - j))%nat by lia.
    rewrite climb_add, Hp. cbn [mbind option_bind].
    apply (climb_cycle st k q Hcyc).
Qed.

(** X1: when the parent links from [p] lead, over [n] steps, to a menu [r]
    without parent, [menuTop] returns [r]; and it returns the same [r] from
    every menu on the way, [r] itself included. *)
Theorem menuTop_reaches_root (st : state W) (p r : N) (n fuel : nat) :
  climb st n p = Some r -> is_root st r = true -> (n < fuel)%nat ->
  menuTop fuel st p = Done r
  /\ forall k q, (k <= n)%nat -> climb st k p = Some q ->
       menuTop fuel st q = Done r.
Proof.
  intros Hclimb Hroot Hfuel.
  assert (Hfrom : forall k q, (k <= n)%nat -> climb st k p = Some q ->
            menuTop fuel st q = Done r).
  { intros k q Hk Hq.
    assert (Hrest : climb st (n - k) q = Some r).
    { replace n with (k + (n - k))%nat in Hclimb by lia.
      rewrite climb_add, Hq in Hclimb. exact Hclimb. }
    replace fuel with ((n - k) + S (fuel - S (n - k)))%nat by lia.
    rewrite (menuTop_climb st (n - k) _ q r Hrest).
    apply menuTop_root. assumption. }
  split; [|exact Hfrom].
  apply (Hfrom O p); [lia|reflexivity].
Qed.

(** X2: on parent links that run into a cycle [menuTop] never returns: no
    number of steps is enough. *)
Theorem menuTop_diverges_on_cycle (st : state W) (p q : N) (j k : nat) :
  climb st j p = Some q -> climb st (S k) q = Some q ->
  forall fuel, menuTop fuel st p = Timeout.
Proof.
  intros Hp Hcyc fuel. apply menuTop_timeout.
  apply (climb_into_cycle st j k p q Hp Hcyc).
Qed.

(** *** Entering and leaving a submenu *)

(** [menuEnter] returns another menu only after it has made [p] its parent. *)
Lemma menuEnter_links (st st' : state W) p q :
  menuEnter st p = Done (st', q) -> q <> p ->
  exists sub', menus st' !! q = Some sub' /\ pParentMenu sub' = Some p.
Proof.
  unfold menuEnter, load_menu.
  destruct (menus st !! p) as [m|] eqn:Hm; [|discriminate]. osimpl.
  destruct (menuGetScreen m _) as [scr| |]; try discriminate. osimpl.
  destruct (to_int8 scr =? nScreen m); [|intros [= <- <-] Hne; congruence].
  destruct (read_item st m _) as [it| |]; try discriminate. osimpl.
  set (st1 := if nSelectedItem m >? -1 then _ else st). clearbody st1.
  assert (Hlink : forall (st2 : state W),
            match pSubMenu it with
            | Some q0 =>
                sub ← load_menu st2 q0;
                Done (store_menu st2 q0 (set_pParentMenu (Some p) sub), q0)
            | None => Done (st2, p)
            end = Done (st', q) -> q <> p ->
            exists sub', menus st' !! q = Some sub' /\ pParentMenu sub' = Some p).
  { intros st2. destruct (pSubMenu it) as [q0|]; [|intros [= <- <-] Hne; congruence].
    unfold load_menu. destruct (menus st2 !! q0) as [sub|]; [|discriminate]. osimpl.
    intros [= <- <-] _. eexists. cbn. rewrite lookup_insert_eq.
    split; reflexivity. }
  destruct (pApplication it) as [f|]; [|apply Hlink].
  destruct (app f _ _ _ _) as [w' res].
  destruct (negb (to_uint8 res =? 0)); [intros [= <- <-] Hne; congruence|].
  apply Hlink.
Qed.

Lemma menuBack_returns_parent (st st' : state W) p r m parent :
  menus st !! p = Some m -> pParentMenu m = Some parent ->
  menuBack st p = Done (st', r) -> r = parent.
Proof.
  intros Hm Hparent. rewrite (menuBack_child st p m parent Hm Hparent).
  destruct (if nSelectedItem m =? -1 then _ else _) as [x| |]; try discriminate.
  osimpl. intros [= _ <-]. reflexivity.
Qed.

(** The invariant of a menu other than [p] survives [menuEnter] on [p]. *)
Lemma menuEnter_keeps_other_inv (st st' : state W) p r q :
  menuEnter st p = Done (st', r) -> q <> p ->
  menu_inv st q = true -> menu_inv st' q = true.
Proof.
  intros Hrun Hne Hinv.
  apply menu_inv_parts in Hinv
    as (m & a & arr & Hm & Ha & Harr & Hgeo & Hcur & Hsel & Hlinks).
  destruct (menuEnter_frame st st' p r Hrun) as (Hitems & Hnone & Hnodes).
  destruct (Hnodes q m Hm) as (m' & Hm' & Hcontent & Hc' & Hs' & Hsel' & _).
  specialize (Hsel' Hne).
  destruct Hcontent as (HpItems & _ & _ & _ & HnItems & Hres).
  pose proof (determineItemsPerScreen_ext m m' Hres) as Hdips.
  apply (menu_inv_intro st' q m' a arr).
  - assumption.
  - congruence.
  - congruence.
  - unfold geometry_ok in *. rewrite Hdips, HnItems, Hc', Hs'. assumption.
  - unfold cursor_ok in *. rewrite Hdips, Hc', Hs'. assumption.
  - unfold selected_ok in *. rewrite HnItems, Hsel'. assumption.
  - revert Hlinks. apply links_ok_mono. intros q0 [x Hx].
    destruct (Hnodes q0 x Hx) as (x' & Hx' & _). eauto.
Qed.

(** X3: leaving the submenu that [menuEnter] has just entered leads back to
    the menu it was entered from, whose current item and screen are what they
    were before the submenu was entered. *)
Theorem menuEnter_menuBack_round_trip (st st' : state W) (p q : N) :
  menuEnter st p = Done (st', q) -> q <> p -> menu_inv st q = true ->
  exists st'',
    menuBack st' q = Done (st'', p)
    /\ cursor st'' p = cursor st p
    /\ menus st'' !! p = menus st' !! p
    /\ itemArrays st'' = itemArrays st.
Proof.
  intros Henter Hne Hinv.
  pose proof (menuEnter_keeps_other_inv st st' p q q Henter Hne Hinv) as Hinv'.
  destruct (menuEnter_links st st' p q Henter Hne) as (sub' & Hsub' & Hparent).
  destruct (menuBack_keeps_menu_inv st' q Hinv') as (st'' & r & Hback & _).
  pose proof (menuBack_returns_parent st' st'' q r sub' p Hsub' Hparent Hback) as ->.
  exists st''. split; [assumption|].
  pose proof (menuBack_frame st' st'' q p Hback)
    as (Hitems & _ & _ & m0 & c & s & Hm0 & Hmenus).
  destruct (menuEnter_frame st st' p q Henter) as (Hitems' & Hnone & Hnodes).
  assert (Hp : menus st'' !! p = menus st' !! p).
  { rewrite Hmenus. apply lookup_insert_ne. assumption. }
  split; [|split; [assumption|congruence]].
  unfold cursor. rewrite Hp.
  destruct (menus st !! p) as [m|] eqn:Hm.
  - destruct (Hnodes p m Hm) as (m' & Hm' & _ & Hc & Hs & _).
    rewrite Hm'. cbn. rewrite Hc, Hs. reflexivity.
  - rewrite (Hnone p Hm). reflexivity.
Qed.

(** X4: an item that leads back to the menu its own menu was entered from
    closes the parent links into a cycle: after [menuEnter] on it, [menuTop]
    returns from neither of the two menus. *)
Theorem menuEnter_back_item_makes_cycle (st st' : state W) (p q : N) (m : menu_t) :
  menus st !! p = Some m -> pParentMenu m = Some q -> q <> p ->
  menuEnter st p = Done (st', q) ->
  forall fuel, menuTop fuel st' p = Timeout /\ menuTop fuel st' q = Timeout.
Proof.
  intros Hm Hparent Hne Henter.
  destruct (menuEnter_links st st' p q Henter Hne) as (sub' & Hsub' & Hparent').
  destruct (menuEnter_frame st st' p q Henter) as (_ & _ & Hnodes).
  destruct (Hnodes p m Hm) as (m' & Hm' & _ & _ & _ & _ & Hpar).
  assert (Hpq : pParentMenu m' = Some q).
  { destruct Hpar as [Hpar|[Heq _]]; [congruence|congruence]. }
  assert (Hcp : climb st' 2 p = Some p).
  { cbn [climb]. rewrite Hm', Hpq, Hsub', Hparent'. reflexivity. }
  assert (Hcq : climb st' 2 q = Some q).
  { cbn [climb]. rewrite Hsub', Hparent', Hm', Hpq. reflexivity. }
  intros fuel. split; apply menuTop_timeout.
  - apply (climb_cycle st' 1 p Hcp).
  - apply (climb_cycle st' 1 q Hcq).
Qed.

(** *** What [menuUp] and [menuDown] return *)

Lemma store_cursor_same (st : state W) p m :
  menus st !! p = Some m ->
  store_menu st p (set_nScreen (nScreen m) (set_nCurrentItem (nCurrentItem m) m)) = st.
Proof. intros Hm. rewrite menu_eta. apply store_menu_same. assumption. Qed.

(** X5: on a menu with a legal cursor [menuUp] returns 0 or 1.  It returns 0
    only on the first screen with no enabled item above the current one, and
    then leaves the state as it is; when it returns 1 the cursor has moved
    up: the current item is not below where it was and the sum of item and
    screen index has gone down. *)
Theorem menuUp_reports_change (st : state W) p m a arr :
  menus st !! p = Some m -> pItems m = Some a -> itemArrays st !! a = Some arr ->
  geometry_ok m arr = true -> cursor_ok m arr = true ->
  exists st' r m',
    menuUp st p = Done (st', r)
    /\ menus st' !! p = Some m'
    /\ (r = 0 \/ r = 1)
    /\ (r = 0 ->
        st' = st /\ nScreen m = 0
        /\ forall j, j < nCurrentItem m -> enabled arr j = false)
    /\ (r = 1 ->
        nCurrentItem m' <= nCurrentItem m
        /\ nCurrentItem m' + nScreen m' < nCurrentItem m + nScreen m).
Proof.
  intros Hm Ha Harr Hgeo Hcur.
  destruct (menuUp_step st p m a arr Hm Ha Harr Hgeo Hcur)
    as (c' & s' & r & Hrun & Hpl & Hr & Hr0 & Hr1 & _).
  eexists _, r, _. split; [exact Hrun|].
  split; [cbn; apply lookup_insert_eq|]. split; [assumption|]. split.
  - intros Hz. destruct (Hr0 Hz) as (-> & -> & Hs0 & Htop).
    split; [apply store_cursor_same; assumption|]. split; [assumption|].
    intros j Hj. destruct Htop as [Hnone|Hnone]; [apply Hnone|].
    destruct (Z_lt_le_dec j 0) as [Hneg|Hnonneg].
    + unfold enabled. destruct (Z.leb_spec 0 j); [lia|reflexivity].
    + apply Hnone. lia.
  - intros Ho. cbn [nCurrentItem nScreen set_nScreen set_nCurrentItem].
    apply Hr1. assumption.
Qed.

Lemma down_cursor_measure ips arr n c s b found :
  0 < ips -> Z.of_nat (length arr) = n ->
  placed ips arr n c s -> scan_down arr n c b found ->
  forall c' s' r, down_cursor ips n c s b found = (c', s', r) ->
    (r = 0 -> s = (n - 1) / ips /\ forall j, c < j -> enabled arr j = false)
    /\ (r = 1 -> c <= c' /\ c + s < c' + s').
Proof.
  intros Hips Hlen (Hc & Hs & Hcur) (Hb & Hnone & Hfound) c' s' r Hdown.
  apply down_cursor_cases in Hdown.
  mono ips Hips c (n - 1). mono ips Hips b c. mono ips Hips b (n - 1).
  destruct Hdown as [(_ & _ & _ & -> & -> & ->)
                    |[(_ & _ & _ & -> & -> & ->)
                     |(Hsame & Hnext & [(Hlt & -> & -> & ->)|(Hge & -> & -> & ->)])]];
    (split; [intros Hz; try discriminate Hz|intros Ho; try discriminate Ho; try lia]).
  split; [lia|].
  assert (Hlast : s = (n - 1) / ips) by lia.
  assert (Hnofound : found = false).
  { destruct found; [|reflexivity]. exfalso.
    pose proof (enabled_range _ _ Hfound) as Hbr.
    assert (Hbs : b / ips <= s) by lia.
    destruct Hcur as [Hall|[Hen Hscr]].
    - rewrite Hall in Hfound. discriminate.
    - destruct Hscr as [Heq|[[Hlt Hfar]|[Hlt Hfar]]].
      + assert (b / ips = s) by lia. apply (Hsame eq_refl); lia.
      + specialize (Hfar b Hfound ltac:(lia)). lia.
      + lia. }
  subst found. subst b.
  intros j Hj. destruct (enabled arr j) eqn:Hen; [|reflexivity].
  pose proof (enabled_range _ _ Hen) as Hjr.
  rewrite (Hnone j) in Hen by lia. discriminate.
Qed.

(** X6: on a menu with a legal cursor [menuDown] returns 0 or 1.  It returns 0
    only on the last screen with no enabled item below the current one, and
    then leaves the state as it is; when it returns 1 the cursor has moved
    down: the current item is not above where it was and the sum of item and
    screen index has gone up. *)
Theorem menuDown_reports_change (st : state W) p m a arr :
  menus st !! p = Some m -> pItems m = Some a -> itemArrays st !! a = Some arr ->
  geometry_ok m arr = true -> cursor_ok m arr = true ->
  exists st' r m',
    menuDown st p = Done (st', r)
    /\ menus st' !! p = Some m'
    /\ (r = 0 \/ r = 1)
    /\ (r = 0 ->
        st' = st
        /\ nScreen m = (nMenuItems m - 1) / determineItemsPerScreen m
        /\ forall j, nCurrentItem m < j -> enabled arr j = false)
    /\ (r = 1 ->
        nCurrentItem m <= nCurrentItem m'
        /\ nCurrentItem m + nScreen m < nCurrentItem m' + nScreen m').
Proof.
  intros Hm Ha Harr Hgeo Hcur.
  destruct (menuDown_run st p m a arr Hm Ha Harr Hgeo)
    as (b & found & Hb & Hnone & Hfound & Hrun).
  destruct (geometry_ok_spec _ _ Hgeo) as (Hips & Hlen & _).
  destruct (down_cursor (determineItemsPerScreen m) (nMenuItems m)
                        (nCurrentItem m) (nScreen m) b found)
    as [[c' s'] r] eqn:Hdown.
  pose proof (placed_of_ok m arr Hgeo Hcur) as Hplaced.
  destruct (down_cursor_placed _ arr _ _ _ _ _ Hips Hlen Hplaced
              (conj Hb (conj Hnone Hfound)) c' s' r Hdown) as (Hpl & Hr & Hr0).
  destruct (down_cursor_measure _ arr _ _ _ _ _ Hips Hlen Hplaced
              (conj Hb (conj Hnone Hfound)) c' s' r Hdown) as (Hz & Ho).
  rewrite down_result_cursor, Hdown in Hrun.
  rewrite moved_store in Hrun by auto.
  eexists _, r, _. split; [exact Hrun|].
  split; [cbn; apply lookup_insert_eq|]. split; [assumption|]. split.
  - intros Hr_. destruct (Hr0 Hr_) as (-> & ->). destruct (Hz Hr_) as (Hlast & Hbelow).
    split; [apply store_cursor_same; assumption|]. split; assumption.
  - intros Hr_. cbn [nCurrentItem nScreen set_nScreen set_nCurrentItem].
    apply Ho. assumption.
Qed.

(** *** [menuPositionTop] leaves nothing to do *)

Lemma menuUp_unchanged (st st' : state W) p :
  menuUp st p = Done (st', 0) -> st' = st.
Proof.
  unfold menuUp, load_menu.
  destruct (menus st !! p) as [m|] eqn:Hm; [|discriminate]. osimpl.
  destruct (menuUp_scan _ _ _ _) as [[b found]| |]; try discriminate. osimpl.
  destruct (menuGetScreen m b); try discriminate. osimpl.
  destruct (menuGetScreen m (nCurrentItem m)); try discriminate. osimpl.
  repeat case_match; intros [= <-]; reflexivity.
Qed.

Lemma menuPositionTop_loop_fixpoint fuel :
  forall (st st' : state W) p,
    menuPositionTop_loop fuel st p = Done st' -> menuUp st' p = Done (st', 0).
Proof.
  induction fuel as [|fuel IH]; intros st st' p; cbn [menuPositionTop_loop];
    [discriminate|].
  destruct (menuUp st p) as [[st1 r]| |] eqn:Hup; try discriminate. osimpl.
  destruct (Z.eqb_spec r 0) as [->|Hr].
  - intros [= <-]. pose proof (menuUp_unchanged _ _ _ Hup) as ->. assumption.
  - apply IH.
Qed.

(** X7: whenever [menuPositionTop] returns, no matter from which state, a
    further [menuUp] returns 0 and a further [menuPositionTop] returns at
    once, both leaving the state as it is. *)
Theorem menuPositionTop_is_idempotent (st st' : state W) p :
  menuPositionTop st p = Done st' ->
  menuUp st' p = Done (st', 0) /\ menuPositionTop st' p = Done st'.
Proof.
  intros Hrun.
  pose proof (menuPositionTop_loop_fixpoint 511 st st' p Hrun) as Hup.
  split; [assumption|].
  unfold menuPositionTop. change 511%nat with (S 510).
  cbn [menuPositionTop_loop]. rewrite Hup. reflexivity.
Qed.

(** *** Menus without items and menus without rows *)

(** X8: on a menu without items, with the cursor at its initial place,
    [menuUp] and [menuDown] return 0 and [menuPositionTop] returns, all
    without a change and without a look at the item array; [menuEnter],
    which reads item 0, is undefined when the array is absent or empty. *)
Theorem navigation_on_empty_menu (st : state W) p m :
  menus st !! p = Some m ->
  nMenuItems m = 0 -> nCurrentItem m = 0 -> nScreen m = 0 ->
  determineItemsPerScreen m <> 0 ->
  menuUp st p = Done (st, 0)
  /\ menuDown st p = Done (st, 0)
  /\ menuPositionTop st p = Done st
  /\ (pItems m = None
      \/ (exists a, pItems m = Some a /\ itemArrays st !! a = Some []) ->
      menuEnter st p = Fault).
Proof.
  intros Hm Hn Hc Hs Hips.
  assert (Hup : menuUp st p = Done (st, 0)).
  { unfold menuUp, load_menu. rewrite Hm. osimpl. rewrite Hc, Hs.
    change (to_int8 (0 - 1)) with (-1). change 128%nat with (S 127).
    cbn [menuUp_scan Z.geb Z.compare]. osimpl. unfold menuGetScreen.
    destruct (Z.eqb_spec (determineItemsPerScreen m) 0); [contradiction|].
    osimpl. reflexivity. }
  split; [assumption|]. split; [|split].
  - unfold menuDown, load_menu. rewrite Hm. osimpl. rewrite Hc, Hs, Hn.
    change (to_uint8 (0 + 1)) with 1. change 256%nat with (S 255).
    cbn [menuDown_scan]. rewrite Hn. cbn [Z.ltb Z.compare]. osimpl.
    unfold menuGetScreen.
    destruct (Z.eqb_spec (determineItemsPerScreen m) 0); [contradiction|].
    osimpl. reflexivity.
  - unfold menuPositionTop. change 511%nat with (S 510).
    cbn [menuPositionTop_loop]. rewrite Hup. reflexivity.
  - intros Hitems. unfold menuEnter, load_menu. rewrite Hm. osimpl.
    rewrite Hc, Hs. change (to_int8 0) with 0. unfold menuGetScreen.
    destruct (Z.eqb_spec (determineItemsPerScreen m) 0); [contradiction|].
    osimpl. change (to_uint8 0) with 0. rewrite Z.div_0_l by assumption.
    change (to_int8 0 =? 0) with true. cbv iota.
    unfold read_item.
    destruct Hitems as [->|(a & -> & ->)]; reflexivity.
Qed.

Lemma read_item_no_timeout (st : state W) m i : read_item st m i <> Timeout.
Proof.
  unfold read_item. destruct (pItems m) as [a|]; [|discriminate].
  destruct (itemArrays st !! a) as [arr|]; [|discriminate].
  destruct (i <? 0); [discriminate|].
  destruct (arr !! Z.to_nat i); discriminate.
Qed.

Lemma menuUp_scan_no_timeout (st : state W) m :
  forall fuel x, x < Z.of_nat fuel -> x < 128 ->
    menuUp_scan fuel st m x <> Timeout.
Proof.
  induction fuel as [|fuel IH]; intros x Hfuel Hx.
  - cbn [menuUp_scan]. destruct (Z.geb_spec x 0); [lia|discriminate].
  - cbn [menuUp_scan]. destruct (Z.geb_spec x 0); [|discriminate].
    pose proof (read_item_no_timeout st m x) as Hread.
    destruct (read_item st m x) as [it| |]; osimpl; try discriminate;
      [|contradiction].
    destruct (disabled it); [|discriminate].
    rewrite to_int8_id by lia. apply IH; lia.
Qed.

Lemma menuDown_scan_no_timeout (st : state W) m :
  nMenuItems m < 256 ->
  forall fuel x, 0 <= x -> nMenuItems m - x < Z.of_nat fuel ->
    menuDown_scan fuel st m x <> Timeout.
Proof.
  intros Hn. induction fuel as [|fuel IH]; intros x Hx Hfuel.
  - cbn [menuDown_scan]. destruct (Z.ltb_spec x (nMenuItems m)); [lia|discriminate].
  - cbn [menuDown_scan]. destruct (Z.ltb_spec x (nMenuItems m)); [|discriminate].
    pose proof (read_item_no_timeout st m x) as Hread.
    destruct (read_item st m x) as [it| |]; osimpl; try discriminate;
      [|contradiction].
    destruct (disabled it); [|discriminate].
    rewrite to_uint8_id by lia. apply IH; lia.
Qed.

(** X9: when the reserved rows leave no row for items, the division in
    [menuGetScreen] is a division by zero: [menuUp], [menuDown] and
    [menuEnter] are undefined, whatever the cursor and the items. *)
Theorem navigation_without_rows_is_undefined (st : state W) p m :
  menus st !! p = Some m ->
  0 <= nMenuItems m < 256 ->
  determineItemsPerScreen m = 0 ->
  menuUp st p = Fault /\ menuDown st p = Fault /\ menuEnter st p = Fault.
Proof.
  intros Hm Hn Hips.
  assert (Hget : forall i, menuGetScreen m i = Fault).
  { intros i. unfold menuGetScreen. rewrite Hips. reflexivity. }
  split; [|split].
  - unfold menuUp, load_menu. rewrite Hm. osimpl.
    pose proof (to_int8_range (nCurrentItem m - 1)) as Hr.
    pose proof (menuUp_scan_no_timeout st m 128 (to_int8 (nCurrentItem m - 1))
                  ltac:(lia) ltac:(lia)) as Hscan.
    destruct (menuUp_scan _ _ _ _) as [[b found]| |]; [|reflexivity|contradiction].
    osimpl. rewrite !Hget. reflexivity.
  - unfold menuDown, load_menu. rewrite Hm. osimpl.
    pose proof (to_uint8_range (nCurrentItem m + 1)) as Hr.
    pose proof (menuDown_scan_no_timeout st m ltac:(lia) 256
                  (to_uint8 (nCurrentItem m + 1)) ltac:(lia) ltac:(lia)) as Hscan.
    destruct (menuDown_scan _ _ _ _) as [[b found]| |]; [|reflexivity|contradiction].
    osimpl. rewrite !Hget. reflexivity.
  - unfold menuEnter, load_menu. rewrite Hm. osimpl. rewrite Hget. reflexivity.
Qed.

(** * Properties of the screen buffer code *)

(** *** [getNextPage] *)

Lemma reserved_high r bit : 0 <= r < 256 -> 8 <= bit -> reserved r bit = false.
Proof.
  intros Hr Hbit. rewrite reserved_testbit by lia.
  destruct (Z.eq_dec r 0) as [->|Hnz]; [apply Z.bits_0|].
  apply Z.bits_above_log2; [lia|].
  assert (Z.log2 r < 8) by (apply Z.log2_lt_pow2; lia). lia.
Qed.

Lemma page_reserved_high m j : 8 <= j -> page_reserved m j = false.
Proof. intros Hj. apply reserved_high; [apply to_uint8_range|assumption]. Qed.

Lemma getNextPage_loop_returns r :
  0 <= r < 256 ->
  forall fuel page,
    0 <= page <= 29 -> (0 < fuel)%nat -> 8 - page < Z.of_nat fuel ->
    exists q, getNextPage_loop fuel r page = Done q /\ next_free r page q.
Proof.
  intros Hr. induction fuel as [|fuel IH]; intros page Hpage Hpos Hfuel; [lia|].
  cbn [getNextPage_loop]. rewrite (to_uint8_id (page + 1)) by lia.
  destruct (Z.gtb_spec (page + 1) MENU_ITEMS_PER_SCREEN) as [Hout|Hin].
  - exists 0. split; [reflexivity|]. left. split; [reflexivity|]. intros j Hj. lia.
  - unfold reserved_bit.
    destruct (Z.leb_spec 0 (page + 1)); [|lia].
    destruct (Z.ltb_spec (page + 1) 31); [|lia]. cbn [andb]. osimpl.
    destruct (reserved r (page + 1)) eqn:Hres.
    + assert (Hlow : page + 1 < 8).
      { destruct (Z_lt_le_dec (page + 1) 8); [assumption|].
        rewrite reserved_high in Hres by lia. discriminate. }
      destruct (IH (page + 1)) as (q & Hrun & Hq); try lia.
      exists q. split; [assumption|].
      destruct Hq as [(-> & Hall)|(Hq & Hfree & Hbetween)].
      * left. split; [reflexivity|]. intros j Hj.
        destruct (Z.eq_dec j (page + 1)) as [->|Hne]; [assumption|apply Hall; lia].
      * right. split; [lia|]. split; [assumption|]. intros j Hj.
        destruct (Z.eq_dec j (page + 1)) as [->|Hne]; [assumption|apply Hbetween; lia].
    + exists (page + 1). split; [reflexivity|]. right.
      split; [lia|]. split; [assumption|]. intros j Hj. lia.
Qed.

Lemma getNextPage_next_free_page_aux (m : menu_t) (page : Z) :
  0 <= page <= 29 ->
  exists q,
    getNextPage m page = Done q
    /\ next_free (to_uint8 (reservedAreas m)) page q.
Proof.
  intros Hpage. unfold getNextPage. rewrite (to_uint8_id page) by lia.
  apply (getNextPage_loop_returns _ (to_uint8_range _) 256 page); lia.
Qed.

(** X14: from a page between 0 and 29 [getNextPage] returns; it returns the
    lowest page above the given one, up to [MENU_ITEMS_PER_SCREEN], that is
    not reserved, and 0 when every such page is reserved. *)
Theorem getNextPage_next_free_page (m : menu_t) (page : Z) :
  0 <= page <= 29 ->
  exists q,
    getNextPage m page = Done q
    /\ ((q = 0
         /\ forall j, page < j <= MENU_ITEMS_PER_SCREEN -> page_reserved m j = true)
        \/ (page < q <= MENU_ITEMS_PER_SCREEN
            /\ page_reserved m q = false
            /\ forall j, page < j < q -> page_reserved m j = true)).
Proof.
  intros Hpage. unfold getNextPage. rewrite (to_uint8_id page) by lia.
  apply (getNextPage_loop_returns _ (to_uint8_range _) 256 page); lia.
Qed.

(** Whenever the loop returns, it returns the next free page. *)
Lemma getNextPage_loop_done r :
  0 <= r < 256 ->
  forall fuel page q,
    0 <= page < 255 -> getNextPage_loop fuel r page = Done q ->
    next_free r page q.
Proof.
  intros Hr. induction fuel as [|fuel IH]; intros page q Hpage; [discriminate|].
  cbn [getNextPage_loop]. rewrite (to_uint8_id (page + 1)) by lia.
  destruct (Z.gtb_spec (page + 1) MENU_ITEMS_PER_SCREEN) as [Hout|Hin].
  - intros [= <-]. left. split; [reflexivity|]. intros j Hj. lia.
  - unfold reserved_bit.
    destruct ((0 <=? page + 1) && (page + 1 <? 31)); [|discriminate]. osimpl.
    destruct (reserved r (page + 1)) eqn:Hres.
    + assert (Hlow : page + 1 < 8).
      { destruct (Z_lt_le_dec (page + 1) 8); [assumption|].
        rewrite reserved_high in Hres by lia. discriminate. }
      intros Hrun. apply IH in Hrun; [|lia].
      destruct Hrun as [(-> & Hall)|(Hq & Hfree & Hbetween)].
      * left. split; [reflexivity|]. intros j Hj.
        destruct (Z.eq_dec j (page + 1)) as [->|Hne]; [assumption|apply Hall; lia].
      * right. split; [lia|]. split; [assumption|]. intros j Hj.
        destruct (Z.eq_dec j (page + 1)) as [->|Hne]; [assumption|apply Hbetween; lia].
    + intros [= <-]. right.
      split; [lia|]. split; [assumption|]. intros j Hj. lia.
Qed.

Lemma getNextPage_done m page q :
  0 <= page < 255 -> getNextPage m page = Done q ->
  next_free (to_uint8 (reservedAreas m)) page q.
Proof.
  intros Hpage. unfold getNextPage. rewrite (to_uint8_id page) by lia.
  apply getNextPage_loop_done; [apply to_uint8_range|assumption].
Qed.

Lemma getNextPage_past m page :
  0 <= page < 255 -> MENU_ITEMS_PER_SCREEN <= page -> getNextPage m page = Done 0.
Proof.
  intros Hpage Hpast. unfold getNextPage. rewrite (to_uint8_id page) by lia.
  change 256%nat with (S 255). generalize 255%nat. intros fuel.
  cbn [getNextPage_loop]. rewrite (to_uint8_id (page + 1)) by lia.
  destruct (Z.gtb_spec (page + 1) MENU_ITEMS_PER_SCREEN); [reflexivity|lia].
Qed.

Lemma filter_none {A : Type} (f : A -> bool) (l : list A) :
  (forall x, In x l -> f x = false) -> List.filter f l = [].
Proof.
  induction l as [|x l IH]; intros H; [reflexivity|]. cbn [List.filter].
  rewrite (H x) by (left; reflexivity). apply IH. intros y Hy. apply H. right. assumption.
Qed.

Lemma In_seqZ (x lo n : Z) : In x (seqZ lo n) <-> lo <= x < lo + n.
Proof. rewrite <- list_elem_of_In. apply elem_of_seqZ. Qed.

(** The free pages after [page], from the next free page. *)
Lemma pages_after_next m page q :
  0 <= page -> next_free (to_uint8 (reservedAreas m)) page q ->
  pages_after m page = if q =? 0 then [] else q :: pages_after m q.
Proof.
  intros Hpage [(-> & Hall)|(Hq & Hfree & Hbetween)]; unfold pages_after.
  - cbn [Z.eqb]. apply filter_none. intros j Hj. apply In_seqZ in Hj.
    unfold page_reserved. rewrite Hall by lia. reflexivity.
  - destruct (Z.eqb_spec q 0); [lia|].
    replace (MENU_ITEMS_PER_SCREEN - page)
      with ((q - page - 1) + (MENU_ITEMS_PER_SCREEN - q + 1)) by lia.
    rewrite seqZ_app by lia. rewrite List.filter_app.
    rewrite filter_none.
    2:{ intros j Hj. apply In_seqZ in Hj. unfold page_reserved.
        rewrite Hbetween by lia. reflexivity. }
    replace (page + 1 + (q - page - 1)) with q by lia.
    rewrite seqZ_cons by lia. cbn [List.filter Datatypes.app].
    unfold page_reserved at 1. rewrite Hfree. cbn [negb].
    f_equal. f_equal. f_equal; lia.
Qed.

Lemma pages_after_range m page j :
  In j (pages_after m page) ->
  page < j <= MENU_ITEMS_PER_SCREEN /\ page_reserved m j = false.
Proof.
  unfold pages_after. rewrite List.filter_In, In_seqZ. intros [Hj Hfree].
  split; [lia|]. destruct (page_reserved m j); [discriminate|reflexivity].
Qed.

Lemma page_walk_pages m :
  MENU_ITEMS_PER_SCREEN <= 30 ->
  forall fuel page,
    0 <= page < 255 -> MENU_ITEMS_PER_SCREEN - page < Z.of_nat fuel ->
    (0 < fuel)%nat ->
    page_walk fuel m page = Done (pages_after m page).
Proof.
  intros Hcap. induction fuel as [|fuel IH]; intros page [Hpage Hmax] Hfuel Hpos;
    [lia|].
  cbn [page_walk].
  destruct (Z_le_gt_dec page 29) as [Hlow|Hhigh].
  - destruct (getNextPage_next_free_page_aux m page) as (q & Hrun & Hq); [lia|].
    rewrite Hrun. osimpl.
    rewrite (pages_after_next m page q Hpage Hq).
    destruct (Z.eqb_spec q 0) as [->|Hnz]; [reflexivity|].
    destruct Hq as [(-> & _)|(Hq & _)]; [contradiction|].
    rewrite IH by lia. reflexivity.
  - rewrite getNextPage_past by lia. osimpl.
    cbn [Z.eqb]. unfold pages_after. rewrite seqZ_nil by lia. reflexivity.
Qed.

Lemma filter_all {A : Type} (f : A -> bool) (l : list A) :
  (forall x, In x l -> f x = true) -> List.filter f l = l.
Proof.
  induction l as [|x l IH]; intros H; [reflexivity|]. cbn [List.filter].
  rewrite (H x) by (left; reflexivity). f_equal. apply IH.
  intros y Hy. apply H. right. assumption.
Qed.

Lemma free_rows_count m :
  Z.of_nat (length (List.filter (fun j => negb (page_reserved m j)) (seqZ 1 7)))
  = 7 - reserved_rows (reservedAreas m).
Proof.
  change (seqZ 1 7) with [1; 2; 3; 4; 5; 6; 7].
  unfold page_reserved, reserved_rows. cbn [List.filter fold_right].
  rewrite !reserved_testbit by lia. rewrite !testbit_to_uint8 by lia.
  destruct (Z.testbit (reservedAreas m) 1), (Z.testbit (reservedAreas m) 2),
    (Z.testbit (reservedAreas m) 3), (Z.testbit (reservedAreas m) 4),
    (Z.testbit (reservedAreas m) 5), (Z.testbit (reservedAreas m) 6),
    (Z.testbit (reservedAreas m) 7); reflexivity.
Qed.

(** X15: with room for the seven item rows (and at most 30 pages), the pages
    the drawing code walks through, [getNextPage] iterated from page 0 until
    it returns 0, are the pages from 1 to [MENU_ITEMS_PER_SCREEN] that are
    not reserved, in ascending order; there are as many of them as
    [determineItemsPerScreen] returns, the number the navigation counts a
    screen with. *)
Theorem page_walk_matches_items_per_screen (m : menu_t) :
  7 <= MENU_ITEMS_PER_SCREEN <= 30 ->
  page_walk 256 m 0 = Done (pages_after m 0)
  /\ Z.of_nat (length (pages_after m 0)) = determineItemsPerScreen m.
Proof.
  intros Hcap. split; [apply page_walk_pages; lia|].
  rewrite determineItemsPerScreen_formula.
  pose proof (reserved_rows_range (reservedAreas m)) as Hrows.
  rewrite to_uint8_id by lia.
  unfold pages_after. change (0 + 1) with 1. rewrite Z.sub_0_r.
  replace MENU_ITEMS_PER_SCREEN with (7 + (MENU_ITEMS_PER_SCREEN - 7)) at 1 by lia.
  rewrite seqZ_app by lia. rewrite List.filter_app, length_app, Nat2Z.inj_add.
  rewrite free_rows_count. change (1 + 7) with 8.
  rewrite filter_all.
  - rewrite length_seqZ. lia.
  - intros j Hj. apply In_seqZ in Hj.
    rewrite page_reserved_high by lia. reflexivity.
Qed.

(** *** When [printItem] is defined *)

Section ItemProperties.

Variable MENU_MARGIN LCD_COLS LCD_CHAR_WIDTH : Z.
Variable lcdGetStringLength : string -> Z.
Variable lcdGetFloatLength : spec_float -> Z -> Z.
Variable lcdGetIntLength : Z -> Z.

Local Abbreviation value_size :=
  (value_size LCD_CHAR_WIDTH lcdGetStringLength lcdGetFloatLength lcdGetIntLength).
Local Abbreviation printItem :=
  (printItem MENU_MARGIN LCD_COLS LCD_CHAR_WIDTH lcdGetStringLength
             lcdGetFloatLength lcdGetIntLength).

Lemma printItem_done_iff (st : state W) vmem p m it nItem page nrSize :
  menus st !! p = Some m -> read_item st m nItem = Done it ->
  is_done (printItem st vmem p nItem page nrSize) = value_typed vmem it.
Proof.
  intros Hm Hit. unfold printItem, load_menu. rewrite Hm. osimpl. rewrite Hit. osimpl.
  unfold value_typed. destruct (pValue it) as [a|]; [|reflexivity].
  set (pf := Z.land (flags it) _).
  unfold value_size, print_value, load_float, load_int, load_string.
  destruct (vmem !! a) as [[z|f|s]|].
  - destruct (fixed_decimals pf) eqn:Hfix.
    + destruct (pf =? M_STRING); reflexivity.
    + destruct (pf =? M_FLOATA); [reflexivity|].
      destruct (pf =? M_STRING); reflexivity.
  - destruct (fixed_decimals pf) eqn:Hfix.
    + osimpl. destruct (pf =? M_STRING) eqn:Hs; [|reflexivity].
      apply Z.eqb_eq in Hs. rewrite Hs in Hfix. discriminate.
    + destruct (pf =? M_FLOATA) eqn:Hauto; [|destruct (pf =? M_STRING); reflexivity].
      osimpl. destruct (determineDecimals f); osimpl; try reflexivity.
      destruct (pf =? M_STRING) eqn:Hs; [|reflexivity].
      apply Z.eqb_eq in Hs. apply Z.eqb_eq in Hauto. rewrite Hs in Hauto.
      discriminate.
  - destruct (fixed_decimals pf) eqn:Hfix.
    + destruct (pf =? M_STRING) eqn:Hs; [|reflexivity].
      apply Z.eqb_eq in Hs. rewrite Hs in Hfix. discriminate.
    + destruct (pf =? M_FLOATA) eqn:Hauto.
      * destruct (pf =? M_STRING) eqn:Hs; [|reflexivity].
        apply Z.eqb_eq in Hs. apply Z.eqb_eq in Hauto. rewrite Hs in Hauto.
        discriminate.
      * destruct (pf =? M_STRING); reflexivity.
  - destruct (fixed_decimals pf); [reflexivity|].
    destruct (pf =? M_FLOATA); [reflexivity|].
    destruct (pf =? M_STRING); reflexivity.
Qed.

Lemma bind_no_timeout {A B : Type} (x : outcome A) (f : A -> outcome B) :
  x <> Timeout -> (forall a, f a <> Timeout) -> (x ≫= f) <> Timeout.
Proof. intros Hx Hf. destruct x; osimpl; [apply Hf|discriminate|contradiction]. Qed.

Lemma int32_of_float_no_timeout x : int32_of_float x <> Timeout.
Proof.
  unfold int32_of_float. destruct x; try discriminate.
  cbv zeta. destruct (_ && _); discriminate.
Qed.

Lemma int32_checked_no_timeout z : int32_checked z <> Timeout.
Proof. unfold int32_checked. destruct (_ && _); discriminate. Qed.

Lemma decimal_at_no_timeout scale unit x : decimal_at scale unit x <> Timeout.
Proof.
  unfold decimal_at. cbv zeta.
  apply bind_no_timeout; [apply int32_of_float_no_timeout|]. intros t.
  apply bind_no_timeout; [apply int32_checked_no_timeout|]. intros decimal.
  destruct (SFltb _ _); [apply int32_checked_no_timeout|discriminate].
Qed.

Lemma determineDecimals_no_timeout x : determineDecimals x <> Timeout.
Proof.
  unfold determineDecimals.
  apply bind_no_timeout.
  { unfold fractional_part. cbv zeta.
    apply bind_no_timeout; [apply int32_of_float_no_timeout|discriminate]. }
  intros number.
  repeat (apply bind_no_timeout; [apply decimal_at_no_timeout|]; intros ?).
  repeat (destruct (negb _); [discriminate|]).
  destruct (_ =? _); discriminate.
Qed.

Lemma printItem_no_timeout (st : state W) vmem p nItem page nrSize :
  printItem st vmem p nItem page nrSize <> Timeout.
Proof.
  unfold printItem.
  apply bind_no_timeout.
  { unfold load_menu. destruct (menus st !! p); discriminate. }
  intros m. apply bind_no_timeout; [apply read_item_no_timeout|]. intros it.
  cbv zeta.
  assert (Hf : forall v, load_float vmem v <> Timeout).
  { intros [|a]; cbn; [discriminate|]. destruct (vmem !! a) as [[| |]|]; discriminate. }
  assert (Hi : forall v, load_int vmem v <> Timeout).
  { intros [|a]; cbn; [discriminate|]. destruct (vmem !! a) as [[| |]|]; discriminate. }
  assert (Hs : forall v, load_string vmem v <> Timeout).
  { intros [|a]; cbn; [discriminate|]. destruct (vmem !! a) as [[| |]|]; discriminate. }
  apply bind_no_timeout.
  { unfold value_size. destruct (fixed_decimals _).
    - apply bind_no_timeout; [apply Hf|discriminate].
    - destruct (_ =? M_FLOATA).
      + apply bind_no_timeout; [apply Hf|]. intros f.
        apply bind_no_timeout; [apply determineDecimals_no_timeout|discriminate].
      + destruct (_ =? M_STRING).
        * apply bind_no_timeout; [apply Hs|discriminate].
        * apply bind_no_timeout; [apply Hi|discriminate]. }
  intros [[valSize valDecimals] reads].
  apply bind_no_timeout; [|discriminate].
  unfold print_value. destruct (_ =? M_STRING).
  - apply bind_no_timeout; [apply Hs|discriminate].
  - destruct (fixed_decimals _).
    + apply bind_no_timeout; [apply Hf|discriminate].
    + destruct (_ =? M_FLOATA).
      * apply bind_no_timeout; [apply Hf|discriminate].
      * apply bind_no_timeout; [apply Hi|discriminate].
Qed.

(** X22: on an item that is there and whose value cell, if it has one, has
    the type its flags say, [printItem] returns -- except on an [M_FLOATA]
    item whose float [determineDecimals] is undefined on (a magnitude that
    does not fit the [int32] cast): there [printItem] is undefined as
    well. *)
Theorem printItem_returns_on_typed_value
    (st : state W) vmem p m it nItem page nrSize :
  menus st !! p = Some m -> read_item st m nItem = Done it ->
  cell_typed vmem it = true ->
  (forall a f,
     pValue it = Some a -> vmem !! a = Some (CFloat f) ->
     Z.land (flags it) (Z.lor (Z.lor M_PVALUE_0 M_PVALUE_1) M_PVALUE_2) = M_FLOATA ->
     determineDecimals f = Fault ->
     printItem st vmem p nItem page nrSize = Fault)
  /\ ((forall a f,
         pValue it = Some a -> vmem !! a = Some (CFloat f) ->
         Z.land (flags it) (Z.lor (Z.lor M_PVALUE_0 M_PVALUE_1) M_PVALUE_2)
         = M_FLOATA ->
         determineDecimals f <> Fault) ->
      exists r, printItem st vmem p nItem page nrSize = Done r).
Proof.
  intros Hm Hit Htyped.
  pose proof (printItem_done_iff st vmem p m it nItem page nrSize Hm Hit) as Hdone.
  pose proof (printItem_no_timeout st vmem p nItem page nrSize) as Hnt.
  split.
  - intros a f Ha Hcell Hauto Hdec.
    destruct (printItem st vmem p nItem page nrSize) as [r| |];
      [|reflexivity|contradiction].
    exfalso. cbn [is_done] in Hdone. symmetry in Hdone.
    unfold value_typed in Hdone. rewrite Ha, Hcell, Hauto in Hdone.
    change (fixed_decimals M_FLOATA) with (@None Z) in Hdone.
    rewrite Hdec, andb_false_r in Hdone. discriminate.
  - intros Hdef.
    assert (Hval : value_typed vmem it = true).
    { unfold cell_typed in Htyped. unfold value_typed.
      destruct (pValue it) as [a|]; [|reflexivity].
      destruct (vmem !! a) as [[z|f|s]|] eqn:Hcell; try assumption.
      destruct (fixed_decimals _); [reflexivity|].
      rewrite Htyped. cbn [andb].
      apply Z.eqb_eq in Htyped.
      specialize (Hdef a f eq_refl Hcell Htyped).
      pose proof (determineDecimals_no_timeout f).
      destruct (determineDecimals f); [reflexivity|contradiction|contradiction]. }
    rewrite Hval in Hdone.
    destruct (printItem st vmem p nItem page nrSize) as [r| |];
      [eauto|discriminate|discriminate].
Qed.

End ItemProperties.

Section DrawingProperties.

Variable MENU_MARGIN LCD_COLS LCD_CHAR_WIDTH LCD_FONT_WIDTH LCD_PAGE_ROWS : Z.
Variable lcdGetStringLength : option string -> Z.
Variable lcdGetFloatLength : spec_float -> Z -> Z.
Variable lcdGetIntLength : Z -> Z.

Local Abbreviation clear_reserved_page := (clear_reserved_page LCD_COLS).
Local Abbreviation menuClearReservedArea := (menuClearReservedArea LCD_COLS).

(** *** [menuClearReservedArea] *)

Lemma existsb_concat_map {A B : Type} (g : B -> bool) (f : A -> list B) (l : list A) :
  existsb g (concat (map f l)) = existsb (fun x => existsb g (f x)) l.
Proof.
  induction l as [|x l IH]; [reflexivity|].
  cbn [map concat existsb]. rewrite existsb_app, IH. reflexivity.
Qed.

Lemma clear_reserved_page_rows r bit y :
  1 <= bit <= 7 ->
  existsb (clears_row y) (clear_reserved_page r bit) = true
  <-> reserved r bit = true
      /\ 8 * bit <= y
      /\ y < 8 * bit + (if reserved r (bit + 1) then 8 else 7).
Proof.
  intros Hbit. unfold clear_reserved_page.
  destruct (reserved r bit);
    [|cbn; split; [discriminate|intros [H _]; discriminate]].
  destruct (Z.gtb_spec bit 7); [lia|]. rewrite orb_false_r.
  destruct (reserved r (bit + 1)); cbn [existsb clears_row];
    rewrite ?orb_false_r, ?orb_true_iff, ?andb_true_iff, ?Z.leb_le, ?Z.ltb_lt,
      ?Z.eqb_eq; lia.
Qed.

Lemma clear_reserved_page_events r bit e :
  In e (clear_reserved_page r bit) ->
  match e with
  | LcdClearPage _ => True
  | LcdClearHLine xFrom xTo _ => xFrom = 0 /\ xTo = LCD_COLS - 1
  | _ => False
  end.
Proof.
  unfold clear_reserved_page.
  destruct (reserved r bit); [|intros []].
  destruct (reserved r (bit + 1) || (bit >? 7)); cbn [In]; intros H;
    repeat (destruct H as [<-|H]; [auto|]); destruct H.
Qed.

(** X16: [menuClearReservedArea] clears pixel row [y] exactly when the page
    of that row, [y / 8], is one of the pages 1 to 7 and reserved, and the
    row is not the last of its page or the page below is reserved as well.
    So the header page and the pages that are not reserved stay as they are,
    and so does the last row of page 7.  Every line it clears is cleared
    from column 0 to the last column. *)
Theorem menuClearReservedArea_rows (m : menu_t) :
  (forall y,
     existsb (clears_row y) (menuClearReservedArea m) = true
     <-> 1 <= y / 8 <= 7
         /\ page_reserved m (y / 8) = true
         /\ (y mod 8 < 7 \/ page_reserved m (y / 8 + 1) = true))
  /\ (forall e, In e (menuClearReservedArea m) ->
       match e with
       | LcdClearPage _ => True
       | LcdClearHLine xFrom xTo _ => xFrom = 0 /\ xTo = LCD_COLS - 1
       | _ => False
       end).
Proof.
  split.
  - intros y. unfold menuClearReservedArea. rewrite existsb_concat_map.
    cbn [existsb]. rewrite orb_false_r, !orb_true_iff.
    rewrite !clear_reserved_page_rows by lia.
    unfold page_reserved. set (r := to_uint8 (reservedAreas m)).
    pose proof (Z.div_mod y 8 ltac:(lia)) as Hy.
    pose proof (Z.mod_pos_bound y 8 ltac:(lia)) as Hmod.
    set (pg := y / 8) in *. set (row := y mod 8) in *.
    assert (Hfrom : forall bit,
              reserved r bit = true /\ 8 * bit <= y
              /\ y < 8 * bit + (if reserved r (bit + 1) then 8 else 7) ->
              pg = bit /\ reserved r pg = true
              /\ (row < 7 \/ reserved r (pg + 1) = true)).
    { intros bit (Hres & Hlo & Hhi).
      assert (pg = bit) as -> by (destruct (reserved r (bit + 1)); lia).
      split; [reflexivity|]. split; [assumption|].
      destruct (reserved r (bit + 1)); [right; reflexivity|left; lia]. }
    assert (Hto : forall bit,
              pg = bit -> reserved r pg = true ->
              row < 7 \/ reserved r (pg + 1) = true ->
              reserved r bit = true /\ 8 * bit <= y
              /\ y < 8 * bit + (if reserved r (bit + 1) then 8 else 7)).
    { intros bit <- Hres Hrow. split; [assumption|]. split; [lia|].
      destruct (reserved r (pg + 1)); [lia|].
      destruct Hrow as [Hrow|Hrow]; [lia|discriminate]. }
    split.
    + intros H.
      assert (Hex : exists bit, 1 <= bit <= 7 /\ pg = bit /\ reserved r pg = true
                      /\ (row < 7 \/ reserved r (pg + 1) = true)).
      { repeat match goal with
               | Hor : _ \/ _ |- _ => destruct Hor as [Hor|Hor]
               end;
          apply Hfrom in H; eexists; (split; [|exact H]); lia. }
      destruct Hex as (bit & Hbit & <- & Hres & Hrow). auto.
    + intros (Hpg & Hres & Hrow).
      assert (Hc : pg = 1 \/ pg = 2 \/ pg = 3 \/ pg = 4 \/ pg = 5 \/ pg = 6 \/ pg = 7)
        by lia.
      destruct Hc as [Hc|[Hc|[Hc|[Hc|[Hc|[Hc|Hc]]]]]];
        pose proof (Hto _ Hc Hres Hrow) as Hb;
        first [left; exact Hb
              |right; left; exact Hb
              |right; right; left; exact Hb
              |right; right; right; left; exact Hb
              |right; right; right; right; left; exact Hb
              |right; right; right; right; right; left; exact Hb
              |right; right; right; right; right; right; exact Hb].
  - intros e He. unfold menuClearReservedArea in He.
    apply in_concat in He as (l & Hl & He).
    apply in_map_iff in Hl as (bit & <- & _).
    apply (clear_reserved_page_events _ _ _ He).
Qed.

(** *** [menuWriteBuffer] *)

Local Abbreviation printNavNumbers :=
  (printNavNumbers MENU_MARGIN LCD_COLS LCD_CHAR_WIDTH LCD_FONT_WIDTH
                   lcdGetStringLength).
Local Abbreviation printHeader :=
  (printHeader MENU_MARGIN LCD_COLS LCD_CHAR_WIDTH LCD_FONT_WIDTH
               lcdGetStringLength).
Local Abbreviation write_item :=
  (write_item MENU_MARGIN LCD_COLS LCD_CHAR_WIDTH LCD_PAGE_ROWS
              lcdGetStringLength lcdGetFloatLength lcdGetIntLength).
Local Abbreviation menuWriteBuffer_items :=
  (menuWriteBuffer_items MENU_MARGIN LCD_COLS LCD_CHAR_WIDTH LCD_PAGE_ROWS
                         lcdGetStringLength lcdGetFloatLength lcdGetIntLength).
Local Abbreviation menuWriteBuffer_unused :=
  (menuWriteBuffer_unused LCD_COLS LCD_PAGE_ROWS).
Local Abbreviation menuWriteBuffer :=
  (menuWriteBuffer MENU_MARGIN LCD_COLS LCD_CHAR_WIDTH LCD_FONT_WIDTH LCD_PAGE_ROWS
                   lcdGetStringLength lcdGetFloatLength lcdGetIntLength).

(** What a list of events says about pages, in one triple. *)
Lemma page_facts_app (a b : list draw_event) :
  item_calls (a ++ b) = item_calls a ++ item_calls b
  /\ cleared_pages (a ++ b) = cleared_pages a ++ cleared_pages b
  /\ marked_pages (a ++ b) = marked_pages a ++ marked_pages b.
Proof. unfold item_calls, cleared_pages, marked_pages. rewrite !omap_app. auto. Qed.

Lemma printNavNumbers_events (st : state W) m occupied nav :
  printNavNumbers st m = Done (occupied, nav) ->
  item_calls nav = [] /\ cleared_pages nav = [] /\ marked_pages nav = [].
Proof.
  unfold printNavNumbers. destruct (pTextMenuItems m) as [totalNr|].
  - destruct (read_item st m _) as [it| |]; try discriminate. osimpl.
    intros [= _ <-]. auto.
  - intros [= _ <-]. auto.
Qed.

Lemma printHeader_events fuel (st : state W) p drawn :
  printHeader fuel st p = Done drawn ->
  item_calls drawn = [] /\ cleared_pages drawn = [] /\ marked_pages drawn = [].
Proof.
  unfold printHeader, load_menu.
  destruct (menus st !! p) as [m|]; [|discriminate]. osimpl.
  destruct (printNavNumbers st m) as [[occupied nav]| |] eqn:Hnav; try discriminate.
  osimpl. apply printNavNumbers_events in Hnav as (Hi & Hc & Hv).
  destruct (preferred_title fuel st p m) as [prefTitle| |]; try discriminate. osimpl.
  destruct (LCD_CHAR_WIDTH =? 0); [discriminate|].
  destruct (copy_title _ _) as [title| |]; try discriminate. osimpl.
  intros [= <-].
  match goal with
  | |- context [item_calls (nav ++ ?x)] =>
      destruct (page_facts_app nav x) as (-> & -> & ->)
  end.
  rewrite Hi, Hc, Hv. destruct (_ <=? _); auto.
Qed.

Lemma write_item_events (st : state W) vmem p m cur nItem page row :
  write_item st vmem p m cur nItem page = Done row ->
  item_calls row = [(nItem, page)]
  /\ cleared_pages row = [page]
  /\ marked_pages row = (if nItem =? cur then [page] else []).
Proof.
  unfold write_item.
  destruct (printItem _ _ _ _ _ _ st vmem p nItem page 0) as [[lay drawn]| |];
    try discriminate. osimpl.
  destruct (nItem =? cur).
  - osimpl. destruct (read_item st m nItem) as [it| |]; try discriminate. osimpl.
    destruct (negb (Z.land (flags it) M_EXTEND =? 0)).
    + destruct (extend_master 256 st m _) as [master| |]; try discriminate. osimpl.
      intros [= <-]. destruct (master =? cur); auto.
    + osimpl. intros [= <-]. auto.
  - destruct (reserved_bit _ _) as [above| |]; try discriminate. osimpl.
    destruct (read_item st m nItem) as [it| |]; try discriminate. osimpl.
    destruct (negb (Z.land (flags it) M_EXTEND =? 0)).
    + destruct (extend_master 256 st m _) as [master| |]; try discriminate. osimpl.
      intros [= <-]. destruct above, (master =? cur); auto.
    + osimpl. intros [= <-]. destruct above; auto.
Qed.

Lemma pages_from_next m page q :
  0 <= page < 255 -> getNextPage m page = Done q ->
  pages_after m page = pages_from m q
  /\ (MENU_ITEMS_PER_SCREEN < 255 -> 0 <= q < 255).
Proof.
  intros Hpage Hrun. pose proof (getNextPage_done m page q Hpage Hrun) as Hq.
  split.
  - apply pages_after_next; [lia|assumption].
  - intros Hcap. destruct Hq as [(-> & _)|(Hq & _)]; lia.
Qed.

Lemma rows_shown_stop m nItem page :
  (nItem <? nMenuItems m) && negb (page =? 0) = false ->
  rows_shown (nMenuItems m) nItem (pages_from m page) = [].
Proof.
  intros H. unfold pages_from.
  destruct (page =? 0) eqn:Hpage; [reflexivity|]. cbn [rows_shown].
  destruct (nItem <? nMenuItems m) eqn:Hlt; [|reflexivity].
  discriminate H.
Qed.

Lemma items_loop_events (st : state W) vmem p m cur :
  MENU_ITEMS_PER_SCREEN < 255 -> nMenuItems m < 256 ->
  forall fuel nItem page rows last,
    0 <= nItem -> 0 <= page < 255 ->
    menuWriteBuffer_items fuel st vmem p m cur nItem page = Done (rows, last) ->
    item_calls rows = rows_shown (nMenuItems m) nItem (pages_from m page)
    /\ cleared_pages rows
       = map snd (rows_shown (nMenuItems m) nItem (pages_from m page))
    /\ marked_pages rows
       = map snd (List.filter (fun r => fst r =? cur)
                    (rows_shown (nMenuItems m) nItem (pages_from m page)))
    /\ pages_from m last
       = drop (length (rows_shown (nMenuItems m) nItem (pages_from m page)))
              (pages_from m page)
    /\ 0 <= last < 255.
Proof.
  intros Hcap Hn. induction fuel as [|fuel IH]; intros nItem page rows last Hi Hpage.
  - cbn [menuWriteBuffer_items].
    destruct ((nItem <? nMenuItems m) && negb (page =? 0)) eqn:Hcond;
      [discriminate|].
    intros [= <- <-]. rewrite (rows_shown_stop m nItem page Hcond). cbn. auto.
  - cbn [menuWriteBuffer_items].
    destruct ((nItem <? nMenuItems m) && negb (page =? 0)) eqn:Hcond.
    + apply andb_true_iff in Hcond as [Hlt Hnz]. apply Z.ltb_lt in Hlt.
      apply negb_true_iff in Hnz.
      destruct (write_item st vmem p m cur nItem page) as [row| |] eqn:Hrow;
        try discriminate. osimpl.
      destruct (getNextPage m page) as [page'| |] eqn:Hnext; try discriminate. osimpl.
      rewrite (to_uint8_id (nItem + 1)) by lia.
      destruct (menuWriteBuffer_items fuel st vmem p m cur (nItem + 1) page')
        as [[rows' last']| |] eqn:Hrest; try discriminate. osimpl.
      intros [= <- <-].
      destruct (pages_from_next m page page' Hpage Hnext) as (Hpages & Hrange).
      specialize (Hrange Hcap).
      destruct (IH (nItem + 1) page' rows' last' ltac:(lia) Hrange Hrest)
        as (Hcalls & Hcleared & Hinv & Hlast & Hlastr).
      destruct (write_item_events st vmem p m cur nItem page row Hrow)
        as (Hrc & Hrcl & Hri).
      destruct (page_facts_app row rows') as (-> & -> & ->).
      assert (Hpf : pages_from m page = page :: pages_from m page').
      { unfold pages_from at 1. rewrite Hnz, Hpages. reflexivity. }
      rewrite Hpf. cbn [rows_shown].
      destruct (Z.ltb_spec nItem (nMenuItems m)); [|lia].
      rewrite Hrc, Hrcl, Hri, Hcalls, Hcleared, Hinv, Hlast.
      cbn [map snd fst List.filter length drop Datatypes.app].
      destruct (nItem =? cur); auto.
    + intros [= <- <-]. rewrite (rows_shown_stop m nItem page Hcond). cbn. auto.
Qed.

Lemma unused_loop_events m :
  MENU_ITEMS_PER_SCREEN < 255 ->
  forall fuel page unused,
    0 <= page < 255 ->
    menuWriteBuffer_unused fuel m page = Done unused ->
    item_calls unused = []
    /\ cleared_pages unused = pages_from m page
    /\ marked_pages unused = [].
Proof.
  intros Hcap. induction fuel as [|fuel IH]; intros page unused Hpage;
    cbn [menuWriteBuffer_unused]; unfold pages_from;
    destruct (Z.eqb_spec page 0) as [->|Hnz]; try discriminate;
    try (intros [= <-]; auto; fail).
  destruct (reserved_bit _ _) as [above| |]; try discriminate. osimpl.
  destruct (getNextPage m page) as [page'| |] eqn:Hnext; try discriminate. osimpl.
  destruct (menuWriteBuffer_unused fuel m page') as [rest| |] eqn:Hrest;
    try discriminate. osimpl.
  intros [= <-].
  destruct (pages_from_next m page page' Hpage Hnext) as (Hpages & Hrange).
  destruct (IH page' rest (Hrange Hcap) Hrest) as (Hc & Hcl & Hi).
  rewrite Hpages, <- Hcl.
  destruct above; cbn; rewrite ?Hc, ?Hi; auto.
Qed.

Lemma rows_shown_pages n pages :
  forall i,
    map snd (rows_shown n i pages) ++ drop (length (rows_shown n i pages)) pages
    = pages.
Proof.
  induction pages as [|pg pages IH]; intros i; [reflexivity|].
  cbn [rows_shown]. destruct (i <? n); [|reflexivity].
  cbn [map snd length drop Datatypes.app]. rewrite IH. reflexivity.
Qed.

Lemma rows_shown_above n c pages :
  forall i, c < i -> List.filter (fun r => fst r =? c) (rows_shown n i pages) = [].
Proof.
  induction pages as [|pg pages IH]; intros i Hi; [reflexivity|].
  cbn [rows_shown]. destruct (i <? n); [|reflexivity]. cbn [List.filter fst].
  destruct (Z.eqb_spec i c); [lia|]. apply IH. lia.
Qed.

Lemma rows_shown_once n (c : Z) pages :
  forall i,
    (length (List.filter (fun r => (fst r =? c)%Z) (rows_shown n i pages)) <= 1)%nat.
Proof.
  induction pages as [|pg pages IH]; intros i; [cbn; lia|].
  cbn [rows_shown]. destruct (i <? n); [|cbn; lia]. cbn [List.filter fst].
  destruct (Z.eqb_spec i c) as [->|Hne].
  - rewrite rows_shown_above by lia. cbn. lia.
  - apply IH.
Qed.

(** The events of [menuWriteBuffer], page by page. *)
Lemma menuWriteBuffer_events fuel (st : state W) vmem p m evs :
  menus st !! p = Some m ->
  MENU_ITEMS_PER_SCREEN < 255 -> nMenuItems m < 256 ->
  menuWriteBuffer fuel st vmem p = Done evs ->
  let shown :=
    rows_shown (nMenuItems m)
               (to_uint8 (to_int8 (nScreen m) * determineItemsPerScreen m))
               (pages_after m 0) in
  item_calls evs = shown
  /\ cleared_pages evs = (if header_shown m then [0] else []) ++ pages_after m 0
  /\ marked_pages evs
     = map snd (List.filter (fun r => fst r =? to_int8 (nCurrentItem m)) shown).
Proof.
  intros Hm Hcap Hn. unfold menuWriteBuffer, load_menu. rewrite Hm. osimpl.
  fold (header_shown m).
  set (header := if header_shown m then _ else _).
  assert (Hheader : forall hd, header = Done hd ->
            item_calls hd = []
            /\ cleared_pages hd = (if header_shown m then [0] else [])
            /\ marked_pages hd = []).
  { subst header. destruct (header_shown m).
    - intros hd. destruct (printHeader fuel st p) as [drawn| |] eqn:Hdrawn;
        try discriminate. osimpl. intros [= <-].
      apply printHeader_events in Hdrawn as (Hi & Hc & Hv).
      change (LcdClearPage 0 :: drawn) with ([LcdClearPage 0] ++ drawn).
      destruct (page_facts_app [LcdClearPage 0] drawn) as (-> & -> & ->).
      rewrite Hi, Hc, Hv. auto.
    - intros hd [= <-]. auto. }
  destruct header as [hd| |]; try discriminate. osimpl.
  destruct (Hheader hd eq_refl) as (Hhi & Hhc & Hhv).
  destruct (getNextPage m 0) as [page| |] eqn:Hpage; try discriminate. osimpl.
  destruct (pages_from_next m 0 page ltac:(lia) Hpage) as (Hpages & Hrange).
  specialize (Hrange Hcap).
  destruct (menuWriteBuffer_items 256 st vmem p m _ _ page)
    as [[rows last]| |] eqn:Hrows; try discriminate. osimpl.
  destruct (menuWriteBuffer_unused 256 m last) as [unused| |] eqn:Hunused;
    try discriminate. osimpl.
  intros [= <-].
  pose proof (to_uint8_range (to_int8 (nScreen m) * determineItemsPerScreen m)) as Hfirst.
  destruct (items_loop_events st vmem p m _ Hcap Hn 256 _ page rows last
              (proj1 Hfirst) Hrange Hrows)
    as (Hcalls & Hcleared & Hinv & Hlast & Hlastr).
  destruct (unused_loop_events m Hcap 256 last unused Hlastr Hunused)
    as (Huc & Hucl & Hui).
  rewrite <- Hpages in *.
  destruct (page_facts_app hd (rows ++ unused)) as (-> & -> & ->).
  destruct (page_facts_app rows unused) as (-> & -> & ->).
  rewrite Hhi, Hhc, Hhv, Huc, Hucl, Hui, Hcalls, Hcleared, Hinv, Hlast.
  rewrite !app_nil_r. cbn [Datatypes.app].
  split; [reflexivity|]. split; [|reflexivity].
  f_equal. apply rows_shown_pages.
Qed.

Lemma read_item_negative (st : state W) m i : i < 0 -> read_item st m i = Fault.
Proof.
  intros Hi. unfold read_item. destruct (pItems m) as [a|]; [|reflexivity].
  destruct (itemArrays st !! a) as [arr|]; [|reflexivity].
  destruct (Z.ltb_spec i 0); [reflexivity|lia].
Qed.

(** The blocks inverted for dummy rows. *)
Lemma inverted_blocks_app (a b : list draw_event) :
  inverted_blocks (a ++ b) = inverted_blocks a ++ inverted_blocks b.
Proof. unfold inverted_blocks. apply omap_app. Qed.

Lemma inverted_blocks_row page nItem drawn (rest : list draw_event) :
  inverted_blocks (LcdClearPage page :: PrintItemCall nItem page drawn :: rest)
  = inverted_blocks rest.
Proof. reflexivity. Qed.

Lemma read_item_done_nonneg (st : state W) m i it :
  read_item st m i = Done it -> 0 <= i.
Proof.
  intros H. destruct (Z_lt_le_dec i 0) as [Hneg|]; [|assumption].
  rewrite read_item_negative in H by assumption. discriminate.
Qed.

Lemma extend_master_spec (st : state W) m :
  forall fuel j k,
    j < 128 -> extend_master fuel st m j = Done k ->
    0 <= k <= j
    /\ extends st m k = false
    /\ forall x, k < x <= j -> extends st m x = true.
Proof.
  induction fuel as [|fuel IH]; intros j k Hj; [discriminate|].
  cbn [extend_master].
  destruct (read_item st m j) as [it| |] eqn:Hit; try discriminate. osimpl.
  pose proof (read_item_done_nonneg st m j it Hit) as Hpos.
  destruct (Z.land (flags it) M_EXTEND =? 0) eqn:Hflag; cbn [negb].
  - intros [= <-]. split; [lia|]. split; [|intros x Hx; lia].
    unfold extends. rewrite Hit, Hflag. reflexivity.
  - rewrite to_int8_id by lia. intros Hrec.
    destruct (IH (j - 1) k ltac:(lia) Hrec) as (Hk & Hplain & Hall).
    split; [lia|]. split; [assumption|]. intros x Hx.
    destruct (Z.eq_dec x j) as [->|Hne]; [|apply Hall; lia].
    unfold extends. rewrite Hit, Hflag. reflexivity.
Qed.

Lemma dummy_of_plain (st : state W) m c i :
  extends st m i = false -> dummy_of st m c i = false.
Proof.
  intros Hi. unfold dummy_of.
  destruct (Z.leb_spec 0 c); [|reflexivity].
  destruct (Z.ltb_spec c i); [|reflexivity]. cbn [andb].
  destruct (forallb _ _) eqn:Hall; [|apply andb_false_r].
  rewrite forallb_forall in Hall. rewrite (Hall i) in Hi; [discriminate|].
  apply In_seqZ. lia.
Qed.

Lemma dummy_of_master (st : state W) m c i k :
  0 <= k < i -> extends st m k = false ->
  (forall x, k < x <= i -> extends st m x = true) ->
  dummy_of st m c i = (k =? c).
Proof.
  intros Hk Hplain Hall. unfold dummy_of.
  destruct (Z.eqb_spec k c) as [<-|Hne].
  - destruct (Z.leb_spec 0 k); [|lia]. destruct (Z.ltb_spec k i); [|lia].
    rewrite Hplain. cbn [andb negb].
    apply forallb_forall. intros x Hx. apply In_seqZ in Hx. apply Hall. lia.
  - destruct (Z.leb_spec 0 c); [|reflexivity].
    destruct (Z.ltb_spec c i); [|reflexivity]. cbn [andb].
    destruct (extends st m c) eqn:Hc; [reflexivity|]. cbn [negb andb].
    destruct (forallb _ _) eqn:Hforall; [|reflexivity].
    rewrite forallb_forall in Hforall.
    destruct (Z_lt_le_dec c k) as [Hlt|Hge].
    + rewrite (Hforall k) in Hplain; [discriminate|]. apply In_seqZ. lia.
    + rewrite (Hall c) in Hc by lia. discriminate.
Qed.

Lemma write_item_blocks (st : state W) vmem p m cur nItem page row :
  0 <= nItem < 256 ->
  write_item st vmem p m cur nItem page = Done row ->
  inverted_blocks row
  = if dummy_of st m cur nItem
    then [page_block LCD_COLS LCD_PAGE_ROWS page]
    else [].
Proof.
  intros Hi. unfold write_item.
  destruct (printItem _ _ _ _ _ _ st vmem p nItem page 0) as [[lay drawn]| |];
    try discriminate. osimpl.
  destruct (if nItem =? cur then _ else _) as [mark| |] eqn:Hmark;
    try discriminate. osimpl.
  assert (Hnone : inverted_blocks mark = []).
  { destruct (nItem =? cur).
    - injection Hmark as <-. reflexivity.
    - destruct (reserved_bit _ _) as [above| |]; try discriminate. osimpl.
      injection Hmark as <-. destruct above; reflexivity. }
  destruct (read_item st m nItem) as [it| |] eqn:Hit; try discriminate. osimpl.
  destruct (Z.land (flags it) M_EXTEND =? 0) eqn:Hflag; cbn [negb].
  - osimpl. intros [= <-].
    rewrite dummy_of_plain
      by (unfold extends; rewrite Hit, Hflag; reflexivity).
    rewrite inverted_blocks_row, inverted_blocks_app, Hnone. reflexivity.
  - destruct (extend_master 256 st m _) as [master| |] eqn:Hmaster;
      try discriminate. osimpl. intros [= <-].
    pose proof (to_int8_range (nItem - 1)) as Hrange.
    destruct (extend_master_spec st m 256 _ master (proj2 Hrange) Hmaster)
      as (Hk & Hplain & Hall).
    assert (Hprev : to_int8 (nItem - 1) = nItem - 1).
    { destruct (Z.eq_dec nItem 0) as [->|Hne].
      - rewrite to_int8_id by lia. reflexivity.
      - symmetry. apply (to_int8_eq_nonneg (nItem - 1)); [lia|lia|reflexivity]. }
    rewrite Hprev in *.
    assert (Hupto : forall x, master < x <= nItem -> extends st m x = true).
    { intros x Hx. destruct (Z.eq_dec x nItem) as [->|Hne].
      - unfold extends. rewrite Hit, Hflag. reflexivity.
      - apply Hall. lia. }
    rewrite (dummy_of_master st m cur nItem master ltac:(lia) Hplain Hupto).
    rewrite inverted_blocks_row, inverted_blocks_app, Hnone.
    destruct (master =? cur); reflexivity.
Qed.

Lemma items_loop_blocks (st : state W) vmem p m cur :
  MENU_ITEMS_PER_SCREEN < 255 -> nMenuItems m < 256 ->
  forall fuel nItem page rows last,
    0 <= nItem -> 0 <= page < 255 ->
    menuWriteBuffer_items fuel st vmem p m cur nItem page = Done (rows, last) ->
    inverted_blocks rows
    = map (fun r => page_block LCD_COLS LCD_PAGE_ROWS (snd r))
          (List.filter (fun r => dummy_of st m cur (fst r))
             (rows_shown (nMenuItems m) nItem (pages_from m page))).
Proof.
  intros Hcap Hn. induction fuel as [|fuel IH]; intros nItem page rows last Hi Hpage.
  - cbn [menuWriteBuffer_items].
    destruct ((nItem <? nMenuItems m) && negb (page =? 0)) eqn:Hcond;
      [discriminate|].
    intros [= <- <-]. rewrite (rows_shown_stop m nItem page Hcond). reflexivity.
  - cbn [menuWriteBuffer_items].
    destruct ((nItem <? nMenuItems m) && negb (page =? 0)) eqn:Hcond.
    + apply andb_true_iff in Hcond as [Hlt Hnz]. apply Z.ltb_lt in Hlt.
      apply negb_true_iff in Hnz.
      destruct (write_item st vmem p m cur nItem page) as [row| |] eqn:Hrow;
        try discriminate. osimpl.
      destruct (getNextPage m page) as [page'| |] eqn:Hnext; try discriminate. osimpl.
      rewrite (to_uint8_id (nItem + 1)) by lia.
      destruct (menuWriteBuffer_items fuel st vmem p m cur (nItem + 1) page')
        as [[rows' last']| |] eqn:Hrest; try discriminate. osimpl.
      intros [= <- <-].
      destruct (pages_from_next m page page' Hpage Hnext) as (Hpages & Hrange).
      specialize (Hrange Hcap).
      pose proof (IH (nItem + 1) page' rows' last' ltac:(lia) Hrange Hrest) as Hrec.
      pose proof (write_item_blocks st vmem p m cur nItem page row ltac:(lia) Hrow)
        as Hblock.
      assert (Hpf : pages_from m page = page :: pages_from m page').
      { unfold pages_from at 1. rewrite Hnz, Hpages. reflexivity. }
      rewrite Hpf. cbn [rows_shown].
      destruct (Z.ltb_spec nItem (nMenuItems m)); [|lia].
      rewrite inverted_blocks_app, Hblock, Hrec.
      cbn [List.filter fst]. destruct (dummy_of st m cur nItem); reflexivity.
    + intros [= <- <-]. rewrite (rows_shown_stop m nItem page Hcond). reflexivity.
Qed.

Lemma unused_loop_blocks m :
  forall fuel page unused,
    menuWriteBuffer_unused fuel m page = Done unused ->
    inverted_blocks unused = [].
Proof.
  induction fuel as [|fuel IH]; intros page unused;
    cbn [menuWriteBuffer_unused];
    destruct (page =? 0); try discriminate;
    try (intros [= <-]; reflexivity).
  destruct (reserved_bit _ _) as [above| |]; try discriminate. osimpl.
  destruct (getNextPage m page) as [page'| |]; try discriminate. osimpl.
  destruct (menuWriteBuffer_unused fuel m page') as [rest| |] eqn:Hrest;
    try discriminate. osimpl.
  intros [= <-]. pose proof (IH page' rest Hrest) as Hrec.
  destruct above; cbn; exact Hrec.
Qed.

Lemma printHeader_blocks fuel (st : state W) p drawn :
  printHeader fuel st p = Done drawn -> inverted_blocks drawn = [].
Proof.
  unfold printHeader, load_menu.
  destruct (menus st !! p) as [m|]; [|discriminate]. osimpl.
  destruct (printNavNumbers st m) as [[occupied nav]| |] eqn:Hnav; try discriminate.
  osimpl.
  assert (Hn : inverted_blocks nav = []).
  { unfold printNavNumbers in Hnav. destruct (pTextMenuItems m).
    - destruct (read_item st m _); try discriminate. osimpl.
      injection Hnav as _ <-. reflexivity.
    - injection Hnav as _ <-. reflexivity. }
  destruct (preferred_title fuel st p m) as [prefTitle| |]; try discriminate. osimpl.
  destruct (LCD_CHAR_WIDTH =? 0); [discriminate|].
  destruct (copy_title _ _) as [title| |]; try discriminate. osimpl.
  intros [= <-]. rewrite inverted_blocks_app, Hn.
  destruct (_ <=? _); reflexivity.
Qed.

Lemma menuWriteBuffer_blocks fuel (st : state W) vmem p m evs :
  menus st !! p = Some m ->
  MENU_ITEMS_PER_SCREEN < 255 -> nMenuItems m < 256 ->
  menuWriteBuffer fuel st vmem p = Done evs ->
  inverted_blocks evs
  = map (fun r => page_block LCD_COLS LCD_PAGE_ROWS (snd r))
        (List.filter (fun r => dummy_of st m (to_int8 (nCurrentItem m)) (fst r))
           (rows_shown (nMenuItems m)
              (to_uint8 (to_int8 (nScreen m) * determineItemsPerScreen m))
              (pages_after m 0))).
Proof.
  intros Hm Hcap Hn. unfold menuWriteBuffer, load_menu. rewrite Hm. osimpl.
  destruct (if _ =? 0 then _ else _) as [hd| |] eqn:Hhd; try discriminate. osimpl.
  assert (Hhead : inverted_blocks hd = []).
  { destruct (_ =? 0).
    - destruct (printHeader fuel st p) as [drawn| |] eqn:Hdrawn; try discriminate.
      osimpl. injection Hhd as <-.
      exact (printHeader_blocks fuel st p drawn Hdrawn).
    - injection Hhd as <-. reflexivity. }
  destruct (getNextPage m 0) as [page| |] eqn:Hpage; try discriminate. osimpl.
  destruct (pages_from_next m 0 page ltac:(lia) Hpage) as (Hpages & Hrange).
  specialize (Hrange Hcap).
  destruct (menuWriteBuffer_items 256 st vmem p m _ _ page)
    as [[rows last]| |] eqn:Hrows; try discriminate. osimpl.
  destruct (menuWriteBuffer_unused 256 m last) as [unused| |] eqn:Hunused;
    try discriminate. osimpl.
  intros [= <-].
  pose proof (to_uint8_range (to_int8 (nScreen m) * determineItemsPerScreen m)) as Hfirst.
  rewrite !inverted_blocks_app, Hhead.
  rewrite (unused_loop_blocks m 256 last unused Hunused), app_nil_r.
  rewrite (items_loop_blocks st vmem p m _ Hcap Hn 256 _ page rows last
             (proj1 Hfirst) Hrange Hrows).
  rewrite Hpages. reflexivity.
Qed.

(** X17: whenever [menuWriteBuffer] returns, the items it has printed are,
    in order, the items from the first item of the screen on, one on each
    page that is not reserved, from the lowest such page on, until the items
    or the pages run out.  The first item is the uint8 [nItem] of the code,
    [(int8)nScreen * itemsPerScreen] modulo 256; it is
    [nScreen * itemsPerScreen] when the screen index is below 128 and that
    product below 256. *)
Theorem menuWriteBuffer_prints_screen fuel (st : state W) vmem p m evs :
  menus st !! p = Some m ->
  MENU_ITEMS_PER_SCREEN < 255 ->
  nMenuItems m < 256 ->
  menuWriteBuffer fuel st vmem p = Done evs ->
  item_calls evs
  = rows_shown (nMenuItems m)
      (to_uint8 (to_int8 (nScreen m) * determineItemsPerScreen m))
      (pages_after m 0)
  /\ (0 <= nScreen m < 128 ->
      0 <= nScreen m * determineItemsPerScreen m < 256 ->
      to_uint8 (to_int8 (nScreen m) * determineItemsPerScreen m)
      = nScreen m * determineItemsPerScreen m).
Proof.
  intros Hm Hcap Hn Hrun.
  destruct (menuWriteBuffer_events fuel st vmem p m evs Hm Hcap Hn Hrun)
    as (Hcalls & _ & _).
  split; [exact Hcalls|]. intros Hs Hfirst.
  rewrite (to_int8_id (nScreen m)) by lia. apply to_uint8_id. lia.
Qed.

(** X18: whenever [menuWriteBuffer] returns, it has cleared every page from
    1 to [MENU_ITEMS_PER_SCREEN] that is not reserved, each once and in
    ascending order, after page 0 when the header is shown; it has cleared
    no reserved page. *)
Theorem menuWriteBuffer_clears_free_pages fuel (st : state W) vmem p m evs :
  menus st !! p = Some m ->
  MENU_ITEMS_PER_SCREEN < 255 ->
  nMenuItems m < 256 ->
  menuWriteBuffer fuel st vmem p = Done evs ->
  cleared_pages evs = (if header_shown m then [0] else []) ++ pages_after m 0
  /\ forall pg, In pg (cleared_pages evs) ->
       (pg = 0 /\ header_shown m = true)
       \/ (1 <= pg <= MENU_ITEMS_PER_SCREEN /\ page_reserved m pg = false).
Proof.
  intros Hm Hcap Hn Hrun.
  destruct (menuWriteBuffer_events fuel st vmem p m evs Hm Hcap Hn Hrun)
    as (_ & Hcleared & _).
  split; [assumption|]. intros pg. rewrite Hcleared, in_app_iff.
  intros [Hpg|Hpg].
  - left. destruct (header_shown m); [|destruct Hpg].
    destruct Hpg as [<-|[]]. auto.
  - right. apply pages_after_range in Hpg as [Hr Hfree]. split; [lia|assumption].
Qed.

(** X19: whenever [menuWriteBuffer] returns, it has called
    [lcdBufferInvertPage] on the pages on which it has printed the current
    item, the item whose index is [nCurrentItem] read as an int8, and on no
    other: at most one page.  It has called [lcdBufferInvert] on the block
    of each row it has printed that is a dummy row of the current item, and
    on no other block. *)
Theorem menuWriteBuffer_highlights_current fuel (st : state W) vmem p m evs :
  menus st !! p = Some m ->
  MENU_ITEMS_PER_SCREEN < 255 ->
  nMenuItems m < 256 ->
  menuWriteBuffer fuel st vmem p = Done evs ->
  marked_pages evs
  = map snd (List.filter (fun r => fst r =? to_int8 (nCurrentItem m))
               (item_calls evs))
  /\ (length (marked_pages evs) <= 1)%nat
  /\ inverted_blocks evs
     = map (fun r => page_block LCD_COLS LCD_PAGE_ROWS (snd r))
           (List.filter
              (fun r => dummy_of st m (to_int8 (nCurrentItem m)) (fst r))
              (item_calls evs)).
Proof.
  intros Hm Hcap Hn Hrun.
  destruct (menuWriteBuffer_events fuel st vmem p m evs Hm Hcap Hn Hrun)
    as (Hcalls & _ & Hinv).
  rewrite Hinv, Hcalls.
  split; [reflexivity|]. split; [rewrite length_map; apply rows_shown_once|].
  exact (menuWriteBuffer_blocks fuel st vmem p m evs Hm Hcap Hn Hrun).
Qed.

Lemma write_item_first_dummy (st : state W) vmem p m cur page it :
  read_item st m 0 = Done it -> Z.land (flags it) M_EXTEND <> 0 ->
  write_item st vmem p m cur 0 page = Fault.
Proof.
  intros Hit Hext. unfold write_item.
  pose proof (printItem_no_timeout MENU_MARGIN LCD_COLS LCD_CHAR_WIDTH
                (fun s => lcdGetStringLength (Some s)) lcdGetFloatLength
                lcdGetIntLength st vmem p 0 page 0) as Hnt.
  destruct (printItem _ _ _ _ _ _ st vmem p 0 page 0) as [[lay drawn]| |];
    [|reflexivity|contradiction]. osimpl.
  destruct (if 0 =? cur then _ else _) as [mark| |] eqn:Hmark.
  - osimpl. rewrite Hit. osimpl.
    destruct (Z.eqb_spec (Z.land (flags it) M_EXTEND) 0); [contradiction|].
    cbn [negb]. change 256%nat with (S 255). generalize 255%nat. intros fuel.
    cbn [extend_master]. rewrite (read_item_negative st m (to_int8 (0 - 1))).
    + reflexivity.
    + rewrite to_int8_id by lia. lia.
  - reflexivity.
  - exfalso. destruct (0 =? cur); [discriminate|].
    unfold reserved_bit in Hmark. destruct (_ && _); discriminate.
Qed.

(** X20: a dummy item (flag [M_EXTEND]) at index 0 has no master item to
    walk back to: when the first screen is shown, has a page to show it on,
    and the header is not shown or [printHeader] returns, the behaviour of
    [menuWriteBuffer] is undefined: the walk back reads [pItems[-1]], before
    the item array. *)
Theorem menuWriteBuffer_first_item_dummy fuel (st : state W) vmem p m it j :
  menus st !! p = Some m ->
  nScreen m = 0 -> 0 < nMenuItems m ->
  1 <= j <= MENU_ITEMS_PER_SCREEN -> page_reserved m j = false ->
  read_item st m 0 = Done it -> Z.land (flags it) M_EXTEND <> 0 ->
  (header_shown m = true -> exists drawn, printHeader fuel st p = Done drawn) ->
  menuWriteBuffer fuel st vmem p = Fault.
Proof.
  intros Hm Hs Hn Hj Hfree Hit Hext Hheader.
  unfold menuWriteBuffer, load_menu. rewrite Hm. osimpl.
  fold (header_shown m).
  assert (Hhd : exists hd,
            (if header_shown m
             then drawn ← printHeader fuel st p; Done (LcdClearPage 0 :: drawn)
             else Done []) = Done hd).
  { destruct (header_shown m); [|eauto].
    destruct (Hheader eq_refl) as [drawn ->]. osimpl. eauto. }
  destruct Hhd as [hd ->]. osimpl.
  rewrite Hs. change (to_int8 0) with 0. rewrite Z.mul_0_l. change (to_uint8 0) with 0.
  destruct (getNextPage_next_free_page_aux m 0 ltac:(lia)) as (q & Hrun & Hq).
  rewrite Hrun. osimpl.
  assert (Hq0 : (q =? 0) = false).
  { destruct Hq as [(-> & Hall)|(Hq & _)].
    - unfold page_reserved in Hfree. rewrite Hall in Hfree by lia. discriminate.
    - apply Z.eqb_neq. lia. }
  change 256%nat with (S 255). generalize 255%nat. intros fuel'.
  cbn [menuWriteBuffer_items].
  destruct (Z.ltb_spec 0 (nMenuItems m)); [|lia]. rewrite Hq0. cbn [negb andb].
  rewrite (write_item_first_dummy st vmem p m (to_int8 (nCurrentItem m)) q it
             Hit Hext).
  reflexivity.
Qed.


(** *** When [menuWriteBuffer] returns *)










Lemma rows_shown_at n (c : Z) pages :
  forall i, i <= c ->
    map snd (List.filter (fun r => fst r =? c) (rows_shown n i pages))
    = if (c <? n) && (c - i <? Z.of_nat (length pages))
      then match pages !! Z.to_nat (c - i) with Some pg => [pg] | None => [] end
      else [].
Proof.
  induction pages as [|pg pages IH]; intros i Hi.
  - cbn [rows_shown List.filter map length]. rewrite lookup_nil.
    destruct ((c <? n) && _); reflexivity.
  - cbn [rows_shown]. destruct (Z.ltb_spec i n) as [Hin|Hin].
    + cbn [List.filter fst]. destruct (Z.eqb_spec i c) as [->|Hne].
      * rewrite rows_shown_above by lia. cbn [map snd].
        destruct (Z.ltb_spec c n); [|lia]. rewrite Z.sub_diag.
        cbn [length]. destruct (Z.ltb_spec 0 (Z.of_nat (S (length pages)))); [|lia].
        reflexivity.
      * rewrite IH by lia. cbn [length].
        replace (Z.to_nat (c - i)) with (S (Z.to_nat (c - (i + 1)))) by lia.
        cbn [lookup list_lookup].
        destruct (Z.ltb_spec c n); cbn [andb]; [|reflexivity].
        destruct (Z.ltb_spec (c - (i + 1)) (Z.of_nat (length pages)));
          destruct (Z.ltb_spec (c - i) (Z.of_nat (S (length pages))));
          try lia; reflexivity.
    + cbn [List.filter map]. destruct (Z.ltb_spec c n); [lia|reflexivity].
Qed.

(** X26: with room for the seven item rows and at most 30 pages, whenever
    [menuWriteBuffer] returns on a menu of at most 128 items, with a row left
    for items, whose current item is one of its items and whose screen index
    is below 128 with [nScreen * itemsPerScreen] below 256: if the screen
    shown is the screen of the current item, the selection mark
    ([lcdBufferInvertPage]) is put on exactly one page, the one the current
    item is printed on; on any other screen it is put on no page. *)
Theorem menuWriteBuffer_marks_current_on_its_screen
    fuel (st : state W) vmem p m evs :
  menus st !! p = Some m ->
  7 <= MENU_ITEMS_PER_SCREEN <= 30 ->
  0 < determineItemsPerScreen m ->
  0 <= nCurrentItem m < nMenuItems m -> nMenuItems m <= 128 ->
  0 <= nScreen m < 128 -> nScreen m * determineItemsPerScreen m < 256 ->
  menuWriteBuffer fuel st vmem p = Done evs ->
  (nScreen m = nCurrentItem m / determineItemsPerScreen m ->
   exists pg, marked_pages evs = [pg] /\ In (nCurrentItem m, pg) (item_calls evs))
  /\ (nScreen m <> nCurrentItem m / determineItemsPerScreen m ->
      marked_pages evs = []).
Proof.
  intros Hm Hcap Hips Hc Hn Hs Hfirst Hrun.
  destruct (menuWriteBuffer_events fuel st vmem p m evs Hm ltac:(lia) ltac:(lia) Hrun)
    as (Hcalls & _ & Hinv).
  rewrite (to_int8_id (nScreen m)) in * by lia.
  rewrite (to_int8_id (nCurrentItem m)) in Hinv by lia.
  rewrite to_uint8_id in * by nia.
  set (ips := determineItemsPerScreen m) in *.
  set (c := nCurrentItem m) in *. set (s := nScreen m) in *.
  assert (Hpages : Z.of_nat (length (pages_after m 0)) = ips).
  { pose proof (reserved_rows_range (reservedAreas m)) as Hrows.
    subst ips. rewrite determineItemsPerScreen_formula.
    rewrite to_uint8_id by lia.
    unfold pages_after. change (0 + 1) with 1. rewrite Z.sub_0_r.
    replace MENU_ITEMS_PER_SCREEN with (7 + (MENU_ITEMS_PER_SCREEN - 7)) at 1 by lia.
    rewrite seqZ_app by lia. rewrite List.filter_app, length_app, Nat2Z.inj_add.
    rewrite free_rows_count. change (1 + 7) with 8.
    rewrite filter_all.
    - rewrite length_seqZ. lia.
    - intros j Hj. apply In_seqZ in Hj.
      rewrite page_reserved_high by lia. reflexivity. }
  pose proof (Z.div_mod c ips ltac:(lia)) as Hdiv.
  pose proof (Z.mod_pos_bound c ips Hips) as Hmod.
  set (q := c / ips) in *.
  pose proof Hinv as Hsrc.
  split.
  - intros Hscreen. rewrite Hscreen in *.
    assert (Hfrom : q * ips <= c) by lia.
    assert (Hc1 : (c <? nMenuItems m) = true) by (apply Z.ltb_lt; lia).
    assert (Hc2 : (c - q * ips <? Z.of_nat (length (pages_after m 0))) = true)
      by (apply Z.ltb_lt; lia).
    rewrite (rows_shown_at _ c _ (q * ips) Hfrom), Hc1, Hc2 in Hinv.
    cbn [andb] in Hinv.
    destruct (lookup_lt_is_Some_2 (pages_after m 0) (Z.to_nat (c - q * ips)))
      as [pg Hpg]; [lia|].
    rewrite Hpg in Hinv. exists pg. split; [assumption|].
    assert (Hin : In pg (marked_pages evs)) by (rewrite Hinv; left; reflexivity).
    rewrite Hcalls. rewrite Hsrc in Hin.
    apply in_map_iff in Hin as ([i pg'] & Heq & Hin).
    cbn [snd] in Heq. subst pg'. apply List.filter_In in Hin as [Hin Hi].
    cbn [fst] in Hi. apply Z.eqb_eq in Hi. subst i. assumption.
  - intros Hscreen. destruct (Z_lt_le_dec c (s * ips)) as [Hbefore|Hfrom].
    + rewrite rows_shown_above in Hinv by lia. assumption.
    + assert (Hc2 : (c - s * ips <? Z.of_nat (length (pages_after m 0))) = false).
      { apply Z.ltb_ge. rewrite Hpages.
        destruct (Z_le_gt_dec ips (c - s * ips)); [assumption|exfalso].
        apply Hscreen. subst q. apply (Z.div_unique c ips s (c - s * ips)); lia. }
      rewrite (rows_shown_at _ c _ (s * ips) Hfrom), Hc2, andb_false_r in Hinv.
      assumption.
Qed.

(** *** [printHeader] *)

(** X24: when the title is a string the driver measures by its length and
    the navigation numbers leave room for at least one and fewer than 23
    characters, [printHeader] returns: after the navigation numbers it
    writes the first [w] characters of the title, where [w] is the smaller of
    the title length (as a uint8) and one less than the number of characters
    that fit left of the navigation numbers, and then the underline.  [w] is
    at most 21, so the copy stays within the 22 bytes of [title]. *)
Theorem printHeader_title_fits fuel (st : state W) p m occupied nav s :
  menus st !! p = Some m ->
  printNavNumbers st m = Done (occupied, nav) ->
  preferred_title fuel st p m = Done (Some s) ->
  lcdGetStringLength (Some s) = Z.of_nat (String.length s) ->
  0 < LCD_CHAR_WIDTH ->
  LCD_CHAR_WIDTH <= LCD_COLS - occupied < 23 * LCD_CHAR_WIDTH ->
  exists w ev,
    w = Z.min (to_uint8 (Z.of_nat (String.length s)))
              ((LCD_COLS - occupied) / LCD_CHAR_WIDTH - 1)
    /\ 0 <= w <= 21
    /\ printHeader fuel st p
       = Done (nav ++ [ev] ++ [LcdSetHLine 0 (LCD_COLS - 1) 7])
    /\ (ev = LcdPrintStringCentered (substring 0 (Z.to_nat w) s) 0
        \/ ev = LcdPrintString (Some (substring 0 (Z.to_nat w) s))
                  (to_int8 (LCD_COLS - occupied - LCD_CHAR_WIDTH
                            - w * LCD_CHAR_WIDTH)) 0).
Proof.
  intros Hm Hnav Htitle Hlen Hcw Hroom.
  set (len := Z.of_nat (String.length s)) in *.
  set (fit := (LCD_COLS - occupied) / LCD_CHAR_WIDTH - 1).
  assert (Hfit : 0 <= fit <= 21).
  { subst fit.
    assert (1 <= (LCD_COLS - occupied) / LCD_CHAR_WIDTH)
      by (apply Z.div_le_lower_bound; lia).
    assert ((LCD_COLS - occupied) / LCD_CHAR_WIDTH < 23)
      by (apply Z.div_lt_upper_bound; lia).
    lia. }
  pose proof (to_uint8_range len) as Hlen8.
  assert (Hle : to_uint8 len <= len).
  { unfold to_uint8. apply Z.mod_le; lia. }
  exists (Z.min (to_uint8 len) fit).
  unfold printHeader, load_menu. rewrite Hm. osimpl. rewrite Hnav. osimpl.
  rewrite Htitle. osimpl.
  destruct (Z.eqb_spec LCD_CHAR_WIDTH 0); [lia|].
  rewrite Z.quot_div_nonneg by lia. fold fit. rewrite (to_uint8_id fit) by lia.
  rewrite Hlen.
  assert (Hw : (if to_uint8 len <? fit then to_uint8 len else fit)
               = Z.min (to_uint8 len) fit).
  { destruct (Z.ltb_spec (to_uint8 len) fit); lia. }
  rewrite Hw. set (w := Z.min (to_uint8 len) fit).
  assert (Hwr : 0 <= w <= 21) by (subst w; lia).
  assert (Hcopy : copy_title (Some s) w = Done (substring 0 (Z.to_nat w) s)).
  { unfold copy_title. destruct (Z.leb_spec 22 w); [lia|].
    destruct (Z.eqb_spec w 0) as [->|Hnz]; [destruct s; reflexivity|].
    fold len. destruct (Z.leb_spec w (len + 1)); [reflexivity|lia]. }
  rewrite Hcopy. osimpl.
  destruct (w <=? _).
  - eexists. split; [reflexivity|]. split; [assumption|].
    split; [reflexivity|]. left. reflexivity.
  - eexists. split; [reflexivity|]. split; [assumption|].
    split; [reflexivity|]. right. reflexivity.
Qed.

End DrawingProperties.

(** *** The layout of a right-aligned item *)

Section LayoutAlignment.

Variable MENU_MARGIN LCD_COLS LCD_CHAR_WIDTH : Z.
Variable lcdGetStringLength : string -> Z.

Local Abbreviation item_layout :=
  (item_layout MENU_MARGIN LCD_COLS LCD_CHAR_WIDTH lcdGetStringLength).

(** X25: in a right-aligned item ([M_RIGHT]) the last field -- the value,
    or the description under [M_SWAP] --, when it is not empty, ends at the
    right margin, [LCD_COLS - MENU_MARGIN]; except in a menu with a selection
    mark for an item without number text, where the slot of the mark is not
    part of the total size and the line ends one character width past the
    margin. *)
Theorem item_layout_right_aligned m it tn td pf nrSize valSize :
  0 <= MENU_MARGIN <= LCD_COLS -> LCD_COLS <= 30000 ->
  0 <= LCD_CHAR_WIDTH <= 255 ->
  0 <= nrSize <= 255 -> 0 <= valSize <= 255 ->
  Z.land (flags it) (Z.lor M_ALIGN_0 M_ALIGN_1) = M_RIGHT ->
  let lay := item_layout m it tn td pf nrSize valSize in
  let past :=
    if (l_nrSize lay =? 0) && negb (l_selSize lay =? 0)
    then LCD_CHAR_WIDTH else 0 in
  if Z.land (flags it) M_SWAP =? 0
  then l_valSize lay <> 0 ->
       l_valPos lay + l_valSize lay = LCD_COLS - MENU_MARGIN + past
  else l_descSize lay <> 0 ->
       l_descPos lay + l_descSize lay = LCD_COLS - MENU_MARGIN + past.
Proof.
  intros Hmm Hcols Hcw Hnr Hval Hright. unfold item_layout. rewrite Hright.
  cbn [l_nrSize l_selSize l_valSize l_valPos l_descSize l_descPos].
  change (M_RIGHT =? M_RIGHT) with true. change (M_RIGHT =? M_SPLIT) with false.
  cbv iota.
  set (nr := if nrSize =? 0 then _ else nrSize).
  set (desc := to_uint8 (lcdGetStringLength td * LCD_CHAR_WIDTH)).
  set (sel := to_uint8 _).
  assert (Hnr8 : 0 <= nr <= 255).
  { subst nr. destruct (nrSize =? 0); [|lia].
    pose proof (to_uint8_range (lcdGetStringLength tn * LCD_CHAR_WIDTH)). lia. }
  assert (Hdesc8 : 0 <= desc <= 255)
    by (subst desc; pose proof (to_uint8_range (lcdGetStringLength td * LCD_CHAR_WIDTH)); lia).
  assert (Hi16 : forall z, -32768 <= z < 32768 -> to_int16 z = z).
  { intros z Hz. unfold to_int16. rewrite Z.mod_small; lia. }
  destruct (Z.eqb_spec nr 0) as [Hnr0|Hnr0];
    destruct (Z.eqb_spec desc 0) as [Hd0|Hd0];
    destruct (Z.eqb_spec valSize 0) as [Hv0|Hv0];
    destruct (Z.eqb_spec sel 0) as [Hs0|Hs0];
    destruct (Z.land (flags it) M_SWAP =? 0);
    cbn [andb negb]; intros Hne; try contradiction;
    repeat match goal with
           | |- context [to_int16 ?z] =>
               lazymatch z with
               | context [to_int16 _] => fail
               | _ => rewrite (Hi16 z) by lia
               end
           end;
    lia.
Qed.

End LayoutAlignment.
End MenuCore.

Arguments menuUp_scan {W} fuel st pMenu attemptedItem.
Arguments menuUp MENU_ITEMS_PER_SCREEN {W} st p.
Arguments menuDown_scan {W} fuel st pMenu attemptedItem.
Arguments menuDown MENU_ITEMS_PER_SCREEN {W} st p.
Arguments menuPositionTop_loop MENU_ITEMS_PER_SCREEN {W} fuel st p.
Arguments menuPositionTop MENU_ITEMS_PER_SCREEN {W} st p.
Arguments menuEnter MENU_ITEMS_PER_SCREEN {W} app st p.
Arguments menuBack MENU_ITEMS_PER_SCREEN {W} st p.
Arguments menuTop {W} fuel st p.


Arguments menu_inv MENU_ITEMS_PER_SCREEN {W} st p.
Arguments stated_inv MENU_ITEMS_PER_SCREEN {W} st p.
Arguments cursor {W} st p.
Arguments run MENU_ITEMS_PER_SCREEN {W} app op st p.
Arguments printItem {W} MENU_MARGIN LCD_COLS LCD_CHAR_WIDTH lcdGetStringLength
  lcdGetFloatLength lcdGetIntLength st vmem p nItem page nrSize.

(** * Properties of the decimal selection *)

(** ** Exact floating-point operations *)

Section Exactness.

Lemma digits2_pos_bounds (p : positive) :
  2 ^ (Zpos (digits2_pos p) - 1) <= Zpos p < 2 ^ Zpos (digits2_pos p).
Proof.
  induction p as [p IH|p IH|]; cbn [digits2_pos].
  - rewrite Pos2Z.inj_succ. replace (Z.succ (Zpos (digits2_pos p)) - 1)
      with (Z.succ (Zpos (digits2_pos p) - 1)) by lia.
    rewrite !Z.pow_succ_r by lia. lia.
  - rewrite Pos2Z.inj_succ. replace (Z.succ (Zpos (digits2_pos p)) - 1)
      with (Z.succ (Zpos (digits2_pos p) - 1)) by lia.
    rewrite !Z.pow_succ_r by lia. lia.
  - cbn. lia.
Qed.

Lemma Zdigits2_bounds (M : Z) :
  0 < M -> 0 < Zdigits2 M /\ 2 ^ (Zdigits2 M - 1) <= M < 2 ^ Zdigits2 M.
Proof.
  intros HM. destruct M as [|p|p]; try lia. cbn [Zdigits2].
  split; [lia|apply digits2_pos_bounds].
Qed.

Lemma Zdigits2_unique (M d : Z) :
  0 < M -> 2 ^ (d - 1) <= M < 2 ^ d -> Zdigits2 M = d.
Proof.
  intros HM Hd. destruct (Zdigits2_bounds M HM) as [Hpos Hb].
  assert (0 < d).
  { destruct (Z_lt_le_dec 0 d); [assumption|].
    assert (2 ^ d <= 2 ^ 0) by (apply Z.pow_le_mono_r; lia).
    change (2 ^ 0) with 1 in *. lia. }
  destruct (Z.lt_trichotomy (Zdigits2 M) d) as [Hlt|[Heq|Hgt]]; [|assumption|].
  - assert (2 ^ Zdigits2 M <= 2 ^ (d - 1)) by (apply Z.pow_le_mono_r; lia). lia.
  - assert (2 ^ d <= 2 ^ (Zdigits2 M - 1)) by (apply Z.pow_le_mono_r; lia). lia.
Qed.

Lemma Zdigits2_mul_pow2 (M k : Z) :
  0 < M -> 0 <= k -> Zdigits2 (M * 2 ^ k) = Zdigits2 M + k.
Proof.
  intros HM Hk. destruct (Zdigits2_bounds M HM) as [Hpos Hb].
  assert (0 < 2 ^ k) by (apply Z.pow_pos_nonneg; lia).
  apply Zdigits2_unique; [nia|].
  replace (Zdigits2 M + k - 1) with ((Zdigits2 M - 1) + k) by lia.
  rewrite !Z.pow_add_r by lia. nia.
Qed.

Lemma Zdigits2_div_pow2 (M k : Z) :
  0 <= k -> 2 ^ k <= M -> Zdigits2 (M / 2 ^ k) = Zdigits2 M - k.
Proof.
  intros Hk HM.
  assert (Hp : 0 < 2 ^ k) by (apply Z.pow_pos_nonneg; lia).
  assert (HM0 : 0 < M) by lia.
  destruct (Zdigits2_bounds M HM0) as [Hpos Hb].
  assert (Hq : 1 <= M / 2 ^ k).
  { apply Z.div_le_lower_bound; lia. }
  assert (Hkd : k < Zdigits2 M).
  { destruct (Z_lt_le_dec k (Zdigits2 M)); [assumption|].
    assert (2 ^ Zdigits2 M <= 2 ^ k) by (apply Z.pow_le_mono_r; lia). lia. }
  apply Zdigits2_unique; [lia|]. split.
  - apply Z.div_le_lower_bound; [lia|].
    rewrite <- Z.pow_add_r by lia.
    replace (k + (Zdigits2 M - k - 1)) with (Zdigits2 M - 1) by lia. lia.
  - apply Z.div_lt_upper_bound; [lia|].
    rewrite <- Z.pow_add_r by lia.
    replace (k + (Zdigits2 M - k)) with (Zdigits2 M) by lia. lia.
Qed.



Lemma Zdigits2_lt_pow2 (A k : Z) : 0 < A -> A < 2 ^ k -> Zdigits2 A <= k.
Proof.
  intros HA Hk. destruct (Zdigits2_bounds A HA) as [HpA HbA].
  destruct (Z_le_gt_dec (Zdigits2 A) k); [assumption|exfalso].
  destruct (Z_lt_le_dec k 0).
  - rewrite Z.pow_neg_r in Hk by lia. lia.
  - assert (2 ^ k <= 2 ^ (Zdigits2 A - 1)) by (apply Z.pow_le_mono_r; lia). lia.
Qed.

(** Shifting out zero bits loses nothing. *)
Lemma shr_1_even (M : Z) :
  shr_1 (Build_shr_record (2 * M) false false) = Build_shr_record M false false.
Proof. destruct M; reflexivity. Qed.

Lemma pow2_xO (p : positive) : 2 ^ Zpos p~0 = 2 ^ Zpos p * 2 ^ Zpos p.
Proof.
  replace (Zpos p~0) with (Zpos p + Zpos p) by lia.
  apply Z.pow_add_r; lia.
Qed.

Lemma pow2_xI (p : positive) : 2 ^ Zpos p~1 = 2 * (2 ^ Zpos p * 2 ^ Zpos p).
Proof.
  replace (Zpos p~1) with (Z.succ (Zpos p + Zpos p)) by lia.
  rewrite Z.pow_succ_r, Z.pow_add_r by lia. reflexivity.
Qed.

Lemma iter_shr_1_exact (p : positive) :
  forall M : Z,
    SpecFloat.iter_pos shr_1 p (Build_shr_record (M * 2 ^ Zpos p) false false)
    = Build_shr_record M false false.
Proof.
  induction p as [p IH|p IH|]; intros M; cbn [SpecFloat.iter_pos].
  - replace (M * 2 ^ Zpos p~1) with (2 * ((M * 2 ^ Zpos p) * 2 ^ Zpos p))
      by (rewrite pow2_xI; ring).
    rewrite shr_1_even, IH, IH. reflexivity.
  - replace (M * 2 ^ Zpos p~0) with ((M * 2 ^ Zpos p) * 2 ^ Zpos p)
      by (rewrite pow2_xO; ring).
    rewrite IH, IH. reflexivity.
  - change (2 ^ 1) with 2. rewrite Z.mul_comm. apply shr_1_even.
Qed.

Lemma iter_xO_value (d m : positive) :
  Zpos (Pos.iter xO m d) = Zpos m * 2 ^ Zpos d.
Proof.
  induction d as [|d IH] using Pos.peano_ind.
  - cbn. lia.
  - rewrite Pos.iter_succ, Pos2Z.inj_xO, IH, Pos2Z.inj_succ, Z.pow_succ_r by lia.
    ring.
Qed.

Variable prec emax : Z.

(** A product or sum whose low bits are zero is rounded to itself: [M * 2^e]
    with [M = m' * 2^n], [n] the number of bits the format drops. *)
Lemma binary_round_aux_exact (s : bool) (M m' : positive) (e : Z) :
  let n := fexp prec emax (Zdigits2 (Zpos M) + e) - e in
  0 <= n ->
  Zpos M = Zpos m' * 2 ^ n ->
  e + n <= emax - prec ->
  binary_round_aux prec emax s (Zpos M) e loc_Exact = S754_finite s m' (e + n).
Proof.
  intros n Hn HM Hmax.
  assert (Hdig : Zdigits2 (Zpos m') + (e + n) = Zdigits2 (Zpos M) + e).
  { rewrite HM, Zdigits2_mul_pow2 by lia. lia. }
  assert (Hfix : fexp prec emax (Zdigits2 (Zpos m') + (e + n)) - (e + n) = 0).
  { rewrite Hdig. subst n. lia. }
  unfold binary_round_aux, shr_fexp. cbn [shr_record_of_loc].
  fold n. unfold shr at 1.
  assert (Hfirst : (match n with
                    | Zpos p =>
                        (SpecFloat.iter_pos shr_1 p (Build_shr_record (Zpos M) false false),
                         e + n)
                    | _ => (Build_shr_record (Zpos M) false false, e)
                    end)
                   = (Build_shr_record (Zpos m') false false, e + n)).
  { destruct n as [|p|p] eqn:En; try lia.
    - change (2 ^ 0) with 1 in HM. assert (M = m') as -> by lia.
      rewrite Z.add_0_r. reflexivity.
    - rewrite HM, iter_shr_1_exact. reflexivity. }
  rewrite Hfirst. cbn [shr_m loc_of_shr_record round_nearest_even].
  rewrite Hfix. cbn [shr shr_m shr_record_of_loc].
  destruct (Z.leb_spec (e + n) (emax - prec)); [reflexivity|lia].
Qed.


Lemma binary_round_norm (s : bool) (Q : positive) (g : Z) :
  let d := prec - Zdigits2 (Zpos Q) in
  0 <= d -> 3 - emax - prec <= g - d -> g - d <= emax - prec ->
  binary_round prec emax s Q g = norm prec s Q g.
Proof.
  intros d Hd Hmin Hmax. unfold binary_round, norm. fold d.
  assert (Hfexp : fexp prec emax (Zpos (digits2_pos Q) + g) = g - d).
  { unfold fexp, emin. subst d. cbn [Zdigits2] in *. lia. }
  rewrite Hfexp.
  assert (Hpow : 0 < 2 ^ d) by (apply Z.pow_pos_nonneg; lia).
  assert (Halign : exists mz,
             shl_align Q g (g - d) = (mz, g - d)
             /\ Zpos mz = Zpos Q * 2 ^ d).
  { unfold shl_align. replace (g - d - g) with (- d) by lia.
    destruct d as [|p|p] eqn:Ed; try lia.
    - exists Q. cbn. rewrite Z.sub_0_r. split; [reflexivity|lia].
    - cbn [Z.opp]. eexists. split; [reflexivity|]. apply iter_xO_value. }
  destruct Halign as (mz & -> & Hmz).
  rewrite <- Hmz, Pos2Z.id.
  pose proof (binary_round_aux_exact s mz mz (g - d)) as Hexact.
  cbn zeta in Hexact.
  assert (Hn : fexp prec emax (Zdigits2 (Zpos mz) + (g - d)) - (g - d) = 0).
  { rewrite Hmz, Zdigits2_mul_pow2 by lia.
    replace (Zdigits2 (Zpos Q) + d + (g - d)) with (Zpos (digits2_pos Q) + g)
      by (cbn [Zdigits2]; lia).
    lia. }
  rewrite Hn in Hexact. rewrite Z.add_0_r in Hexact.
  apply Hexact; [lia|cbn; lia|lia].
Qed.



End Exactness.

(** *** The operations of [decimal_at] on a fraction *)



Lemma f32_of_Z_norm (S : positive) :
  Zpos S < 2 ^ 24 -> f32_of_Z (Zpos S) = norm 24 false S 0.
Proof.
  intros HS. unfold f32_of_Z, binary_normalize.
  pose proof (Zdigits2_lt_pow2 (Zpos S) 24 ltac:(lia) HS).
  destruct (Zdigits2_bounds (Zpos S) ltac:(lia)) as [Hpos _].
  apply binary_round_norm; lia.
Qed.





Lemma shl_align_value (m : positive) (e ez : Z) :
  ez <= e -> Zpos (fst (shl_align m e ez)) = Zpos m * 2 ^ (e - ez).
Proof.
  intros Hle. unfold shl_align.
  destruct (ez - e) as [|d|d] eqn:Hd; try lia.
  - replace (e - ez) with 0 by lia. cbn. lia.
  - cbn [fst]. rewrite iter_xO_value. f_equal. f_equal. lia.
Qed.







(** *** The fractional part handed to the truncation block *)

Lemma valid_canonical (s : bool) (m : positive) (e : Z) :
  valid_binary 24 128 (S754_finite s m e) = true ->
  fexp 24 128 (Zdigits2 (Zpos m) + e) = e
  /\ -149 <= e <= 104 /\ Zdigits2 (Zpos m) <= 24 /\ Zpos m < 2 ^ 24.
Proof.
  unfold valid_binary, bounded, canonical_mantissa. intros H.
  apply andb_true_iff in H as [Hc Hb].
  apply Z.eqb_eq in Hc. apply Z.leb_le in Hb.
  change (Zpos (digits2_pos m)) with (Zdigits2 (Zpos m)) in Hc.
  destruct (Zdigits2_bounds (Zpos m) ltac:(lia)) as [Hpos Hbd].
  assert (Hd : Zdigits2 (Zpos m) <= 24) by (unfold fexp, emin in Hc; lia).
  split; [exact Hc|]. split; [unfold fexp, emin in Hc; lia|].
  split; [exact Hd|].
  apply Z.lt_le_trans with (2 ^ Zdigits2 (Zpos m)); [lia|].
  apply Z.pow_le_mono_r; lia.
Qed.

Lemma negate_exact (m : positive) (e : Z) :
  valid_binary 24 128 (S754_finite true m e) = true ->
  SFmul 24 128 (S754_finite true m e) (f32_of_Z (-1)) = S754_finite false m e.
Proof.
  intros Hv. apply valid_canonical in Hv as (Hc & He & Hd & Hm).
  change (f32_of_Z (-1)) with (S754_finite true 8388608 (-23)).
  unfold SFmul. cbn [xorb].
  assert (Hdig : Zdigits2 (Zpos (m * 8388608)) = Zdigits2 (Zpos m) + 23).
  { rewrite Pos2Z.inj_mul. change (Zpos 8388608) with (2 ^ 23).
    apply Zdigits2_mul_pow2; lia. }
  assert (Hn : fexp 24 128 (Zdigits2 (Zpos (m * 8388608)) + (e + -23)) - (e + -23) = 23).
  { rewrite Hdig. unfold fexp, emin in *. lia. }
  rewrite (binary_round_aux_exact 24 128 false (m * 8388608) m (e + -23)).
  - rewrite Hn. f_equal. lia.
  - rewrite Hn. lia.
  - rewrite Hn. rewrite Pos2Z.inj_mul. reflexivity.
  - rewrite Hn. lia.
Qed.

Lemma sign_removed (s : bool) (m : positive) (e : Z) :
  valid_binary 24 128 (S754_finite s m e) = true ->
  (if SFltb (S754_finite s m e) (f32_of_Z 0)
   then SFmul 24 128 (S754_finite s m e) (f32_of_Z (-1))
   else S754_finite s m e) = S754_finite false m e.
Proof.
  intros Hv. destruct s.
  - change (SFltb (S754_finite true m e) (f32_of_Z 0)) with true.
    cbv iota. apply negate_exact, Hv.
  - reflexivity.
Qed.

(** An integer that is a float is converted back to that float. *)
Lemma f32_of_Z_integral (m : positive) (e : Z) :
  valid_binary 24 128 (S754_finite false m e) = true -> 0 <= e ->
  f32_of_Z (Zpos m * 2 ^ e) = S754_finite false m e.
Proof.
  intros Hv He0. apply valid_canonical in Hv as (Hc & He & Hd & Hm).
  assert (Hpow : 0 < 2 ^ e) by (apply Z.pow_pos_nonneg; lia).
  destruct (Zpos m * 2 ^ e) as [|M|M] eqn:HM; try nia.
  unfold f32_of_Z, binary_normalize, binary_round.
  assert (Hdig : Zdigits2 (Zpos M) = Zdigits2 (Zpos m) + e).
  { rewrite <- HM. apply Zdigits2_mul_pow2; lia. }
  change (Zpos (digits2_pos M)) with (Zdigits2 (Zpos M)).
  assert (Hf : fexp 24 128 (Zdigits2 (Zpos M) + 0) = e).
  { rewrite Hdig, Z.add_0_r. exact Hc. }
  rewrite Hf.
  assert (Hsh : shl_align M 0 e = (M, 0)).
  { unfold shl_align. destruct (e - 0) eqn:Hd0; try reflexivity. lia. }
  rewrite Hsh.
  rewrite (binary_round_aux_exact 24 128 false M m 0);
    rewrite ?Hf, ?Z.sub_0_r; try lia.
  f_equal.
Qed.

Lemma SFsub_self (m : positive) (e : Z) :
  SFsub 24 128 (S754_finite false m e) (S754_finite false m e) = S754_zero false.
Proof.
  unfold SFsub. rewrite Z.min_id. cbn [cond_Zopp]. rewrite Z.sub_diag. reflexivity.
Qed.

Lemma fractional_part_shape (s : bool) (m : positive) (e : Z) :
  valid_binary 24 128 (S754_finite s m e) = true ->
  int32_of_float (S754_finite false m e) <> Fault ->
  exists x, fractional_part (S754_finite s m e) = Done x
    /\ (x = S754_zero false
        \/ exists m' e', x = S754_finite false m' e' /\ fraction m' e').
Proof.
  intros Hv Hfit. unfold fractional_part. rewrite sign_removed by assumption.
  assert (Hv' : valid_binary 24 128 (S754_finite false m e) = true) by exact Hv.
  pose proof (valid_canonical _ _ _ Hv') as (Hc & He & Hd & Hm).
  destruct (Zdigits2_bounds (Zpos m) ltac:(lia)) as [Hpos Hbd].
  unfold int32_of_float in *. cbv zeta in *.
  destruct (Z.leb_spec 0 e) as [He0|He0].
  - (* an integer: nothing is left *)
    destruct ((-2147483648 <=? Zpos m * 2 ^ e) && (Zpos m * 2 ^ e <=? 2147483647));
      [|congruence].
    cbn [mbind outcome_mbind outcome_bind].
    rewrite f32_of_Z_integral by assumption. rewrite SFsub_self.
    eexists; split; [reflexivity|left; reflexivity].
  - set (E := - e) in *.
    assert (HpowE : 0 < 2 ^ E) by (apply Z.pow_pos_nonneg; lia).
    set (t := Zpos m / 2 ^ E) in *.
    assert (Ht : 0 <= t <= Zpos m).
    { subst t. split; [apply Z.div_pos; lia|].
      apply Z.div_le_upper_bound; nia. }
    assert (Hrange : (-2147483648 <=? t) && (t <=? 2147483647) = true).
    { apply andb_true_iff. split; apply Z.leb_le; lia. }
    rewrite Hrange. cbn [mbind outcome_mbind outcome_bind].
    destruct t as [|tp|tp] eqn:Htp; try lia.
    + (* already below one *)
      change (f32_of_Z 0) with (S754_zero false). cbn [SFsub].
      eexists; split; [reflexivity|right].
      exists m, e. split; [reflexivity|].
      assert (Zpos m < 2 ^ E).
      { destruct (Z_lt_le_dec (Zpos m) (2 ^ E)); [assumption|exfalso].
        assert (1 <= Zpos m / 2 ^ E) by (apply Z.div_le_lower_bound; lia).
        fold t in Htp. lia. }
      unfold fraction. fold E. lia.
    + (* integer part [tp], remainder [m mod 2^E] *)
      assert (HmE : 2 ^ E <= Zpos m).
      { destruct (Z_le_gt_dec (2 ^ E) (Zpos m)); [assumption|exfalso].
        assert (Zpos m / 2 ^ E = 0) by (apply Z.div_small; lia).
        fold t in Htp. lia. }
      assert (HE : Zdigits2 (Zpos m) = 24 /\ E <= 23).
      { assert (E < Zdigits2 (Zpos m)).
        { destruct (Z_lt_le_dec E (Zdigits2 (Zpos m))); [assumption|exfalso].
          assert (2 ^ Zdigits2 (Zpos m) <= 2 ^ E) by (apply Z.pow_le_mono_r; lia).
          lia. }
        unfold fexp, emin in Hc. lia. }
      destruct HE as [Hd24 HE23].
      assert (Hdt : Zdigits2 (Zpos tp) = 24 - E).
      { rewrite <- Htp. subst t. rewrite Zdigits2_div_pow2 by lia. lia. }
      rewrite f32_of_Z_norm by lia.
      unfold norm. rewrite Hdt.
      replace (24 - (24 - E)) with E by lia.
      unfold SFsub. cbn [cond_Zopp].
      replace (Z.min e (0 - E)) with e by lia.
      rewrite !shl_align_value by lia.
      rewrite Z2Pos.id by nia.
      replace (e - e) with 0 by lia. replace (0 - E - e) with 0 by lia.
      change (2 ^ 0) with 1. rewrite !Z.mul_1_r.
      assert (HR : Zpos m - Zpos tp * 2 ^ E = Zpos m mod 2 ^ E).
      { rewrite <- Htp. subst t. rewrite (Z.mod_eq (Zpos m) (2 ^ E)) by lia. lia. }
      rewrite HR.
      pose proof (Z.mod_pos_bound (Zpos m) (2 ^ E) HpowE) as HRb.
      destruct (Zpos m mod 2 ^ E) as [|R|R] eqn:HRm; try lia.
      * eexists; split; [reflexivity|left; reflexivity].
      * unfold binary_normalize.
        pose proof (Zdigits2_lt_pow2 (Zpos R) E ltac:(lia) ltac:(lia)) as HdR.
        destruct (Zdigits2_bounds (Zpos R) ltac:(lia)) as [HposR HbR].
        rewrite binary_round_norm by lia.
        eexists; split; [reflexivity|right].
        unfold norm. set (d := 24 - Zdigits2 (Zpos R)).
        assert (Hpd : 0 < 2 ^ d) by (apply Z.pow_pos_nonneg; lia).
        eexists _, _. split; [reflexivity|].
        unfold fraction. rewrite Z2Pos.id by nia.
        split; [lia|]. split.
        -- assert (H24 : 2 ^ 24 = 2 ^ Zdigits2 (Zpos R) * 2 ^ d).
           { rewrite <- Z.pow_add_r by lia. f_equal. lia. }
           rewrite H24. nia.
        -- replace (- (e - d)) with (E + d) by lia.
           rewrite Z.pow_add_r by lia. nia.
Qed.

(** *** The values [decimal_j], in integers *)










(** * Further properties of the decimal selection *)

(** X10: the sign of the number does not matter. *)
Theorem determineDecimals_ignores_sign (number : spec_float) :
  valid_binary 24 128 number = true ->
  determineDecimals (SFopp number) = determineDecimals number.
Proof.
  intros Hvalid. destruct number as [s|s| |s m e].
  - destruct s; vm_compute; reflexivity.
  - destruct s; vm_compute; reflexivity.
  - reflexivity.
  - unfold determineDecimals, fractional_part. cbn [SFopp].
    rewrite (sign_removed (negb s) m e) by exact Hvalid.
    rewrite (sign_removed s m e) by exact Hvalid.
    reflexivity.
Qed.

(** X11: a number whose magnitude does not fit the [int32] cast -- a finite
    number of magnitude [2^31] or more, an infinity, a NaN -- makes the
    function undefined. *)
Theorem determineDecimals_out_of_range (number : spec_float) :
  valid_binary 24 128 number = true ->
  int32_of_float (SFabs number) = Fault ->
  determineDecimals number = Fault.
Proof.
  intros Hvalid Hfit. destruct number as [s|s| |s m e].
  - discriminate Hfit.
  - destruct s; vm_compute; reflexivity.
  - reflexivity.
  - unfold determineDecimals, fractional_part.
    rewrite (sign_removed s m e) by exact Hvalid.
    cbn [SFabs] in Hfit. rewrite Hfit. reflexivity.
Qed.

Lemma fractional_part_fraction (m : positive) (e : Z) :
  fraction m e ->
  fractional_part (S754_finite false m e) = Done (S754_finite false m e).
Proof.
  intros (He & Hm & Hlt). unfold fractional_part.
  change (f32_of_Z 0) with (S754_zero false).
  change (SFltb (S754_finite false m e) (S754_zero false)) with false.
  cbv iota. unfold int32_of_float. cbv zeta.
  destruct (Z.leb_spec 0 e); [lia|].
  rewrite Z.div_small by lia.
  cbn [mbind outcome_mbind outcome_bind Z.leb Z.compare andb].
  change (f32_of_Z 0) with (S754_zero false). reflexivity.
Qed.

Lemma fractional_part_cases (number x : spec_float) :
  valid_binary 24 128 number = true ->
  fractional_part number = Done x ->
  (exists s, x = S754_zero s)
  \/ exists m e, x = S754_finite false m e /\ fraction m e.
Proof.
  intros Hvalid Hx. destruct number as [s|s| |s m e].
  - left. destruct s; vm_compute in Hx; injection Hx as <-; eauto.
  - destruct s; vm_compute in Hx; discriminate.
  - discriminate Hx.
  - assert (Hfit : int32_of_float (S754_finite false m e) <> Fault).
    { intros Hfault. unfold fractional_part in Hx.
      rewrite (sign_removed s m e) in Hx by exact Hvalid.
      rewrite Hfault in Hx. discriminate. }
    destruct (fractional_part_shape s m e Hvalid Hfit) as (x0 & Hx0 & Hshape).
    rewrite Hx0 in Hx. injection Hx as ->.
    destruct Hshape as [->|Hfrac]; [left; eauto|right; assumption].
Qed.

(** X12: the result depends on the fractional part only: the function
    returns on the fractional part of a number what it returns on the
    number. *)
Theorem determineDecimals_of_fractional_part (number x : spec_float) :
  valid_binary 24 128 number = true ->
  fractional_part number = Done x ->
  determineDecimals x = determineDecimals number.
Proof.
  intros Hvalid Hx.
  assert (Hfix : fractional_part x = Done x).
  { destruct (fractional_part_cases number x Hvalid Hx)
      as [[s ->]|(m & e & -> & Hfrac)].
    - destruct s; reflexivity.
    - apply fractional_part_fraction. assumption. }
  unfold determineDecimals. rewrite Hfix, Hx. reflexivity.
Qed.




(** ** The statements on the sample menus *)

(** C8 on a menu with rows 1, 2 and 4 reserved and a capacity of 7. *)
Lemma determineItemsPerScreen_counts_reserved_rows_witness :
  7 <= 7 < 256
  /\ determineItemsPerScreen 7 menu_reserved
     = 7 - reserved_rows (reservedAreas menu_reserved).
Proof.
  split; [lia|].
  exact (proj1 (determineItemsPerScreen_counts_reserved_rows
                  7 ltac:(lia) menu_reserved)).
Defined.

(** C1 on the option menu: entering item 1 selects it. *)
Lemma menuEnter_selects_current_item_witness :
  menus ex_option !! 1%N = Some menu_option
  /\ exists st' r m',
       menuEnter 7 noapp ex_option 1%N = Done (st', r)
       /\ menus st' !! 1%N = Some m'
       /\ (0 <= nSelectedItem menu_option ->
           nSelectedItem m' = nCurrentItem menu_option)
       /\ (nSelectedItem menu_option < 0 ->
           nSelectedItem m' = nSelectedItem menu_option).
Proof.
  split; [reflexivity|].
  apply (menuEnter_selects_current_item 7 unit noapp ex_option 1%N menu_option
           item_on).
  - reflexivity.
  - cbn. lia.
  - vm_compute. discriminate.
  - reflexivity.
  - reflexivity.
  - intros q Hq. discriminate Hq.
Defined.

(** C1 as stated fails on the frozen option menu: the current item is on the
    screen shown and the selected-item index is -2, not -1, yet [menuEnter]
    leaves the state as it is, selected-item index included. *)
Lemma menuEnter_leaves_frozen_selection :
  menus ex_frozen !! 1%N = Some menu_frozen
  /\ nCurrentItem menu_frozen / determineItemsPerScreen 7 menu_frozen
     = nScreen menu_frozen
  /\ nSelectedItem menu_frozen <> -1
  /\ menuEnter 7 noapp ex_frozen 1%N = Done (ex_frozen, 1%N)
  /\ nSelectedItem menu_frozen <> nCurrentItem menu_frozen.
Proof.
  split; [reflexivity|]. split; [reflexivity|].
  split; [cbn; lia|]. split; [reflexivity|]. cbn. lia.
Qed.

(** C2 on the tree: [menuEnter] on the root. *)
Lemma navigation_frame_witness :
  run 7 noapp OpEnter ex_tree 1%N = Done (ex_tree_entered, 2%N)
  /\ itemArrays ex_tree_entered = itemArrays ex_tree
  /\ nodewise (frame_node OpEnter 1%N 2%N) (menus ex_tree) (menus ex_tree_entered).
Proof.
  split; [reflexivity|].
  apply (navigation_frame 7 unit noapp OpEnter ex_tree ex_tree_entered 1%N 2%N).
  reflexivity.
Defined.

(** C2 as stated fails on the tree: [menuEnter] on the root changes the
    parent link of the submenu, a field outside the cursor fields, of a menu
    other than the one it was called on. *)
Lemma menuEnter_links_submenu :
  menuEnter 7 noapp ex_tree 1%N = Done (ex_tree_entered, 2%N)
  /\ pParentMenu <$> menus ex_tree !! 2%N = Some None
  /\ pParentMenu <$> menus ex_tree_entered !! 2%N = Some (Some 1%N).
Proof. repeat split. Qed.

(** C3 on the full menu: [menuDown] keeps the invariant. *)
Lemma navigation_keeps_menu_inv_witness :
  is_move OpDown = true /\ menu_inv 7 ex_home 1%N = true
  /\ exists st' r,
       run 7 noapp OpDown ex_home 1%N = Done (st', r)
       /\ menu_inv 7 st' 1%N = true.
Proof.
  split; [reflexivity|]. split; [reflexivity|].
  apply (navigation_keeps_menu_inv 7 unit noapp ex_home 1%N OpDown);
    reflexivity.
Defined.

(** C3 as stated fails on the menu with a screen of disabled items: the
    stated invariant holds before [menuDown] (item 0 is enabled and on screen
    0) and not after it (the screen shown is 1, the current item still 0). *)
Lemma menuDown_leaves_stated_inv :
  stated_inv 7 ex_skip 1%N = true
  /\ determineItemsPerScreen 7 menu_skip <> 0
  /\ run 7 noapp OpDown ex_skip 1%N = Done (ex_gap, 1%N)
  /\ stated_inv 7 ex_gap 1%N = false.
Proof.
  split; [reflexivity|]. split; [vm_compute; discriminate|].
  split; reflexivity.
Qed.

(** C4 on the full menu: from item 7 on screen 1 to item 0 on screen 0. *)
Lemma menuPositionTop_reaches_first_enabled_witness :
  geometry_ok 7 menu_home arr_full = true
  /\ cursor_ok 7 menu_home arr_full = true
  /\ exists st' m',
       menuPositionTop 7 ex_home 1%N = Done st'
       /\ menus st' !! 1%N = Some m'
       /\ nScreen m' = 0
       /\ (no_enabled arr_full = true -> nCurrentItem m' = nCurrentItem menu_home)
       /\ (no_enabled arr_full = false ->
           enabled arr_full (nCurrentItem m') = true
           /\ forall j, enabled arr_full j = true -> nCurrentItem m' <= j).
Proof.
  split; [reflexivity|]. split; [reflexivity|].
  apply (menuPositionTop_reaches_first_enabled 7 unit ex_home 1%N menu_home
           10%N arr_full); reflexivity.
Defined.

(** C4 as stated fails when the cursor sits on a disabled item below every
    enabled one: at least one row is left for items, [menuPositionTop]
    returns, the lowest enabled index is 1, and the current item is still
    0. *)
Lemma menuPositionTop_stays_on_disabled_item :
  determineItemsPerScreen 7 menu_low <> 0
  /\ menuPositionTop 7 ex_low 1%N = Done ex_low
  /\ cursor ex_low 1%N = Some (0, 0)
  /\ enabled arr_low 0 = false
  /\ enabled arr_low 1 = true.
Proof.
  split; [vm_compute; discriminate|]. repeat split.
Qed.

(** C5 on the full menu, from item 7 on screen 1. *)
Lemma menuDown_menuUp_inverse_at_home_witness :
  geometry_ok 7 menu_home arr_full = true
  /\ cursor_home 7 menu_home arr_full = true
  /\ menuDown 7 ex_home 1%N = Done (ex_home_down, 1)
  /\ menuUp 7 ex_home 1%N = Done (ex_home_up, 1)
  /\ menuUp 7 ex_home_down 1%N = Done (ex_home, 1)
  /\ menuDown 7 ex_home_up 1%N = Done (ex_home, 1)
  /\ cursor ex_home 1%N = Some (nCurrentItem menu_home, nScreen menu_home).
Proof.
  split; [reflexivity|]. split; [reflexivity|].
  split; [reflexivity|]. split; [reflexivity|].
  apply (menuDown_menuUp_inverse_at_home 7 unit ex_home ex_home_down ex_home_up
           1%N menu_home 10%N arr_full); reflexivity.
Defined.

(** C5 as stated fails on the screen of disabled items, a state [menuDown]
    leads to: from item 0 with screen 1 shown both [menuDown] and [menuUp]
    return 1, and [menuUp] after [menuDown] ends on item 14 with screen 1
    shown. *)
Lemma menuDown_menuUp_not_inverse_on_gap :
  menuDown 7 ex_skip 1%N = Done (ex_gap, 1)
  /\ menuDown 7 ex_gap 1%N = Done (ex_far, 1)
  /\ menuUp 7 ex_gap 1%N = Done (ex_skip, 1)
  /\ menuUp 7 ex_far 1%N = Done (ex_far_up, 1)
  /\ cursor ex_gap 1%N = Some (0, 1)
  /\ cursor ex_far_up 1%N = Some (14, 1).
Proof. repeat split. Qed.

(** C6 on the full menu as a submenu, which has a parent and no selection:
    from item 7 on screen 1 the cursor goes to item 0 on screen 0. *)
Lemma menuBack_cases_witness :
  geometry_ok 7 menu_home_child arr_full = true
  /\ cursor_ok 7 menu_home_child arr_full = true
  /\ exists c',
       menuBack 7 ex_child 1%N
       = Done (store_menu ex_child 1%N
                 (set_nScreen 0 (set_nCurrentItem c' menu_home_child)),
               2%N)
       /\ (no_enabled arr_full = true -> c' = nCurrentItem menu_home_child)
       /\ (no_enabled arr_full = false ->
           enabled arr_full c' = true
           /\ forall j, enabled arr_full j = true -> c' <= j).
Proof.
  split; [reflexivity|]. split; [reflexivity|].
  destruct (menuBack_cases 7 unit ex_child 1%N menu_home_child eq_refl)
    as [_ Hchild].
  destruct (Hchild 2%N eq_refl) as [Htop _].
  exact (Htop eq_refl 10%N arr_full eq_refl eq_refl eq_refl eq_refl).
Defined.

(** C6 as stated fails on a submenu without selection whose cursor is not a
    legal one: [menuBack] returns the parent and leaves the cursor where it
    was, on the disabled item 0 below the enabled item 1 in the first menu,
    on item 14 with screen 0 shown in the second, where every item is
    enabled. *)
Lemma menuBack_leaves_cursor_off_top :
  nSelectedItem menu_low_child = -1
  /\ menuBack 7 ex_low_child 1%N = Done (ex_low_child, 2%N)
  /\ cursor ex_low_child 1%N = Some (0, 0)
  /\ enabled arr_low 0 = false
  /\ enabled arr_low 1 = true
  /\ nSelectedItem menu_stray_child = -1
  /\ menuBack 7 ex_stray_child 1%N = Done (ex_stray_child, 2%N)
  /\ cursor ex_stray_child 1%N = Some (14, 0)
  /\ enabled arr_full 0 = true.
Proof. repeat split. Qed.

(** C7 on the screen of disabled items: item 0 is on screen 0, screen 1 is
    shown. *)
Lemma menuEnter_off_screen_is_noop_witness :
  menus ex_gap !! 1%N = Some menu_gap
  /\ nCurrentItem menu_gap / determineItemsPerScreen 7 menu_gap <> nScreen menu_gap
  /\ exists st',
       menuEnter 7 noapp ex_gap 1%N = Done (st', 1%N)
       /\ menus st' = menus ex_gap
       /\ itemArrays st' = itemArrays ex_gap
       /\ world st' = world ex_gap
       /\ calls st' = calls ex_gap.
Proof.
  split; [reflexivity|]. split; [vm_compute; discriminate|].
  apply (menuEnter_off_screen_is_noop 7 unit noapp ex_gap 1%N menu_gap).
  - reflexivity.
  - cbn. lia.
  - cbn. lia.
  - vm_compute. discriminate.
  - vm_compute. discriminate.
Defined.

(** C10 on item 0 of the option menu, which has no value. *)
Lemma printItem_null_value_is_empty_string_witness :
  string_chars EmptyString = 0
  /\ pValue item_on = None
  /\ exists lay evs pre,
       printItem 2 128 6 string_chars float_chars int_chars ex_option ∅ 1%N 0 1 0
       = Done (lay, evs)
       /\ l_pValueFlags lay = M_STRING
       /\ l_valSize lay = 0
       /\ evs = pre ++ [Load TString DummyString;
                         PrintString EmptyString (l_valPos lay) 1]
       /\ (forall t ptr, In (Load t ptr) evs -> t = TString /\ ptr = DummyString)
       /\ (forall f d x pg, ~ In (PrintFloat f d x pg) evs)
       /\ (forall v x pg, ~ In (PrintInt v x pg) evs).
Proof.
  split; [reflexivity|]. split; [reflexivity|].
  apply (printItem_null_value_is_empty_string unit 2 128 6 string_chars
           float_chars int_chars ex_option ∅ 1%N menu_option item_on 0 1 0);
    reflexivity.
Defined.



(** ** Further statements on the sample menus *)

Arguments climb {W} st n p.
Arguments is_root {W} st r.
Arguments extends {W} st pMenu i.
Arguments dummy_of {W} st pMenu c i.
Arguments printNavNumbers {W} MENU_MARGIN LCD_COLS LCD_CHAR_WIDTH LCD_FONT_WIDTH
  lcdGetStringLength st pMenu.
Arguments preferred_title {W} fuel st p pMenu.
Arguments printHeader {W} MENU_MARGIN LCD_COLS LCD_CHAR_WIDTH LCD_FONT_WIDTH
  lcdGetStringLength fuel st p.
Arguments menuWriteBuffer MENU_ITEMS_PER_SCREEN {W} MENU_MARGIN LCD_COLS
  LCD_CHAR_WIDTH LCD_FONT_WIDTH LCD_PAGE_ROWS lcdGetStringLength
  lcdGetFloatLength lcdGetIntLength fuel st vmem p.

(** X1 on the tree after the submenu has been entered: one step up from the
    leaf. *)
Lemma menuTop_reaches_root_witness :
  climb ex_tree_entered 1 2%N = Some 1%N
  /\ is_root ex_tree_entered 1%N = true
  /\ menuTop 5 ex_tree_entered 2%N = Done 1%N
  /\ forall k q, (k <= 1)%nat -> climb ex_tree_entered k 2%N = Some q ->
       menuTop 5 ex_tree_entered q = Done 1%N.
Proof.
  split; [reflexivity|]. split; [reflexivity|].
  apply (menuTop_reaches_root unit ex_tree_entered 2%N 1%N 1 5);
    [reflexivity | reflexivity | lia].
Defined.

(** X2 on the tree with a back item, after that item has been entered: the
    root and the leaf are each other's parent. *)
Lemma menuTop_diverges_on_cycle_witness :
  climb ex_back_item_entered 1 2%N = Some 1%N
  /\ climb ex_back_item_entered 2 1%N = Some 1%N
  /\ forall fuel, menuTop fuel ex_back_item_entered 2%N = Timeout.
Proof.
  split; [reflexivity|]. split; [reflexivity|].
  apply (menuTop_diverges_on_cycle unit ex_back_item_entered 2%N 1%N 1 1);
    reflexivity.
Defined.

(** X3 on the tree: into the leaf and back. *)
Lemma menuEnter_menuBack_round_trip_witness :
  menuEnter 7 noapp ex_tree 1%N = Done (ex_tree_entered, 2%N)
  /\ exists st'',
       menuBack 7 ex_tree_entered 2%N = Done (st'', 1%N)
       /\ cursor st'' 1%N = cursor ex_tree 1%N
       /\ menus st'' !! 1%N = menus ex_tree_entered !! 1%N
       /\ itemArrays st'' = itemArrays ex_tree.
Proof.
  split; [reflexivity|].
  apply (menuEnter_menuBack_round_trip 7 unit noapp ex_tree ex_tree_entered
           1%N 2%N); [reflexivity | discriminate | reflexivity].
Defined.

(** X4 on the tree with a back item: entering the item of the leaf. *)
Lemma menuEnter_back_item_makes_cycle_witness :
  menuEnter 7 noapp ex_back_item 2%N = Done (ex_back_item_entered, 1%N)
  /\ forall fuel,
       menuTop fuel ex_back_item_entered 2%N = Timeout
       /\ menuTop fuel ex_back_item_entered 1%N = Timeout.
Proof.
  split; [reflexivity|].
  apply (menuEnter_back_item_makes_cycle 7 unit noapp ex_back_item
           ex_back_item_entered 2%N 1%N menu_leaf_linked);
    [reflexivity | reflexivity | discriminate | reflexivity].
Defined.

(** X5 on the full menu, from item 7 on screen 1. *)
Lemma menuUp_reports_change_witness :
  geometry_ok 7 menu_home arr_full = true
  /\ cursor_ok 7 menu_home arr_full = true
  /\ exists st' r m',
       menuUp 7 ex_home 1%N = Done (st', r)
       /\ menus st' !! 1%N = Some m'
       /\ (r = 0 \/ r = 1)
       /\ (r = 0 ->
           st' = ex_home /\ nScreen menu_home = 0
           /\ forall j, j < nCurrentItem menu_home -> enabled arr_full j = false)
       /\ (r = 1 ->
           nCurrentItem m' <= nCurrentItem menu_home
           /\ nCurrentItem m' + nScreen m'
              < nCurrentItem menu_home + nScreen menu_home).
Proof.
  split; [reflexivity|]. split; [reflexivity|].
  apply (menuUp_reports_change 7 unit ex_home 1%N menu_home 10%N arr_full);
    reflexivity.
Defined.

(** X6 on the full menu, from item 7 on screen 1. *)
Lemma menuDown_reports_change_witness :
  geometry_ok 7 menu_home arr_full = true
  /\ cursor_ok 7 menu_home arr_full = true
  /\ exists st' r m',
       menuDown 7 ex_home 1%N = Done (st', r)
       /\ menus st' !! 1%N = Some m'
       /\ (r = 0 \/ r = 1)
       /\ (r = 0 ->
           st' = ex_home
           /\ nScreen menu_home
              = (nMenuItems menu_home - 1) / determineItemsPerScreen 7 menu_home
           /\ forall j, nCurrentItem menu_home < j -> enabled arr_full j = false)
       /\ (r = 1 ->
           nCurrentItem menu_home <= nCurrentItem m'
           /\ nCurrentItem menu_home + nScreen menu_home
              < nCurrentItem m' + nScreen m').
Proof.
  split; [reflexivity|]. split; [reflexivity|].
  apply (menuDown_reports_change 7 unit ex_home 1%N menu_home 10%N arr_full);
    reflexivity.
Defined.

(** X7 on the full menu. *)
Lemma menuPositionTop_is_idempotent_witness :
  menuPositionTop 7 ex_home 1%N = Done ex_home_top
  /\ menuUp 7 ex_home_top 1%N = Done (ex_home_top, 0)
  /\ menuPositionTop 7 ex_home_top 1%N = Done ex_home_top.
Proof.
  split; [reflexivity|].
  apply (menuPositionTop_is_idempotent 7 unit ex_home ex_home_top 1%N).
  reflexivity.
Defined.

(** X8 on the menu without items. *)
Lemma navigation_on_empty_menu_witness :
  determineItemsPerScreen 7 menu_empty <> 0
  /\ menuUp 7 ex_empty 1%N = Done (ex_empty, 0)
  /\ menuDown 7 ex_empty 1%N = Done (ex_empty, 0)
  /\ menuPositionTop 7 ex_empty 1%N = Done ex_empty
  /\ (pItems menu_empty = None
      \/ (exists a, pItems menu_empty = Some a
                    /\ itemArrays ex_empty !! a = Some []) ->
      menuEnter 7 noapp ex_empty 1%N = Fault).
Proof.
  split; [vm_compute; discriminate|].
  apply (navigation_on_empty_menu 7 unit noapp ex_empty 1%N menu_empty);
    [reflexivity | reflexivity | reflexivity | reflexivity
    | vm_compute; discriminate].
Defined.

(** X9 on the menu whose seven item rows are all reserved. *)
Lemma navigation_without_rows_is_undefined_witness :
  determineItemsPerScreen 7 menu_blocked = 0
  /\ menuUp 7 ex_blocked 1%N = Fault
  /\ menuDown 7 ex_blocked 1%N = Fault
  /\ menuEnter 7 noapp ex_blocked 1%N = Fault.
Proof.
  split; [reflexivity|].
  apply (navigation_without_rows_is_undefined 7 unit noapp ex_blocked 1%N
           menu_blocked); [reflexivity | cbn; lia | reflexivity].
Defined.

(** X10 on the literal [1.5]. *)
Lemma determineDecimals_ignores_sign_witness :
  determineDecimals (SFopp (float_literal 15 10))
  = determineDecimals (float_literal 15 10).
Proof.
  apply (determineDecimals_ignores_sign (float_literal 15 10)).
  vm_compute. reflexivity.
Defined.

(** X11 on the float [3000000000], which is above [2^31]. *)
Lemma determineDecimals_out_of_range_witness :
  int32_of_float (SFabs (f32_of_Z 3000000000)) = Fault
  /\ determineDecimals (f32_of_Z 3000000000) = Fault.
Proof.
  split; [vm_compute; reflexivity|].
  apply (determineDecimals_out_of_range (f32_of_Z 3000000000));
    vm_compute; reflexivity.
Defined.

(** X12 on the literal [1.503]. *)
Lemma determineDecimals_of_fractional_part_witness :
  exists x,
    fractional_part (float_literal 1503 1000) = Done x
    /\ determineDecimals x = determineDecimals (float_literal 1503 1000).
Proof.
  eexists. split; [vm_compute; reflexivity|].
  apply (determineDecimals_of_fractional_part (float_literal 1503 1000));
    vm_compute; reflexivity.
Defined.


(** X14 on the menu with rows 1, 2 and 4 reserved, from page 0: the next page
    is 3. *)
Lemma getNextPage_next_free_page_witness :
  exists q,
    getNextPage 7 menu_reserved 0 = Done q
    /\ ((q = 0
         /\ forall j, 0 < j <= 7 -> page_reserved menu_reserved j = true)
        \/ (0 < q <= 7
            /\ page_reserved menu_reserved q = false
            /\ forall j, 0 < j < q -> page_reserved menu_reserved j = true)).
Proof.
  apply (getNextPage_next_free_page 7 menu_reserved 0). lia.
Defined.

(** X15 on the menu with rows 1, 2 and 4 reserved. *)
Lemma page_walk_matches_items_per_screen_witness :
  page_walk 7 256 menu_reserved 0 = Done (pages_after 7 menu_reserved 0)
  /\ Z.of_nat (length (pages_after 7 menu_reserved 0))
     = determineItemsPerScreen 7 menu_reserved.
Proof.
  apply (page_walk_matches_items_per_screen 7 menu_reserved). lia.
Defined.

(** X16 on the menu with rows 1, 2 and 4 reserved: row 23, the last of page
    2, is left alone since page 3 is not reserved. *)
Lemma menuClearReservedArea_rows_witness :
  existsb (clears_row 23) (menuClearReservedArea 128 menu_reserved) = false
  /\ existsb (clears_row 15) (menuClearReservedArea 128 menu_reserved) = true.
Proof.
  pose proof (proj1 (menuClearReservedArea_rows 128 menu_reserved)) as H.
  split.
  - destruct (existsb (clears_row 23) (menuClearReservedArea 128 menu_reserved))
      eqn:E; [|reflexivity].
    apply (H 23) in E. destruct E as (_ & _ & [E | E]);
      [vm_compute in E; discriminate E | vm_compute in E; discriminate E].
  - apply (H 15). split; [vm_compute; split; discriminate|].
    split; [reflexivity|]. right. reflexivity.
Defined.

(** X17 on the menu of ten items that shows screen 37: the uint8 [nItem]
    starts at [259 - 256 = 3], and the items 3 to 9 are printed on the pages
    1 to 7. *)
Lemma menuWriteBuffer_prints_screen_witness :
  exists evs,
    menuWriteBuffer 7 2 128 6 5 8 text_chars float_chars int_chars 8
      ex_wrap ∅ 1%N = Done evs
    /\ item_calls evs = rows_shown 10 3 (pages_after 7 menu_wrap 0)
    /\ item_calls evs = [(3, 1); (4, 2); (5, 3); (6, 4); (7, 5); (8, 6); (9, 7)].
Proof.
  eexists. split; [vm_compute; reflexivity|].
  split; [|vm_compute; reflexivity].
  refine (proj1 (menuWriteBuffer_prints_screen 7 unit 2 128 6 5 8 text_chars
                   float_chars int_chars 8 ex_wrap ∅ 1%N menu_wrap _
                   eq_refl _ _ _));
    [lia | cbn; lia | vm_compute; reflexivity].
Defined.

(** X18 on the menu with a header text. *)
Lemma menuWriteBuffer_clears_free_pages_witness :
  exists evs,
    menuWriteBuffer 7 2 128 6 5 8 text_chars float_chars int_chars 8
      ex_titled ∅ 1%N = Done evs
    /\ cleared_pages evs
       = (if header_shown menu_titled then [0] else [])
         ++ pages_after 7 menu_titled 0
    /\ forall pg, In pg (cleared_pages evs) ->
         (pg = 0 /\ header_shown menu_titled = true)
         \/ (1 <= pg <= 7 /\ page_reserved menu_titled pg = false).
Proof.
  eexists. split; [vm_compute; reflexivity|].
  apply (menuWriteBuffer_clears_free_pages 7 unit 2 128 6 5 8 text_chars
           float_chars int_chars 8 ex_titled ∅ 1%N menu_titled);
    [reflexivity | lia | cbn; lia | vm_compute; reflexivity].
Defined.

(** X19 on the menu whose current item 0 has two dummy rows: the mark is on
    page 1, and the blocks of the pages 2 and 3 are inverted. *)
Lemma menuWriteBuffer_highlights_current_witness :
  exists evs,
    menuWriteBuffer 7 2 128 6 5 8 text_chars float_chars int_chars 8
      ex_extended ∅ 1%N = Done evs
    /\ (marked_pages evs
        = map snd (List.filter
                     (fun r => fst r =? to_int8 (nCurrentItem menu_extended))
                     (item_calls evs))
        /\ (length (marked_pages evs) <= 1)%nat
        /\ inverted_blocks evs
           = map (fun r => page_block 128 8 (snd r))
                 (List.filter
                    (fun r => dummy_of ex_extended menu_extended
                                (to_int8 (nCurrentItem menu_extended)) (fst r))
                    (item_calls evs)))
    /\ marked_pages evs = [1]
    /\ inverted_blocks evs = [(0, 16, 127, 23); (0, 24, 127, 31)].
Proof.
  eexists. split; [vm_compute; reflexivity|].
  split; [|split; vm_compute; reflexivity].
  apply (menuWriteBuffer_highlights_current 7 unit 2 128 6 5 8 text_chars
           float_chars int_chars 8 ex_extended ∅ 1%N menu_extended);
    [reflexivity | lia | cbn; lia | vm_compute; reflexivity].
Defined.

(** X20 on the menu whose first item is a dummy item. *)
Lemma menuWriteBuffer_first_item_dummy_witness :
  read_item ex_dummy menu_dummy 0 = Done (mkItem M_DUMMY None)
  /\ Z.land (flags (mkItem M_DUMMY None)) M_EXTEND <> 0
  /\ menuWriteBuffer 7 2 128 6 5 8 text_chars float_chars int_chars 8
       ex_dummy ∅ 1%N = Fault.
Proof.
  split; [reflexivity|]. split; [vm_compute; discriminate|].
  apply (menuWriteBuffer_first_item_dummy 7 unit 2 128 6 5 8 text_chars
           float_chars int_chars 8 ex_dummy ∅ 1%N menu_dummy
           (mkItem M_DUMMY None) 1);
    [reflexivity | reflexivity | cbn; lia | lia | reflexivity | reflexivity
    | vm_compute; discriminate
    | intros _; eexists; vm_compute; reflexivity].
Defined.


(** X22 on the item that shows, with automatic decimals, the float
    [3000000000], on which [determineDecimals] is undefined, and on the item
    that shows an integer. *)
Lemma printItem_returns_on_typed_value_witness :
  cell_typed vmem_large item_auto = true
  /\ determineDecimals (f32_of_Z 3000000000) = Fault
  /\ printItem 2 128 6 string_chars float_chars int_chars ex_auto vmem_large
       1%N 0 1 0 = Fault
  /\ cell_typed vmem_value item_value = true
  /\ exists r,
       printItem 2 128 6 string_chars float_chars int_chars ex_value vmem_value
         1%N 0 1 0 = Done r.
Proof.
  split; [reflexivity|]. split; [vm_compute; reflexivity|]. split; [|split].
  - apply (proj1 (printItem_returns_on_typed_value unit 2 128 6 string_chars
                    float_chars int_chars ex_auto vmem_large 1%N menu_value
                    item_auto 0 1 0 eq_refl eq_refl eq_refl)
             5%N (f32_of_Z 3000000000));
      [reflexivity | reflexivity | reflexivity | vm_compute; reflexivity].
  - reflexivity.
  - apply (proj2 (printItem_returns_on_typed_value unit 2 128 6 string_chars
                    float_chars int_chars ex_value vmem_value 1%N menu_value
                    item_value 0 1 0 eq_refl eq_refl eq_refl)).
    intros a f Ha Hcell. injection Ha as <-.
    vm_compute in Hcell. discriminate Hcell.
Defined.


(** X24 on the menu with a header text: the eight characters of "Settings"
    are written. *)
Lemma printHeader_title_fits_witness :
  printNavNumbers 2 128 6 5 text_chars ex_titled menu_titled = Done (0, [])
  /\ preferred_title 8 ex_titled 1%N menu_titled = Done (Some "Settings"%string)
  /\ exists w ev,
       w = Z.min (to_uint8 (Z.of_nat (String.length "Settings")))
                 ((128 - 0) / 6 - 1)
       /\ 0 <= w <= 21
       /\ printHeader 2 128 6 5 text_chars 8 ex_titled 1%N
          = Done ([] ++ [ev] ++ [LcdSetHLine 0 (128 - 1) 7])
       /\ (ev = LcdPrintStringCentered
                  (substring 0 (Z.to_nat w) "Settings") 0
           \/ ev = LcdPrintString
                     (Some (substring 0 (Z.to_nat w) "Settings"))
                     (to_int8 (128 - 0 - 6 - w * 6)) 0).
Proof.
  split; [reflexivity|]. split; [reflexivity|].
  apply (printHeader_title_fits unit 2 128 6 5 text_chars 8 ex_titled 1%N
           menu_titled 0 [] "Settings");
    [reflexivity | reflexivity | reflexivity | reflexivity | lia | lia].
Defined.

(** X25 on the right-aligned item of the option menu, which has no number
    text: its value, one character of 6 pixels, ends 6 pixels past the
    margin at 126. *)
Lemma item_layout_right_aligned_witness :
  l_valSize (item_layout 2 128 6 string_chars menu_value item_value
               EmptyString "Gain" 0 0 6) <> 0
  /\ l_valPos (item_layout 2 128 6 string_chars menu_value item_value
                 EmptyString "Gain" 0 0 6)
     + l_valSize (item_layout 2 128 6 string_chars menu_value item_value
                    EmptyString "Gain" 0 0 6)
     = 128 - 2 + 6.
Proof.
  split; [vm_compute; discriminate|].
  apply (item_layout_right_aligned 2 128 6 string_chars menu_value item_value
           EmptyString "Gain" 0 0 6);
    [lia | lia | lia | lia | lia | reflexivity | vm_compute; discriminate].
Defined.

(** X26 on the full menu: item 7 is the first of screen 1 and marked on
    page 1. *)
Lemma menuWriteBuffer_marks_current_on_its_screen_witness :
  exists evs,
    menuWriteBuffer 7 2 128 6 5 8 text_chars float_chars int_chars 8
      ex_home ∅ 1%N = Done evs
    /\ (nScreen menu_home
        = nCurrentItem menu_home / determineItemsPerScreen 7 menu_home ->
        exists pg, marked_pages evs = [pg]
                   /\ In (nCurrentItem menu_home, pg) (item_calls evs))
    /\ (nScreen menu_home
        <> nCurrentItem menu_home / determineItemsPerScreen 7 menu_home ->
        marked_pages evs = []).
Proof.
  eexists. split; [vm_compute; reflexivity|].
  apply (menuWriteBuffer_marks_current_on_its_screen 7 unit 2 128 6 5 8
           text_chars float_chars int_chars 8 ex_home ∅ 1%N menu_home);
    [reflexivity | lia | vm_compute; reflexivity | cbn; lia | cbn; lia
    | cbn; lia | vm_compute; reflexivity | vm_compute; reflexivity].
Defined.
